(** * draw.py: the shape editor over a raster background

    A shallow embedding of [src/draw.py].  The program is a Tk application;
    its state lives in one [App] object, a list of shape objects that the
    application aliases through [selected_shape] and [current_shape], and
    the display list of the Tk canvas.

    Conventions of the embedding.
    - Python numbers (ints that become floats after the first division) are
      real numbers; [int(...)] truncates toward zero.  Rounding error of
      IEEE doubles is outside the model of the editor; the one assignment
      whose rounding decides a property looked at here, the angle set by a
      rotation drag, is given a second time on binary64 floats
      ([PyFloat]).
    - Python objects live in a heap ([App.heap]); an object identity is its
      allocation index.  The heap never shrinks, as no reference dangles
      in Python.
    - The Tk canvas is a display list of items, bottom first.  The bounding
      box Tk reports for a rectangle item is taken to be its coordinates;
      the bounding box of a text item is given by the host ([measure]).
    - An event handler returns [Done s] or [Raised e s], [s] being the
      state left behind when the Python exception [e] escapes the handler
      (Tk reports it and keeps running). *)

From Stdlib Require Import Reals Lra Lia ZArith List String Bool.
From Stdlib Require Floats.
Import ListNotations.
Open Scope string_scope.
Open Scope list_scope.
Open Scope R_scope.

(** ** Python arithmetic *)

Definition Rleb (a b : R) : bool := if Rle_dec a b then true else false.
Definition Rltb (a b : R) : bool := if Rlt_dec a b then true else false.
Definition Reqb (a b : R) : bool := if Req_dec_T a b then true else false.

Inductive exn : Type :=
| AttributeError (attr : string)
| KeyError (key : string)
| ZeroDivisionError.

Inductive Fallible (A : Type) : Type :=
| Val (a : A)
| Exc (e : exn).
Arguments Val {A} a.
Arguments Exc {A} e.

Definition bind {A B : Type} (m : Fallible A) (k : A -> Fallible B) : Fallible B :=
  match m with
  | Val a => k a
  | Exc e => Exc e
  end.

Notation "x <- m ;; k" := (bind m (fun x => k))
  (at level 61, m at next level, right associativity).

(** [a / b] on floats. *)
Definition py_div (a b : R) : Fallible R :=
  if Reqb b 0 then Exc ZeroDivisionError else Val (a / b).

(** [int(r)]: truncation toward zero. *)
Definition py_int (r : R) : Z :=
  if Rleb 0 r then Int_part r else (- Int_part (- r))%Z.

(** [a % b] on floats, for a positive [b]: the result has the sign of [b]. *)
Definition py_mod (a b : R) : R := a - b * IZR (Int_part (a / b)).

(** The same operations on binary64 floats, for the assignment
    [shp.angle = (self.drag_data["init_shape_angle"] + delta_angle) % 360]
    of [on_canvas_drag]. *)
Module PyFloat.

Import PrimFloat SpecFloat FloatOps.

(** [fmod(x, y)] of the C library: [x - n * y] for the integer [n] that is
    [x / y] rounded toward zero, computed without rounding error; a result
    that is zero has the sign of [x]. *)
Definition fmod (x y : float) : float :=
  match Prim2SF x, Prim2SF y with
  | S754_nan, _ | _, S754_nan => nan
  | S754_infinity _, _ | _, S754_zero _ => nan
  | S754_zero _, _ | _, S754_infinity _ => x
  | S754_finite sx mx ex, S754_finite _ my ey =>
      let e := Z.min ex ey in
      let r := Z.rem (Z.pos mx * 2 ^ (ex - e)) (Z.pos my * 2 ^ (ey - e)) in
      SF2Prim (binary_normalize prec emax (if sx then - r else r) e sx)
  end.

(** [v % w] on floats, as [float_rem] of CPython computes it: the
    remainder of [fmod], to which [w] is added when its sign is not the
    sign of [w]; a zero remainder gets the sign of [w]. *)
Definition mod_ (v w : float) : Fallible float :=
  if eqb w 0 then Exc ZeroDivisionError
  else
    let m := fmod v w in
    if eqb m 0 then Val (if ltb w 0 then (- 0)%float else 0%float)
    else if Bool.eqb (ltb w 0) (ltb m 0) then Val m
    else Val (m + w)%float.

(** The angle a rotation drag assigns, from the two values stored in the
    drag data and the bearing of the pointer:
    [delta_angle = current_mouse_angle - self.drag_data["init_rotate_angle"]]
    and [(self.drag_data["init_shape_angle"] + delta_angle) % 360]. *)
Definition rotated_angle
    (init_shape_angle init_rotate_angle current_mouse_angle : float)
  : Fallible float :=
  let delta_angle := (current_mouse_angle - init_rotate_angle)%float in
  mod_ (init_shape_angle + delta_angle)%float 360%float.

End PyFloat.

(** [math.radians], [math.degrees], [math.hypot], [math.atan2]. *)
Definition radians (d : R) : R := d * PI / 180.
Definition degrees (r : R) : R := r * 180 / PI.
Definition hypot (a b : R) : R := sqrt (a * a + b * b).

Definition atan2 (y x : R) : R :=
  if Rltb 0 x then atan (y / x)
  else if Rltb x 0 then
         (if Rleb 0 y then atan (y / x) + PI else atan (y / x) - PI)
  else if Rltb 0 y then PI / 2
  else if Rltb y 0 then - (PI / 2)
  else 0.

(** A bounding box [(x1, y1, x2, y2)]. *)
Definition BBox : Type := (R * R * R * R)%type.

Definition in_bbox (bb : BBox) (cx cy : R) : bool :=
  let '(x1, y1, x2, y2) := bb in
  Rleb x1 cx && Rleb cx x2 && Rleb y1 cy && Rleb cy y2.

(** A Python [dict] with string keys, in insertion order. *)
Fixpoint dict_set {V : Type} (k : string) (v : V) (d : list (string * V))
  : list (string * V) :=
  match d with
  | [] => [(k, v)]
  | (k', v') :: d' =>
      if String.eqb k k' then (k, v) :: d' else (k', v') :: dict_set k v d'
  end.

(** ** The Tk canvas *)

Module Canvas.

Inductive Item : Type :=
| Polygon (coords : list R)
| Oval (x1 y1 x2 y2 : R)
| Line (x1 y1 x2 y2 : R)
| Text (x y : R) (text : string) (font_size : Z)
| Rectangle (x1 y1 x2 y2 : R) (style : string)
| Image (w h : Z).

(** [items] is the display list, bottom first; [next_id] the identifier
    Tk gives to the next item (identifiers start at 1 and are never
    reused); [measure x y text font_size] is the bounding box the host
    reports for a text item anchored at its north-west corner. *)
Record t : Type := mk {
  items : list (nat * Item);
  next_id : nat;
  measure : R -> R -> string -> Z -> option BBox
}.

Definition empty (m : R -> R -> string -> Z -> option BBox) : t :=
  mk [] 1 m.

Definition create (it : Item) (c : t) : nat * t :=
  (next_id c, mk (items c ++ [(next_id c, it)]) (S (next_id c)) (measure c)).

Definition delete (id : nat) (c : t) : t :=
  mk (filter (fun p => negb (Nat.eqb (fst p) id)) (items c))
     (next_id c) (measure c).

(** [canvas.delete(x)] where [x] may be [None]. *)
Definition delete_opt (id : option nat) (c : t) : t :=
  match id with
  | Some i => delete i c
  | None => c
  end.

Definition lookup (id : nat) (c : t) : option Item :=
  option_map snd (find (fun p => Nat.eqb (fst p) id) (items c)).

(** [canvas.coords(id, ...)]: the item keeps its place in the display list. *)
Definition coords (id : nat) (it : Item) (c : t) : t :=
  mk (map (fun p => if Nat.eqb (fst p) id then (id, it) else p) (items c))
     (next_id c) (measure c).

Definition tag_raise (id : nat) (c : t) : t :=
  mk (filter (fun p => negb (Nat.eqb (fst p) id)) (items c)
      ++ filter (fun p => Nat.eqb (fst p) id) (items c))
     (next_id c) (measure c).

Definition tag_lower (id : nat) (c : t) : t :=
  mk (filter (fun p => Nat.eqb (fst p) id) (items c)
      ++ filter (fun p => negb (Nat.eqb (fst p) id)) (items c))
     (next_id c) (measure c).

(** [canvas.bbox(id)]; the program asks for the box of handle rectangles
    and of text items only.  A deleted item has none. *)
Definition bbox (id : nat) (c : t) : option BBox :=
  match lookup id c with
  | Some (Rectangle x1 y1 x2 y2 _) => Some (x1, y1, x2, y2)
  | Some (Text x y s fs) => measure c x y s fs
  | _ => None
  end.

(** Identifiers in display order. *)
Definition ids (c : t) : list nat := map fst (items c).

End Canvas.

(** ** The shape classes *)

(** Flat coordinate list [[x0; y0; x1; y1; ...]] to points, as the list
    comprehension [[(c[i], c[i+1]) for i in range(0, len(c), 2)]]. *)
Fixpoint pairs (l : list R) : list (R * R) :=
  match l with
  | a :: b :: l' => (a, b) :: pairs l'
  | _ => []
  end.

(** Rotation of the local offsets [pts] by the angle whose cosine and sine
    are given, followed by the translation to [(x, y)]. *)
Definition rotate_about (x y cos_a sin_a : R) (pts : list (R * R)) : list R :=
  flat_map (fun p => [x + fst p * cos_a - snd p * sin_a;
                      y + fst p * sin_a + snd p * cos_a]) pts.

(** The square of half side [hs] around [(x, y)] passed to
    [create_rectangle]. *)
Definition handle_box (x y hs : R) : BBox := (x - hs, y - hs, x + hs, y + hs).

Module RectangleShape.

Record t : Type := mk {
  base_x : R; base_y : R; base_width : R; base_height : R;
  x : R; y : R; width : R; height : R; angle : R
}.

Definition init (x y width height angle : R) : t :=
  mk x y width height x y width height angle.

Definition get_corners (r : t) : list R :=
  let w2 := width r / 2 in
  let h2 := height r / 2 in
  let pts := [(- w2, - h2); (w2, - h2); (w2, h2); (- w2, h2)] in
  let rad := radians (angle r) in
  rotate_about (x r) (y r) (cos rad) (sin rad) pts.

Definition contains_point (r : t) (px py : R) : bool :=
  let rad := radians (- angle r) in
  let cos_a := cos rad in
  let sin_a := sin rad in
  let dx := px - x r in
  let dy := py - y r in
  let lx := dx * cos_a - dy * sin_a in
  let ly := dx * sin_a + dy * cos_a in
  Rleb (Rabs lx) (width r / 2) && Rleb (Rabs ly) (height r / 2).

(** The two squares [draw_handles] creates: around [pts[2]], and 20 above
    the middle of [pts[0]] and [pts[1]]. *)
Definition resize_handle (r : t) : BBox :=
  let pts := pairs (get_corners r) in
  let b := nth 2 pts (0, 0) in
  handle_box (fst b) (snd b) 6.

Definition rotate_handle (r : t) : BBox :=
  let pts := pairs (get_corners r) in
  let p0 := nth 0 pts (0, 0) in
  let p1 := nth 1 pts (0, 0) in
  let top_mid := ((fst p0 + fst p1) / 2, (snd p0 + snd p1) / 2) in
  handle_box (fst top_mid) (snd top_mid - 20) 6.

End RectangleShape.

Module CircleShape.

(** [__init__] sets no [angle]; the attribute exists only once something
    assigns it. *)
Record t : Type := mk {
  base_x : R; base_y : R; base_radius : R;
  x : R; y : R; radius : R;
  angle : option R
}.

Definition init (x y radius : R) : t := mk x y radius x y radius None.

Definition contains_point (c : t) (px py : R) : bool :=
  Rleb ((px - x c) * (px - x c) + (py - y c) * (py - y c))
       (radius c * radius c).

Definition resize_handle (c : t) : BBox :=
  handle_box (x c + radius c) (y c) 6.

Definition rotate_handle (c : t) : BBox :=
  handle_box (x c) (y c - radius c - 20) 6.

End CircleShape.

(** [_point_in_polygon(px, py, coords)]: even-odd rule over the edges
    [i -> (i+1) % n]. *)
Definition _point_in_polygon_edge (px py : R) (coords : list R) (n i : nat)
    (inside : bool) : Fallible bool :=
  let x1 := nth (2 * i) coords 0 in
  let y1 := nth (2 * i + 1) coords 0 in
  let x2 := nth (2 * ((i + 1) mod n)) coords 0 in
  let y2 := nth (2 * ((i + 1) mod n) + 1) coords 0 in
  if xorb (Rltb py y1) (Rltb py y2) then
    q <- py_div ((py - y1) * (x2 - x1)) (y2 - y1) ;;
    let xcross := x1 + q in
    Val (if Rltb px xcross then negb inside else inside)
  else Val inside.

Fixpoint _point_in_polygon_loop (px py : R) (coords : list R) (n : nat)
    (idxs : list nat) (inside : bool) : Fallible bool :=
  match idxs with
  | [] => Val inside
  | i :: idxs' =>
      inside' <- _point_in_polygon_edge px py coords n i inside ;;
      _point_in_polygon_loop px py coords n idxs' inside'
  end.

Definition _point_in_polygon (px py : R) (coords : list R) : Fallible bool :=
  let n := Nat.div (List.length coords) 2 in
  _point_in_polygon_loop px py coords n (seq 0 n) false.

(** [max(pts, key=...)] and [min(pts, key=...)]: the first extremal element. *)
Fixpoint max_by (key : R * R -> R) (best : R * R) (l : list (R * R)) : R * R :=
  match l with
  | [] => best
  | p :: l' => max_by key (if Rltb (key best) (key p) then p else best) l'
  end.

Fixpoint min_by (key : R * R -> R) (best : R * R) (l : list (R * R)) : R * R :=
  match l with
  | [] => best
  | p :: l' => min_by key (if Rltb (key p) (key best) then p else best) l'
  end.

Module HourglassShape.

Record t : Type := mk {
  base_x : R; base_y : R; base_width : R; base_height : R;
  x : R; y : R; width : R; height : R; angle : R
}.

Definition init (x y width height angle : R) : t :=
  mk x y width height x y width height angle.

Definition _get_coords (h : t) : list R :=
  let w2 := width h / 2 in
  let h2 := height h / 2 in
  let local_pts :=
    [(- w2, - h2); (w2, h2); (- w2, h2); (w2, - h2); (- w2, - h2)] in
  let rad := radians (angle h) in
  rotate_about (x h) (y h) (cos rad) (sin rad) local_pts.

Definition contains_point (h : t) (px py : R) : Fallible bool :=
  _point_in_polygon px py (_get_coords h).

(** [pts] leaves out the closing point: [range(0, len(coords)-2, 2)]. *)
Definition pts (h : t) : list (R * R) :=
  removelast (pairs (_get_coords h)).

Definition resize_handle (h : t) : BBox :=
  let right_pt :=
    match pts h with
    | [] => (0, 0)
    | p :: l => max_by fst p l
    end in
  handle_box (fst right_pt) (snd right_pt) 6.

Definition rotate_handle (h : t) : BBox :=
  let top_pt :=
    match pts h with
    | [] => (0, 0)
    | p :: l => min_by snd p l
    end in
  handle_box (fst top_pt) (snd top_pt - 20) 6.

End HourglassShape.

Module LineShape.

Record t : Type := mk {
  base_x1 : R; base_y1 : R; base_x2 : R; base_y2 : R;
  x1 : R; y1 : R; x2 : R; y2 : R
}.

Definition init (x1 y1 x2 y2 : R) : t := mk x1 y1 x2 y2 x1 y1 x2 y2.

Definition contains_point (l : t) (px py : R) : Fallible bool :=
  let line_len := hypot (x2 l - x1 l) (y2 l - y1 l) in
  if Reqb line_len 0 then
    Val (Rltb (Rabs (px - x1 l)) 5 && Rltb (Rabs (py - y1 l)) 5)
  else
    u <- py_div ((px - x1 l) * (x2 l - x1 l) + (py - y1 l) * (y2 l - y1 l))
                (line_len * line_len) ;;
    if Rltb u 0 || Rltb 1 u then Val false
    else
      let cx := x1 l + u * (x2 l - x1 l) in
      let cy := y1 l + u * (y2 l - y1 l) in
      Val (Rleb (hypot (px - cx) (py - cy)) 5).

Definition end1_handle (l : t) : BBox := handle_box (x1 l) (y1 l) 5.
Definition end2_handle (l : t) : BBox := handle_box (x2 l) (y2 l) 5.

End LineShape.

Module TextShape.

(** [font_size] is always a Python [int]; [base_font_size] becomes a
    float after the first resize.  [bbox] is what the canvas reported at
    the last draw. *)
Record t : Type := mk {
  base_x : R; base_y : R; base_font_size : R;
  x : R; y : R; text : string; font_size : Z;
  angle : R;
  bbox : option BBox
}.

Definition init (x y : R) (text : string) (font_size : Z) : t :=
  mk x y (IZR font_size) x y text font_size 0 None.

Definition contains_point (t : t) (px py : R) : bool :=
  match bbox t with
  | Some bb => in_bbox bb px py
  | None => false
  end.

End TextShape.

(** A shape object: the fields of the base class [Shape] and the fields of
    its class. *)
Inductive Body : Type :=
| Rect (r : RectangleShape.t)
| Circ (c : CircleShape.t)
| Hour (h : HourglassShape.t)
| Lin (l : LineShape.t)
| Txt (t : TextShape.t).

Module Shape.

Record t : Type := mk {
  selected : bool;
  handles : list (string * nat);
  item : option nat;
  body : Body
}.

Definition init (b : Body) : t := mk false [] None b.

Definition set_selected (v : bool) (s : t) : t :=
  mk v (handles s) (item s) (body s).
Definition set_handles (v : list (string * nat)) (s : t) : t :=
  mk (selected s) v (item s) (body s).
Definition set_item (v : option nat) (s : t) : t :=
  mk (selected s) (handles s) v (body s).
Definition set_body (v : Body) (s : t) : t :=
  mk (selected s) (handles s) (item s) v.

(** [if shp.item:] an identifier is true unless it is 0. *)
Definition item_truthy (s : t) : option nat :=
  match item s with
  | Some (S n) => Some (S n)
  | _ => None
  end.

Definition contains_point (s : t) (px py : R) : Fallible bool :=
  match body s with
  | Rect r => Val (RectangleShape.contains_point r px py)
  | Circ c => Val (CircleShape.contains_point c px py)
  | Hour h => HourglassShape.contains_point h px py
  | Lin l => LineShape.contains_point l px py
  | Txt t => Val (TextShape.contains_point t px py)
  end.

Definition delete_handles (s : t) (c : Canvas.t) : t * Canvas.t :=
  (set_handles [] s,
   fold_left (fun c' h => Canvas.delete (snd h) c') (handles s) c).

(** The item a shape is drawn as, for the classes that keep their item. *)
Definition outline (b : Body) : Canvas.Item :=
  match b with
  | Rect r => Canvas.Polygon (RectangleShape.get_corners r)
  | Circ c =>
      Canvas.Oval (CircleShape.x c - CircleShape.radius c)
                  (CircleShape.y c - CircleShape.radius c)
                  (CircleShape.x c + CircleShape.radius c)
                  (CircleShape.y c + CircleShape.radius c)
  | Hour h => Canvas.Polygon (HourglassShape._get_coords h)
  | Lin l =>
      Canvas.Line (LineShape.x1 l) (LineShape.y1 l)
                  (LineShape.x2 l) (LineShape.y2 l)
  | Txt t =>
      Canvas.Text (TextShape.x t) (TextShape.y t) (TextShape.text t)
                  (TextShape.font_size t)
  end.

Definition set_bbox (bb : option BBox) (b : Body) : Body :=
  match b with
  | Txt t =>
      Txt (TextShape.mk (TextShape.base_x t) (TextShape.base_y t)
             (TextShape.base_font_size t) (TextShape.x t) (TextShape.y t)
             (TextShape.text t) (TextShape.font_size t) (TextShape.angle t)
             bb)
  | _ => b
  end.

Definition draw (s : t) (c : Canvas.t) : t * Canvas.t :=
  match body s with
  | Txt _ =>
      let c1 := match item s with
                | Some id => Canvas.delete id c
                | None => c
                end in
      let (id, c2) := Canvas.create (outline (body s)) c1 in
      (mk (selected s) (handles s) (Some id)
          (set_bbox (Canvas.bbox id c2) (body s)), c2)
  | _ =>
      match item s with
      | None =>
          let (id, c') := Canvas.create (outline (body s)) c in
          (set_item (Some id) s, c')
      | Some id => (s, Canvas.coords id (outline (body s)) c)
      end
  end.

(** [h = canvas.create_rectangle(...); self.handles[name] = h] *)
Definition add_handle (name : string) (bb : BBox) (style : string)
    (sc : t * Canvas.t) : t * Canvas.t :=
  let '(x1, y1, x2, y2) := bb in
  let (id, c') := Canvas.create (Canvas.Rectangle x1 y1 x2 y2 style) (snd sc) in
  (set_handles (dict_set name id (handles (fst sc))) (fst sc), c').

Definition draw_handles (s : t) (c : Canvas.t) : t * Canvas.t :=
  let sc := delete_handles s c in
  match body s with
  | Rect r =>
      add_handle "rotate" (RectangleShape.rotate_handle r) "red"
        (add_handle "resize" (RectangleShape.resize_handle r) "blue" sc)
  | Circ ci =>
      add_handle "rotate" (CircleShape.rotate_handle ci) "red"
        (add_handle "resize" (CircleShape.resize_handle ci) "blue" sc)
  | Hour h =>
      add_handle "rotate" (HourglassShape.rotate_handle h) "red"
        (add_handle "resize" (HourglassShape.resize_handle h) "blue" sc)
  | Lin l =>
      add_handle "end2" (LineShape.end2_handle l) "blue"
        (add_handle "end1" (LineShape.end1_handle l) "blue" sc)
  | Txt t =>
      match TextShape.bbox t with
      | None => sc
      | Some (x1, y1, x2, y2) =>
          let sc' :=
            add_handle "resize" (handle_box x2 y2 6) "blue"
              (add_handle "bbox" (x1, y1, x2, y2) "dash" sc) in
          (set_body (set_bbox (match item s with
                               | Some id => Canvas.bbox id (snd sc')
                               | None => None
                               end) (body s)) (fst sc'),
           snd sc')
      end
  end.

Definition select (s : t) (c : Canvas.t) : t * Canvas.t :=
  draw_handles (set_selected true s) c.

Definition deselect (s : t) (c : Canvas.t) : t * Canvas.t :=
  delete_handles (set_selected false s) c.

(** [edit_text]: the modal dialog; [Some s] when the user confirms the
    content [s], [None] when the window is closed otherwise. *)
Definition edit_text (dlg : option string) (s : t) : t :=
  match body s, dlg with
  | Txt t, Some txt =>
      set_body
        (Txt (TextShape.mk (TextShape.base_x t) (TextShape.base_y t)
                (TextShape.base_font_size t) (TextShape.x t) (TextShape.y t)
                txt (TextShape.font_size t) (TextShape.angle t)
                (TextShape.bbox t))) s
  | _, _ => s
  end.

End Shape.

(** ** Attribute access on a shape of any class *)

(** [shp.x += dx; shp.y += dy], or the four endpoint coordinates of a line. *)
Definition translate (dx dy : R) (b : Body) : Body :=
  match b with
  | Rect r =>
      Rect (RectangleShape.mk
              (RectangleShape.base_x r) (RectangleShape.base_y r)
              (RectangleShape.base_width r) (RectangleShape.base_height r)
              (RectangleShape.x r + dx) (RectangleShape.y r + dy)
              (RectangleShape.width r) (RectangleShape.height r)
              (RectangleShape.angle r))
  | Circ c =>
      Circ (CircleShape.mk
              (CircleShape.base_x c) (CircleShape.base_y c)
              (CircleShape.base_radius c)
              (CircleShape.x c + dx) (CircleShape.y c + dy)
              (CircleShape.radius c) (CircleShape.angle c))
  | Hour h =>
      Hour (HourglassShape.mk
              (HourglassShape.base_x h) (HourglassShape.base_y h)
              (HourglassShape.base_width h) (HourglassShape.base_height h)
              (HourglassShape.x h + dx) (HourglassShape.y h + dy)
              (HourglassShape.width h) (HourglassShape.height h)
              (HourglassShape.angle h))
  | Lin l =>
      Lin (LineShape.mk
             (LineShape.base_x1 l) (LineShape.base_y1 l)
             (LineShape.base_x2 l) (LineShape.base_y2 l)
             (LineShape.x1 l + dx) (LineShape.y1 l + dy)
             (LineShape.x2 l + dx) (LineShape.y2 l + dy))
  | Txt t =>
      Txt (TextShape.mk
             (TextShape.base_x t) (TextShape.base_y t)
             (TextShape.base_font_size t)
             (TextShape.x t + dx) (TextShape.y t + dy)
             (TextShape.text t) (TextShape.font_size t) (TextShape.angle t)
             (TextShape.bbox t))
  end.

(** [shp.base_x = shp.x / zoom; shp.base_y = shp.y / zoom], or the four
    base endpoint coordinates of a line. *)
Definition rebase_position (z : R) (b : Body) : Fallible Body :=
  match b with
  | Rect r =>
      bx <- py_div (RectangleShape.x r) z ;;
      by_ <- py_div (RectangleShape.y r) z ;;
      Val (Rect (RectangleShape.mk bx by_
                   (RectangleShape.base_width r) (RectangleShape.base_height r)
                   (RectangleShape.x r) (RectangleShape.y r)
                   (RectangleShape.width r) (RectangleShape.height r)
                   (RectangleShape.angle r)))
  | Circ c =>
      bx <- py_div (CircleShape.x c) z ;;
      by_ <- py_div (CircleShape.y c) z ;;
      Val (Circ (CircleShape.mk bx by_ (CircleShape.base_radius c)
                   (CircleShape.x c) (CircleShape.y c)
                   (CircleShape.radius c) (CircleShape.angle c)))
  | Hour h =>
      bx <- py_div (HourglassShape.x h) z ;;
      by_ <- py_div (HourglassShape.y h) z ;;
      Val (Hour (HourglassShape.mk bx by_
                   (HourglassShape.base_width h) (HourglassShape.base_height h)
                   (HourglassShape.x h) (HourglassShape.y h)
                   (HourglassShape.width h) (HourglassShape.height h)
                   (HourglassShape.angle h)))
  | Lin l =>
      bx1 <- py_div (LineShape.x1 l) z ;;
      by1 <- py_div (LineShape.y1 l) z ;;
      bx2 <- py_div (LineShape.x2 l) z ;;
      by2 <- py_div (LineShape.y2 l) z ;;
      Val (Lin (LineShape.mk bx1 by1 bx2 by2
                  (LineShape.x1 l) (LineShape.y1 l)
                  (LineShape.x2 l) (LineShape.y2 l)))
  | Txt t =>
      bx <- py_div (TextShape.x t) z ;;
      by_ <- py_div (TextShape.y t) z ;;
      Val (Txt (TextShape.mk bx by_ (TextShape.base_font_size t)
                  (TextShape.x t) (TextShape.y t)
                  (TextShape.text t) (TextShape.font_size t)
                  (TextShape.angle t) (TextShape.bbox t)))
  end.

(** [shp.x], [shp.y]: a line has neither. *)
Definition attr_x (b : Body) : Fallible R :=
  match b with
  | Rect r => Val (RectangleShape.x r)
  | Circ c => Val (CircleShape.x c)
  | Hour h => Val (HourglassShape.x h)
  | Lin _ => Exc (AttributeError "x")
  | Txt t => Val (TextShape.x t)
  end.

Definition attr_y (b : Body) : Fallible R :=
  match b with
  | Rect r => Val (RectangleShape.y r)
  | Circ c => Val (CircleShape.y c)
  | Hour h => Val (HourglassShape.y h)
  | Lin _ => Exc (AttributeError "y")
  | Txt t => Val (TextShape.y t)
  end.

(** [shp.angle]: a line has none, a circle has none until one is assigned. *)
Definition attr_angle (b : Body) : Fallible R :=
  match b with
  | Rect r => Val (RectangleShape.angle r)
  | Circ c =>
      match CircleShape.angle c with
      | Some v => Val v
      | None => Exc (AttributeError "angle")
      end
  | Hour h => Val (HourglassShape.angle h)
  | Lin _ => Exc (AttributeError "angle")
  | Txt t => Val (TextShape.angle t)
  end.

(** [shp.angle = v]; the rotation handler never assigns a line's. *)
Definition set_angle (v : R) (b : Body) : Body :=
  match b with
  | Rect r =>
      Rect (RectangleShape.mk
              (RectangleShape.base_x r) (RectangleShape.base_y r)
              (RectangleShape.base_width r) (RectangleShape.base_height r)
              (RectangleShape.x r) (RectangleShape.y r)
              (RectangleShape.width r) (RectangleShape.height r) v)
  | Circ c =>
      Circ (CircleShape.mk
              (CircleShape.base_x c) (CircleShape.base_y c)
              (CircleShape.base_radius c)
              (CircleShape.x c) (CircleShape.y c)
              (CircleShape.radius c) (Some v))
  | Hour h =>
      Hour (HourglassShape.mk
              (HourglassShape.base_x h) (HourglassShape.base_y h)
              (HourglassShape.base_width h) (HourglassShape.base_height h)
              (HourglassShape.x h) (HourglassShape.y h)
              (HourglassShape.width h) (HourglassShape.height h) v)
  | Lin l => Lin l
  | Txt t =>
      Txt (TextShape.mk
             (TextShape.base_x t) (TextShape.base_y t)
             (TextShape.base_font_size t) (TextShape.x t) (TextShape.y t)
             (TextShape.text t) (TextShape.font_size t) v (TextShape.bbox t))
  end.

(** The displayed attributes recomputed from the base ones, as the
    [isinstance] chain of [apply_zoom]. *)
Definition zoom_body (z : R) (b : Body) : Body :=
  match b with
  | Rect r =>
      Rect (RectangleShape.mk
              (RectangleShape.base_x r) (RectangleShape.base_y r)
              (RectangleShape.base_width r) (RectangleShape.base_height r)
              (RectangleShape.base_x r * z) (RectangleShape.base_y r * z)
              (RectangleShape.base_width r * z)
              (RectangleShape.base_height r * z)
              (RectangleShape.angle r))
  | Circ c =>
      Circ (CircleShape.mk
              (CircleShape.base_x c) (CircleShape.base_y c)
              (CircleShape.base_radius c)
              (CircleShape.base_x c * z) (CircleShape.base_y c * z)
              (CircleShape.base_radius c * z) (CircleShape.angle c))
  | Hour h =>
      Hour (HourglassShape.mk
              (HourglassShape.base_x h) (HourglassShape.base_y h)
              (HourglassShape.base_width h) (HourglassShape.base_height h)
              (HourglassShape.base_x h * z) (HourglassShape.base_y h * z)
              (HourglassShape.base_width h * z)
              (HourglassShape.base_height h * z)
              (HourglassShape.angle h))
  | Lin l =>
      Lin (LineShape.mk
             (LineShape.base_x1 l) (LineShape.base_y1 l)
             (LineShape.base_x2 l) (LineShape.base_y2 l)
             (LineShape.base_x1 l * z) (LineShape.base_y1 l * z)
             (LineShape.base_x2 l * z) (LineShape.base_y2 l * z))
  | Txt t =>
      Txt (TextShape.mk
             (TextShape.base_x t) (TextShape.base_y t)
             (TextShape.base_font_size t)
             (TextShape.base_x t * z) (TextShape.base_y t * z)
             (TextShape.text t)
             (py_int (TextShape.base_font_size t * z))
             (TextShape.angle t) (TextShape.bbox t))
  end.

(** ** The application object *)

Inductive Tool : Type :=
| ToolSelect | ToolRectangle | ToolCircle | ToolHourglass | ToolLine | ToolText.

Inductive Mode : Type := Idle | Create | Move | Resizing | Rotating | Edit.

Definition Mode_eqb (m1 m2 : Mode) : bool :=
  match m1, m2 with
  | Idle, Idle | Create, Create | Move, Move
  | Resizing, Resizing | Rotating, Rotating | Edit, Edit => true
  | _, _ => false
  end.

(** [self.drag_data], one optional field for each key the program uses. *)
Record DragData : Type := mkDrag {
  d_x : option R;
  d_y : option R;
  d_handle : option string;
  d_init_x : option R;
  d_init_y : option R;
  d_init_font_size : option Z;
  d_init_rotate_angle : option R;
  d_init_shape_angle : option R
}.

Definition no_drag : DragData := mkDrag None None None None None None None None.

(** [self.drag_data = {"x": cx, "y": cy}] *)
Definition drag_at (cx cy : R) : DragData :=
  mkDrag (Some cx) (Some cy) None None None None None None.

(** [self.drag_data["x"] = cx; self.drag_data["y"] = cy] *)
Definition set_d_xy (cx cy : R) (d : DragData) : DragData :=
  mkDrag (Some cx) (Some cy) (d_handle d) (d_init_x d) (d_init_y d)
         (d_init_font_size d) (d_init_rotate_angle d) (d_init_shape_angle d).

Definition set_d_handle (h : string) (d : DragData) : DragData :=
  mkDrag (d_x d) (d_y d) (Some h) (d_init_x d) (d_init_y d)
         (d_init_font_size d) (d_init_rotate_angle d) (d_init_shape_angle d).

Definition set_d_text_init (cx cy : R) (fs : Z) (d : DragData) : DragData :=
  mkDrag (d_x d) (d_y d) (d_handle d) (Some cx) (Some cy) (Some fs)
         (d_init_rotate_angle d) (d_init_shape_angle d).

Definition set_d_init_rotate_angle (v : R) (d : DragData) : DragData :=
  mkDrag (d_x d) (d_y d) (d_handle d) (d_init_x d) (d_init_y d)
         (d_init_font_size d) (Some v) (d_init_shape_angle d).

Definition set_d_init_shape_angle (v : R) (d : DragData) : DragData :=
  mkDrag (d_x d) (d_y d) (d_handle d) (d_init_x d) (d_init_y d)
         (d_init_font_size d) (d_init_rotate_angle d) (Some v).

(** [del self.drag_data[key]] for the two rotation keys. *)
Definition clear_d_rotation (d : DragData) : DragData :=
  mkDrag (d_x d) (d_y d) (d_handle d) (d_init_x d) (d_init_y d)
         (d_init_font_size d) None None.

(** The zoom constants set in [App.__init__]. *)
Definition zoom_step : R := 0.1.
Definition min_zoom : R := 0.1.
Definition max_zoom : R := 5.0.

(** The fields of [App] that the shell (menus, toolbar, status bar) does not
    own.  [heap] holds every shape object ever made; [shapes],
    [selected_shape] and [current_shape] refer to them by identity. *)
Record App : Type := mkApp {
  canvas : Canvas.t;
  heap : list Shape.t;
  shapes : list nat;
  selected_shape : option nat;
  current_tool : Tool;
  current_shape : option nat;
  mode : Mode;
  drag_data : DragData;
  zoom_level : R;
  original_image : option (Z * Z);
  image_item : option nat;
  base_canvas_width : Z;
  base_canvas_height : Z;
  canvas_width : Z;
  canvas_height : Z
}.

Definition set_canvas (v : Canvas.t) (a : App) : App :=
  mkApp v (heap a) (shapes a) (selected_shape a) (current_tool a)
        (current_shape a) (mode a) (drag_data a) (zoom_level a)
        (original_image a) (image_item a) (base_canvas_width a)
        (base_canvas_height a) (canvas_width a) (canvas_height a).

Definition set_heap (v : list Shape.t) (a : App) : App :=
  mkApp (canvas a) v (shapes a) (selected_shape a) (current_tool a)
        (current_shape a) (mode a) (drag_data a) (zoom_level a)
        (original_image a) (image_item a) (base_canvas_width a)
        (base_canvas_height a) (canvas_width a) (canvas_height a).

Definition set_shapes (v : list nat) (a : App) : App :=
  mkApp (canvas a) (heap a) v (selected_shape a) (current_tool a)
        (current_shape a) (mode a) (drag_data a) (zoom_level a)
        (original_image a) (image_item a) (base_canvas_width a)
        (base_canvas_height a) (canvas_width a) (canvas_height a).

Definition set_selected_shape (v : option nat) (a : App) : App :=
  mkApp (canvas a) (heap a) (shapes a) v (current_tool a)
        (current_shape a) (mode a) (drag_data a) (zoom_level a)
        (original_image a) (image_item a) (base_canvas_width a)
        (base_canvas_height a) (canvas_width a) (canvas_height a).

Definition set_current_tool (v : Tool) (a : App) : App :=
  mkApp (canvas a) (heap a) (shapes a) (selected_shape a) v
        (current_shape a) (mode a) (drag_data a) (zoom_level a)
        (original_image a) (image_item a) (base_canvas_width a)
        (base_canvas_height a) (canvas_width a) (canvas_height a).

Definition set_current_shape (v : option nat) (a : App) : App :=
  mkApp (canvas a) (heap a) (shapes a) (selected_shape a) (current_tool a)
        v (mode a) (drag_data a) (zoom_level a)
        (original_image a) (image_item a) (base_canvas_width a)
        (base_canvas_height a) (canvas_width a) (canvas_height a).

Definition set_mode (v : Mode) (a : App) : App :=
  mkApp (canvas a) (heap a) (shapes a) (selected_shape a) (current_tool a)
        (current_shape a) v (drag_data a) (zoom_level a)
        (original_image a) (image_item a) (base_canvas_width a)
        (base_canvas_height a) (canvas_width a) (canvas_height a).

Definition set_drag_data (v : DragData) (a : App) : App :=
  mkApp (canvas a) (heap a) (shapes a) (selected_shape a) (current_tool a)
        (current_shape a) (mode a) v (zoom_level a)
        (original_image a) (image_item a) (base_canvas_width a)
        (base_canvas_height a) (canvas_width a) (canvas_height a).

Definition set_zoom_level (v : R) (a : App) : App :=
  mkApp (canvas a) (heap a) (shapes a) (selected_shape a) (current_tool a)
        (current_shape a) (mode a) (drag_data a) v
        (original_image a) (image_item a) (base_canvas_width a)
        (base_canvas_height a) (canvas_width a) (canvas_height a).

Definition set_image_item (v : option nat) (a : App) : App :=
  mkApp (canvas a) (heap a) (shapes a) (selected_shape a) (current_tool a)
        (current_shape a) (mode a) (drag_data a) (zoom_level a)
        (original_image a) v (base_canvas_width a)
        (base_canvas_height a) (canvas_width a) (canvas_height a).

Definition set_canvas_size (w h : Z) (a : App) : App :=
  mkApp (canvas a) (heap a) (shapes a) (selected_shape a) (current_tool a)
        (current_shape a) (mode a) (drag_data a) (zoom_level a)
        (original_image a) (image_item a) (base_canvas_width a)
        (base_canvas_height a) w h.

(** [App.__init__]: [img] is the size of the default background image when
    [load_default_image] finds one, [m] the text metrics of the host. *)
Definition initial (img : option (Z * Z))
    (m : R -> R -> string -> Z -> option BBox) : App :=
  match img with
  | None =>
      mkApp (Canvas.empty m) [] [] None ToolSelect None Idle no_drag 1.0
            None None 800 600 800 600
  | Some (w, h) =>
      let (id, c) := Canvas.create (Canvas.Image w h) (Canvas.empty m) in
      mkApp (Canvas.tag_lower id c) [] [] None ToolSelect None Idle no_drag 1.0
            (Some (w, h)) (Some id) w h w h
  end.

(** *** The object heap *)

Definition deref (a : App) (id : nat) : option Shape.t := nth_error (heap a) id.

Fixpoint list_set {A : Type} (i : nat) (v : A) (l : list A) : list A :=
  match l, i with
  | [], _ => []
  | _ :: l', O => v :: l'
  | w :: l', S i' => w :: list_set i' v l'
  end.

Definition store (id : nat) (s : Shape.t) (a : App) : App :=
  set_heap (list_set id s (heap a)) a.

Definition alloc (s : Shape.t) (a : App) : nat * App :=
  (List.length (heap a), set_heap (heap a ++ [s]) a).

(** A method call [obj.m(self.canvas)] on the object [id]. *)
Definition call (id : nat) (m : Shape.t -> Canvas.t -> Shape.t * Canvas.t)
    (a : App) : App :=
  match deref a id with
  | Some s => let (s', c') := m s (canvas a) in set_canvas c' (store id s' a)
  | None => a
  end.

Inductive Outcome : Type :=
| Done (a : App)
| Raised (e : exn) (a : App).

Definition state_of (o : Outcome) : App :=
  match o with
  | Done a => a
  | Raised _ a => a
  end.

(** ** Selection *)

Definition deselect_all (a : App) : App :=
  set_selected_shape None
    (match selected_shape a with
     | Some id => call id Shape.deselect a
     | None => a
     end).

Definition raise_all (hs : list (string * nat)) (c : Canvas.t) : Canvas.t :=
  fold_left (fun c' h => Canvas.tag_raise (snd h) c') hs c.

Definition select_shape (id : nat) (a : App) : App :=
  let a1 := call id Shape.select (set_selected_shape (Some id) (deselect_all a)) in
  match deref a1 id with
  | Some shp =>
      match Shape.item_truthy shp with
      | Some it =>
          set_canvas (raise_all (Shape.handles shp)
                                (Canvas.tag_raise it (canvas a1))) a1
      | None => a1
      end
  | None => a1
  end.

(** [edit_text_shape]: only a selected text shape opens the dialog. *)
Definition edit_text_shape (dlg : option string) (a : App) : App :=
  match selected_shape a with
  | Some id =>
      match deref a id with
      | Some shp =>
          match Shape.body shp with
          | Txt _ =>
              call id Shape.draw_handles
                (call id Shape.draw (store id (Shape.edit_text dlg shp) a))
          | _ => a
          end
      | None => a
      end
  | None => a
  end.

Fixpoint remove_first (id : nat) (l : list nat) : list nat :=
  match l with
  | [] => []
  | i :: l' => if Nat.eqb i id then l' else i :: remove_first id l'
  end.

Definition delete_selected_shape (a : App) : App :=
  match selected_shape a with
  | Some id =>
      match deref a id with
      | Some shp =>
          let a1 := set_canvas (Canvas.delete_opt (Shape.item shp) (canvas a)) a in
          let a2 := call id Shape.delete_handles a1 in
          set_selected_shape None (set_shapes (remove_first id (shapes a2)) a2)
      | None => a
      end
  | None => a
  end.

(** The tool setters: [set_select_tool], [set_rectangle_tool], ... *)
Definition set_tool (t : Tool) (a : App) : App :=
  set_mode Idle (deselect_all (set_current_tool t a)).

(** ** Zoom *)

Definition zoom_shape (z : R) (a : App) (id : nat) : App :=
  match deref a id with
  | Some shp =>
      let shp1 := Shape.set_body (zoom_body z (Shape.body shp)) shp in
      let (shp2, c2) :=
        match Shape.item_truthy shp1 with
        | Some it => (Shape.set_item None shp1, Canvas.delete it (canvas a))
        | None => (shp1, canvas a)
        end in
      let (shp3, c3) := Shape.draw shp2 c2 in
      let (shp4, c4) :=
        if Shape.selected shp3 then Shape.draw_handles shp3 c3 else (shp3, c3) in
      set_canvas c4 (store id shp4 a)
  | None => a
  end.

Definition apply_zoom (a : App) : App :=
  let a1 :=
    match original_image a with
    | Some (w, h) =>
        let new_w := py_int (IZR w * zoom_level a) in
        let new_h := py_int (IZR h * zoom_level a) in
        let c1 := Canvas.delete_opt
                    (match image_item a with
                     | Some (S n) => Some (S n)
                     | _ => None
                     end) (canvas a) in
        let (id, c2) := Canvas.create (Canvas.Image new_w new_h) c1 in
        set_image_item (Some id) (set_canvas (Canvas.tag_lower id c2) a)
    | None => a
    end in
  let new_w := Z.max 800 (py_int (IZR (base_canvas_width a1) * zoom_level a1)) in
  let new_h := Z.max 600 (py_int (IZR (base_canvas_height a1) * zoom_level a1)) in
  let a2 := set_canvas_size new_w new_h a1 in
  fold_left (zoom_shape (zoom_level a2)) (shapes a2) a2.

Definition zoom_in (a : App) : App :=
  if Rltb (zoom_level a) max_zoom
  then apply_zoom (set_zoom_level (zoom_level a + zoom_step) a)
  else a.

Definition zoom_out (a : App) : App :=
  if Rltb min_zoom (zoom_level a)
  then apply_zoom (set_zoom_level (zoom_level a - zoom_step) a)
  else a.

Definition reset_zoom (a : App) : App :=
  apply_zoom (set_zoom_level 1.0 a).

(** ** Loading an image *)

(** One turn of the loop of [load_image] over [self.shapes]: the shape is
    drawn anew, with its handles if it is selected. *)
Definition reload_shape (a : App) (id : nat) : App :=
  match deref a id with
  | Some shp =>
      let (shp2, c2) :=
        match Shape.item_truthy shp with
        | Some it => (Shape.set_item None shp, Canvas.delete it (canvas a))
        | None => (shp, canvas a)
        end in
      let (shp3, c3) := Shape.draw shp2 c2 in
      let (shp4, c4) :=
        if Shape.selected shp3 then Shape.draw_handles shp3 c3 else (shp3, c3) in
      set_canvas c4 (store id shp4 a)
  | None => a
  end.

(** [load_image]: [picked] is the size of the image chosen in the file
    dialog, [None] if the dialog is cancelled. *)
Definition load_image (picked : option (Z * Z)) (a : App) : App :=
  match picked with
  | None => a
  | Some (w, h) =>
      let c1 := Canvas.delete_opt
                  (match image_item a with
                   | Some (S n) => Some (S n)
                   | _ => None
                   end) (canvas a) in
      let (id, c2) := Canvas.create (Canvas.Image w h) c1 in
      let a1 := mkApp (Canvas.tag_lower id c2) (heap a) (shapes a)
                      (selected_shape a) (current_tool a) (current_shape a)
                      (mode a) (drag_data a) 1.0 (Some (w, h)) (Some id)
                      w h w h in
      fold_left reload_shape (shapes a1) a1
  end.

(** ** Pointer events *)

Definition hit_handle (c : Canvas.t) (cx cy : R) (hid : nat) : bool :=
  match Canvas.bbox hid c with
  | Some bb => in_bbox bb cx cy
  | None => false
  end.

Definition is_resize_handle (hname : string) : bool :=
  String.eqb hname "resize" || String.eqb hname "end1" || String.eqb hname "end2".

(** The loop over [self.selected_shape.handles.items()]; [Some] is the state
    at the [return]. *)
Fixpoint click_handles (hs : list (string * nat)) (shp : Shape.t) (cx cy : R)
    (a : App) : option App :=
  match hs with
  | [] => None
  | (hname, hid) :: hs' =>
      if hit_handle (canvas a) cx cy hid then
        if is_resize_handle hname then
          let d := set_d_handle hname (drag_data a) in
          let d' :=
            match Shape.body shp with
            | Txt t =>
                if String.eqb hname "resize"
                then set_d_text_init cx cy (TextShape.font_size t) d
                else d
            | _ => d
            end in
          Some (set_drag_data d' (set_mode Resizing a))
        else if String.eqb hname "rotate" then Some (set_mode Rotating a)
        else click_handles hs' shp cx cy a
      else click_handles hs' shp cx cy a
  end.

(** The loop [for s in reversed(self.shapes)], given the reversed list. *)
Fixpoint find_shape (ids : list nat) (cx cy : R) (a : App)
  : Fallible (option nat) :=
  match ids with
  | [] => Val None
  | id :: ids' =>
      match deref a id with
      | Some s =>
          b <- Shape.contains_point s cx cy ;;
          if b then Val (Some id) else find_shape ids' cx cy a
      | None => find_shape ids' cx cy a
      end
  end.

Definition is_drawing_tool (t : Tool) : bool :=
  match t with
  | ToolSelect => false
  | _ => true
  end.

Definition new_shape (t : Tool) (cx cy : R) : Shape.t :=
  Shape.init
    match t with
    | ToolRectangle => Rect (RectangleShape.init cx cy 100 60 0)
    | ToolCircle => Circ (CircleShape.init cx cy 50)
    | ToolHourglass => Hour (HourglassShape.init cx cy 60 40 0)
    | ToolLine => Lin (LineShape.init cx cy (cx + 50) cy)
    | _ => Txt (TextShape.init cx cy "" 20)
    end.

(** The first block of [on_canvas_click]: the handles of the selected
    shape; [Some] is the state at its [return]. *)
Definition click_selected_handles (cx cy : R) (a : App) : option App :=
  match selected_shape a with
  | Some id =>
      match deref a id with
      | Some shp => click_handles (Shape.handles shp) shp cx cy a
      | None => None
      end
  | None => None
  end.

(** The block that creates a shape with the current drawing tool. *)
Definition create_shape_at (cx cy : R) (a : App) : App :=
  let (id, a1) :=
    alloc (new_shape (current_tool a) cx cy) (set_mode Create a) in
  let a2 := set_shapes (shapes a1 ++ [id])
                       (set_current_shape (Some id) a1) in
  set_drag_data (drag_at cx cy) (call id Shape.draw a2).

Definition on_canvas_click (cx cy : R) (a : App) : Outcome :=
  match click_selected_handles cx cy a with
  | Some a' => Done a'
  | None =>
      match find_shape (rev (shapes a)) cx cy a with
      | Exc e => Raised e a
      | Val (Some id) =>
          Done (set_drag_data (drag_at cx cy) (set_mode Move (select_shape id a)))
      | Val None =>
          if Mode_eqb (mode a) Edit then
            Done (set_mode Idle (deselect_all a))
          else if is_drawing_tool (current_tool a) && Mode_eqb (mode a) Idle then
            Done (create_shape_at cx cy a)
          else
            match current_tool a with
            | ToolSelect => Done (set_mode Idle (deselect_all a))
            | _ => Done a
            end
      end
  end.

(** [shp.draw(self.canvas); shp.draw_handles(self.canvas)] *)
Definition redraw (id : nat) (a : App) : App :=
  call id Shape.draw_handles (call id Shape.draw a).

Definition getd (v : option R) (default : R) : R :=
  match v with
  | Some r => r
  | None => default
  end.

(** The branch [self.mode in ["create", "move"]]. *)
Definition drag_move (id : nat) (shp : Shape.t) (dx dy cx cy : R) (a : App)
  : Outcome :=
  let b1 := translate dx dy (Shape.body shp) in
  match rebase_position (zoom_level a) b1 with
  | Exc e => Raised e (store id (Shape.set_body b1 shp) a)
  | Val b2 =>
      let a1 := store id (Shape.set_body b2 shp) a in
      let a2 := set_drag_data (set_d_xy cx cy (drag_data a1)) a1 in
      Done (set_drag_data (set_d_xy cx cy (drag_data a2)) (redraw id a2))
  end.

(** [max(10, abs(local) * 2)] on each axis, the pointer offset being
    rotated by [-angle] into the frame of the shape. *)
Definition resized_extent (x y angle cx cy : R) : R * R :=
  let rad := radians (- angle) in
  let dxr := cx - x in
  let dyr := cy - y in
  let local_x := dxr * cos rad - dyr * sin rad in
  let local_y := dxr * sin rad + dyr * cos rad in
  (Rmax 10 (Rabs local_x * 2), Rmax 10 (Rabs local_y * 2)).

(** The new font size of a text shape, when the three keys stored at the
    click are in [drag_data]. *)
Definition resized_font (t : TextShape.t) (cx cy : R) (d : DragData) : option Z :=
  match d_init_x d, d_init_y d, d_init_font_size d with
  | Some ix, Some iy, Some ifs =>
      let init_distance := hypot (ix - TextShape.x t) (iy - TextShape.y t) in
      let current_distance := hypot (cx - TextShape.x t) (cy - TextShape.y t) in
      let init_distance := if Reqb init_distance 0 then 1 else init_distance in
      let ratio := current_distance / init_distance in
      Some (Z.max 8 (py_int (IZR ifs * ratio)))
  | _, _, _ => None
  end.

(** The assignments to the displayed attributes in the branch
    [self.mode == "resizing"]. *)
Definition resize_displayed (hname : string) (cx cy : R) (d : DragData)
    (b : Body) : Body :=
  match b with
  | Rect r =>
      if String.eqb hname "resize" then
        let wh := resized_extent (RectangleShape.x r) (RectangleShape.y r)
                                 (RectangleShape.angle r) cx cy in
        Rect (RectangleShape.mk
                (RectangleShape.base_x r) (RectangleShape.base_y r)
                (RectangleShape.base_width r) (RectangleShape.base_height r)
                (RectangleShape.x r) (RectangleShape.y r)
                (fst wh) (snd wh) (RectangleShape.angle r))
      else b
  | Circ c =>
      if String.eqb hname "resize" then
        let r := hypot (cx - CircleShape.x c) (cy - CircleShape.y c) in
        Circ (CircleShape.mk
                (CircleShape.base_x c) (CircleShape.base_y c)
                (CircleShape.base_radius c) (CircleShape.x c) (CircleShape.y c)
                (Rmax 10 r) (CircleShape.angle c))
      else b
  | Hour h =>
      if String.eqb hname "resize" then
        let wh := resized_extent (HourglassShape.x h) (HourglassShape.y h)
                                 (HourglassShape.angle h) cx cy in
        Hour (HourglassShape.mk
                (HourglassShape.base_x h) (HourglassShape.base_y h)
                (HourglassShape.base_width h) (HourglassShape.base_height h)
                (HourglassShape.x h) (HourglassShape.y h)
                (fst wh) (snd wh) (HourglassShape.angle h))
      else b
  | Lin l =>
      if String.eqb hname "end1" then
        Lin (LineShape.mk
               (LineShape.base_x1 l) (LineShape.base_y1 l)
               (LineShape.base_x2 l) (LineShape.base_y2 l)
               cx cy (LineShape.x2 l) (LineShape.y2 l))
      else
        Lin (LineShape.mk
               (LineShape.base_x1 l) (LineShape.base_y1 l)
               (LineShape.base_x2 l) (LineShape.base_y2 l)
               (LineShape.x1 l) (LineShape.y1 l) cx cy)
  | Txt t =>
      if String.eqb hname "resize" then
        match resized_font t cx cy d with
        | Some fs =>
            Txt (TextShape.mk
                   (TextShape.base_x t) (TextShape.base_y t)
                   (TextShape.base_font_size t) (TextShape.x t) (TextShape.y t)
                   (TextShape.text t) fs (TextShape.angle t) (TextShape.bbox t))
        | None => b
        end
      else b
  end.

(** The assignments to the base attributes that follow, each a division by
    the zoom level. *)
Definition resize_base (hname : string) (cx cy : R) (d : DragData) (z : R)
    (b : Body) : Fallible Body :=
  match b with
  | Rect r =>
      if String.eqb hname "resize" then
        bw <- py_div (RectangleShape.width r) z ;;
        bh <- py_div (RectangleShape.height r) z ;;
        Val (Rect (RectangleShape.mk
                     (RectangleShape.base_x r) (RectangleShape.base_y r) bw bh
                     (RectangleShape.x r) (RectangleShape.y r)
                     (RectangleShape.width r) (RectangleShape.height r)
                     (RectangleShape.angle r)))
      else Val b
  | Circ c =>
      if String.eqb hname "resize" then
        br <- py_div (CircleShape.radius c) z ;;
        Val (Circ (CircleShape.mk
                     (CircleShape.base_x c) (CircleShape.base_y c) br
                     (CircleShape.x c) (CircleShape.y c)
                     (CircleShape.radius c) (CircleShape.angle c)))
      else Val b
  | Hour h =>
      if String.eqb hname "resize" then
        bw <- py_div (HourglassShape.width h) z ;;
        bh <- py_div (HourglassShape.height h) z ;;
        Val (Hour (HourglassShape.mk
                     (HourglassShape.base_x h) (HourglassShape.base_y h) bw bh
                     (HourglassShape.x h) (HourglassShape.y h)
                     (HourglassShape.width h) (HourglassShape.height h)
                     (HourglassShape.angle h)))
      else Val b
  | Lin l =>
      bx <- py_div cx z ;;
      by_ <- py_div cy z ;;
      if String.eqb hname "end1" then
        Val (Lin (LineShape.mk bx by_
                    (LineShape.base_x2 l) (LineShape.base_y2 l)
                    (LineShape.x1 l) (LineShape.y1 l)
                    (LineShape.x2 l) (LineShape.y2 l)))
      else
        Val (Lin (LineShape.mk
                    (LineShape.base_x1 l) (LineShape.base_y1 l) bx by_
                    (LineShape.x1 l) (LineShape.y1 l)
                    (LineShape.x2 l) (LineShape.y2 l)))
  | Txt t =>
      if String.eqb hname "resize" then
        match d_init_x d, d_init_y d, d_init_font_size d with
        | Some _, Some _, Some _ =>
            bfs <- py_div (IZR (TextShape.font_size t)) z ;;
            Val (Txt (TextShape.mk
                        (TextShape.base_x t) (TextShape.base_y t) bfs
                        (TextShape.x t) (TextShape.y t) (TextShape.text t)
                        (TextShape.font_size t) (TextShape.angle t)
                        (TextShape.bbox t)))
        | _, _, _ => Val b
        end
      else Val b
  end.

(** The branch [self.mode == "resizing"]. *)
Definition drag_resize (id : nat) (shp : Shape.t) (cx cy : R) (a : App)
  : Outcome :=
  let hname := match d_handle (drag_data a) with
               | Some h => h
               | None => ""
               end in
  let b1 := resize_displayed hname cx cy (drag_data a) (Shape.body shp) in
  match resize_base hname cx cy (drag_data a) (zoom_level a) b1 with
  | Exc e => Raised e (store id (Shape.set_body b1 shp) a)
  | Val b2 =>
      let a1 := redraw id (store id (Shape.set_body b2 shp) a) in
      Done (set_drag_data (set_d_xy cx cy (drag_data a1)) a1)
  end.

(** [math.degrees(math.atan2(cy - shp.y, cx - shp.x))] *)
Definition bearing (b : Body) (cx cy : R) : Fallible R :=
  y <- attr_y b ;;
  x <- attr_x b ;;
  Val (degrees (atan2 (cy - y) (cx - x))).

(** The branch [self.mode == "rotating"]. *)
Definition drag_rotate (id : nat) (shp : Shape.t) (cx cy : R) (a : App)
  : Outcome :=
  match Shape.body shp with
  | Txt _ => Done (set_drag_data (set_d_xy cx cy (drag_data a)) a)
  | b =>
      let recorded : Outcome :=
        match d_init_rotate_angle (drag_data a) with
        | Some _ => Done a
        | None =>
            match bearing b cx cy with
            | Exc e => Raised e a
            | Val v =>
                let a1 := set_drag_data
                            (set_d_init_rotate_angle v (drag_data a)) a in
                match attr_angle b with
                | Exc e => Raised e a1
                | Val ang =>
                    Done (set_drag_data
                            (set_d_init_shape_angle ang (drag_data a1)) a1)
                end
            end
        end in
      match recorded with
      | Raised e a' => Raised e a'
      | Done a1 =>
          match bearing b cx cy with
          | Exc e => Raised e a1
          | Val current_mouse_angle =>
              match d_init_rotate_angle (drag_data a1) with
              | None => Raised (KeyError "init_rotate_angle") a1
              | Some init_rotate_angle =>
                  let delta_angle := current_mouse_angle - init_rotate_angle in
                  match d_init_shape_angle (drag_data a1) with
                  | None => Raised (KeyError "init_shape_angle") a1
                  | Some init_shape_angle =>
                      let b' := set_angle
                                  (py_mod (init_shape_angle + delta_angle) 360)
                                  b in
                      let a2 := redraw id (store id (Shape.set_body b' shp) a1) in
                      Done (set_drag_data (set_d_xy cx cy (drag_data a2)) a2)
                  end
              end
          end
      end
  end.

Definition on_canvas_drag (cx cy : R) (a : App) : Outcome :=
  match selected_shape a with
  | None => Done a
  | Some id =>
      match deref a id with
      | None => Done a
      | Some shp =>
          let dx := cx - getd (d_x (drag_data a)) cx in
          let dy := cy - getd (d_y (drag_data a)) cy in
          match mode a with
          | Create | Move => drag_move id shp dx dy cx cy a
          | Resizing => drag_resize id shp cx cy a
          | Rotating => drag_rotate id shp cx cy a
          | _ => Done (set_drag_data (set_d_xy cx cy (drag_data a)) a)
          end
      end
  end.

(** [dlg] is what the text dialog returns if this release opens it. *)
Definition on_canvas_release (dlg : option string) (a : App) : App :=
  let a0 := set_drag_data (clear_d_rotation (drag_data a)) a in
  match mode a0, current_shape a0 with
  | Create, Some id =>
      let a1 := set_mode Edit (select_shape id a0) in
      let a2 :=
        match current_tool a1 with
        | ToolText =>
            match deref a1 id with
            | Some shp => redraw id (store id (Shape.edit_text dlg shp) a1)
            | None => a1
            end
        | _ => a1
        end in
      set_current_shape None a2
  | _, _ =>
      match selected_shape a0 with
      | Some _ => set_mode Edit a0
      | None => set_mode Idle a0
      end
  end.

(** The loop of [on_double_click] over [self.shapes], first match only. *)
Fixpoint double_click_loop (ids : list nat) (cx cy : R) (dlg : option string)
    (a : App) : App :=
  match ids with
  | [] => a
  | id :: ids' =>
      match deref a id with
      | Some shp =>
          match Shape.body shp with
          | Txt t =>
              if TextShape.contains_point t cx cy then
                edit_text_shape dlg
                  (call id Shape.select
                     (set_selected_shape (Some id) (deselect_all a)))
              else double_click_loop ids' cx cy dlg a
          | _ => double_click_loop ids' cx cy dlg a
          end
      | None => double_click_loop ids' cx cy dlg a
      end
  end.

Definition on_double_click (cx cy : R) (dlg : option string) (a : App) : App :=
  double_click_loop (shapes a) cx cy dlg a.

(** ** The event loop *)

Inductive Event : Type :=
| Click (x y : R)
| Drag (x y : R)
| Release (dlg : option string)
| DoubleClick (x y : R) (dlg : option string)
| DeleteKey
| SetTool (t : Tool)
| ZoomIn
| ZoomOut
| ResetZoom
| EditTextButton (dlg : option string).

Definition handle (ev : Event) (a : App) : Outcome :=
  match ev with
  | Click x y => on_canvas_click x y a
  | Drag x y => on_canvas_drag x y a
  | Release dlg => Done (on_canvas_release dlg a)
  | DoubleClick x y dlg => Done (on_double_click x y dlg a)
  | DeleteKey => Done (delete_selected_shape a)
  | SetTool t => Done (set_tool t a)
  | ZoomIn => Done (zoom_in a)
  | ZoomOut => Done (zoom_out a)
  | ResetZoom => Done (reset_zoom a)
  | EditTextButton dlg => Done (edit_text_shape dlg a)
  end.

(** Tk reports an exception that escapes a handler and goes on with the
    next event. *)
Definition run (evs : list Event) (a : App) : App :=
  fold_left (fun s ev => state_of (handle ev s)) evs a.


(** * Facts *)

(** ** Arithmetic *)

Lemma Rleb_true (a b : R) : a <= b -> Rleb a b = true.
Proof. intros H. unfold Rleb. destruct (Rle_dec a b); [reflexivity | contradiction]. Qed.

Lemma Rleb_false (a b : R) : b < a -> Rleb a b = false.
Proof. intros H. unfold Rleb. destruct (Rle_dec a b); [lra | reflexivity]. Qed.

Lemma Rltb_true (a b : R) : a < b -> Rltb a b = true.
Proof. intros H. unfold Rltb. destruct (Rlt_dec a b); [reflexivity | contradiction]. Qed.

Lemma Rltb_false (a b : R) : b <= a -> Rltb a b = false.
Proof. intros H. unfold Rltb. destruct (Rlt_dec a b); [lra | reflexivity]. Qed.

Lemma Reqb_true (a b : R) : a = b -> Reqb a b = true.
Proof. intros H. unfold Reqb. destruct (Req_dec_T a b); [reflexivity | contradiction]. Qed.

Lemma Reqb_false (a b : R) : a <> b -> Reqb a b = false.
Proof. intros H. unfold Reqb. destruct (Req_dec_T a b); [contradiction | reflexivity]. Qed.

Lemma Rleb_spec (a b : R) : Rleb a b = true <-> a <= b.
Proof.
  unfold Rleb. destruct (Rle_dec a b); split; intros; auto; discriminate.
Qed.

Lemma Rltb_spec (a b : R) : Rltb a b = true <-> a < b.
Proof.
  unfold Rltb. destruct (Rlt_dec a b); split; intros; auto; discriminate.
Qed.

Lemma py_div_ok (a b : R) : b <> 0 -> py_div a b = Val (a / b).
Proof. intros H. unfold py_div. now rewrite Reqb_false. Qed.

Lemma py_div_zero (a : R) : py_div a 0 = Exc ZeroDivisionError.
Proof. unfold py_div. now rewrite Reqb_true. Qed.

(** [int] of a number known to lie in [[z, z+1)], [z] not negative. *)
Lemma py_int_floor (r : R) (z : Z) :
  0 <= r -> IZR z <= r < IZR z + 1 -> py_int r = z.
Proof.
  intros H0 [H1 H2]. unfold py_int. rewrite Rleb_true by assumption.
  symmetry. apply Int_part_spec. lra.
Qed.

Lemma py_int_nonneg (r : R) : 0 <= r -> (0 <= py_int r)%Z.
Proof.
  intros H. unfold py_int. rewrite Rleb_true by assumption.
  destruct (base_Int_part r) as [_ H2].
  assert (Hlt : IZR (-1) < IZR (Int_part r)) by lra.
  apply lt_IZR in Hlt. lia.
Qed.

Lemma radians_0 : radians 0 = 0.
Proof. unfold radians. field. Qed.

Lemma radians_neg_0 : radians (- 0) = 0.
Proof. unfold radians. field. Qed.

Lemma radians_180 : radians 180 = PI.
Proof. unfold radians. field. Qed.


Lemma hypot_nonneg (a b : R) : 0 <= hypot a b.
Proof. unfold hypot. apply sqrt_pos. Qed.


Lemma hypot_sqr (a b : R) : hypot a b * hypot a b = a * a + b * b.
Proof. unfold hypot. apply sqrt_sqrt. nra. Qed.

Lemma hypot_eq_0 (a b : R) : hypot a b = 0 -> a = 0 /\ b = 0.
Proof.
  intros H. pose proof (hypot_sqr a b) as Hs. rewrite H in Hs. split; nra.
Qed.

Lemma hypot_x (a : R) : 0 <= a -> hypot a 0 = a.
Proof.
  intros H. unfold hypot. replace (a * a + 0 * 0) with (a * a) by ring.
  now apply sqrt_square.
Qed.

Lemma hypot_y (b : R) : 0 <= b -> hypot 0 b = b.
Proof.
  intros H. unfold hypot. replace (0 * 0 + b * b) with (b * b) by ring.
  now apply sqrt_square.
Qed.

(** [h <= t] for a distance [h] is a statement about squares. *)
Lemma hypot_le (a b t : R) : 0 <= t -> (hypot a b <= t <-> a * a + b * b <= t * t).
Proof.
  intros Ht. pose proof (hypot_nonneg a b) as Hn.
  pose proof (hypot_sqr a b) as Hs. split; intros H; nra.
Qed.


(** ** The canvas *)

Module CanvasFacts.

(** Every identifier in use is below the next one to be given out. *)
Definition wf (c : Canvas.t) : Prop :=
  Forall (fun p => (fst p < Canvas.next_id c)%nat) (Canvas.items c).

Lemma find_app_fresh (id : nat) (l l' : list (nat * Canvas.Item)) :
  Forall (fun p => fst p <> id) l ->
  find (fun p => Nat.eqb (fst p) id) (l ++ l') =
  find (fun p => Nat.eqb (fst p) id) l'.
Proof.
  induction 1 as [| p l Hp Hl IH]; cbn; [reflexivity |].
  apply Nat.eqb_neq in Hp. rewrite Hp. exact IH.
Qed.

Lemma wf_fresh (c : Canvas.t) (id : nat) :
  wf c -> (Canvas.next_id c <= id)%nat ->
  Forall (fun p => fst p <> id) (Canvas.items c).
Proof.
  unfold wf. intros H Hle. eapply Forall_impl; [| exact H].
  cbn. intros p Hp. lia.
Qed.

Lemma wf_empty m : wf (Canvas.empty m).
Proof. constructor. Qed.

Lemma wf_create (it : Canvas.Item) (c : Canvas.t) :
  wf c -> wf (snd (Canvas.create it c)).
Proof.
  unfold wf. cbn. intros H. apply Forall_app. split.
  - eapply Forall_impl; [| exact H]. cbn. intros. lia.
  - constructor; [cbn; lia | constructor].
Qed.

Lemma wf_delete (id : nat) (c : Canvas.t) : wf c -> wf (Canvas.delete id c).
Proof.
  unfold wf. cbn. intros H. apply Forall_forall. intros p Hp.
  apply filter_In in Hp. destruct Hp as [Hp _].
  rewrite Forall_forall in H. now apply H.
Qed.

Lemma wf_delete_all (hs : list (string * nat)) (c : Canvas.t) :
  wf c -> wf (fold_left (fun c' h => Canvas.delete (snd h) c') hs c).
Proof.
  revert c. induction hs as [| h hs IH]; cbn; intros c H; [exact H |].
  apply IH. now apply wf_delete.
Qed.

Lemma next_id_delete_all (hs : list (string * nat)) (c : Canvas.t) :
  Canvas.next_id (fold_left (fun c' h => Canvas.delete (snd h) c') hs c)
  = Canvas.next_id c.
Proof.
  revert c. induction hs as [| h hs IH]; cbn; intros c; [reflexivity |].
  now rewrite IH.
Qed.

Lemma wf_tag_raise (id : nat) (c : Canvas.t) : wf c -> wf (Canvas.tag_raise id c).
Proof.
  unfold wf. cbn. intros H. rewrite Forall_forall in H.
  apply Forall_forall. intros p Hp. apply in_app_or in Hp.
  destruct Hp as [Hp | Hp]; apply filter_In in Hp; destruct Hp as [Hp _];
    now apply H.
Qed.

Lemma wf_coords (id : nat) (it : Canvas.Item) (c : Canvas.t) :
  wf c -> wf (Canvas.coords id it c).
Proof.
  unfold wf. cbn. intros H. rewrite Forall_forall in H.
  apply Forall_forall. intros p Hp. apply in_map_iff in Hp.
  destruct Hp as [q [Hq Hin]]. specialize (H q Hin).
  destruct (Nat.eqb (fst q) id) eqn:E; subst p; cbn; [| exact H].
  apply Nat.eqb_eq in E. now rewrite <- E.
Qed.

(** The box of a rectangle just created, whatever is created after it. *)
Lemma bbox_created_rectangle (c : Canvas.t) (x1 y1 x2 y2 : R) (st : string)
    (rest : list (nat * Canvas.Item)) m n :
  wf c ->
  Canvas.bbox (Canvas.next_id c)
    (Canvas.mk (Canvas.items c
                ++ (Canvas.next_id c, Canvas.Rectangle x1 y1 x2 y2 st) :: rest)
               n m)
  = Some (x1, y1, x2, y2).
Proof.
  intros H. unfold Canvas.bbox, Canvas.lookup. cbn.
  rewrite find_app_fresh by (apply wf_fresh; [exact H | lia]).
  cbn. now rewrite Nat.eqb_refl.
Qed.

End CanvasFacts.

(** ** Handles of a rectangle (C9) *)

Lemma handle_box_ext (x y x' y' hs : R) :
  x = x' -> y = y' -> handle_box x y hs = handle_box x' y' hs.
Proof. intros -> ->. reflexivity. Qed.

Section RectangleHandles.

Variable r : RectangleShape.t.

Let x := RectangleShape.x r.
Let y := RectangleShape.y r.
Let w := RectangleShape.width r.
Let h := RectangleShape.height r.
Let th := radians (RectangleShape.angle r).

Lemma resize_handle_rotated :
  RectangleShape.resize_handle r
  = handle_box (x + w / 2 * cos th - h / 2 * sin th)
               (y + w / 2 * sin th + h / 2 * cos th) 6.
Proof. reflexivity. Qed.

Lemma rotate_handle_above_top_mid :
  RectangleShape.rotate_handle r
  = handle_box (x + h / 2 * sin th) (y - h / 2 * cos th - 20) 6.
Proof.
  unfold RectangleShape.rotate_handle, RectangleShape.get_corners.
  cbn. fold x y w h th. apply handle_box_ext; field.
Qed.

End RectangleHandles.

(** The position the specification gives to the rotate handle: the local
    point [(0, -h/2 - 20)] rotated with the shape about its center. *)
Definition stated_rotate_handle (r : RectangleShape.t) : BBox :=
  let th := radians (RectangleShape.angle r) in
  let lx := 0 in
  let ly := - (RectangleShape.height r / 2) - 20 in
  handle_box (RectangleShape.x r + lx * cos th - ly * sin th)
             (RectangleShape.y r + lx * sin th + ly * cos th) 6.

(** What [draw_handles] leaves on the canvas for a rectangle. *)
Lemma rectangle_draw_handles (s : Shape.t) (c : Canvas.t) (r : RectangleShape.t) :
  CanvasFacts.wf c -> Shape.body s = Rect r ->
  let n := Canvas.next_id c in
  Shape.handles (fst (Shape.draw_handles s c)) = [("resize", n); ("rotate", S n)]
  /\ Canvas.bbox n (snd (Shape.draw_handles s c))
     = Some (RectangleShape.resize_handle r)
  /\ Canvas.bbox (S n) (snd (Shape.draw_handles s c))
     = Some (RectangleShape.rotate_handle r).
Proof.
  intros Hwf Hb n. unfold Shape.draw_handles. rewrite Hb.
  unfold Shape.delete_handles.
  set (c0 := fold_left (fun c' h => Canvas.delete (snd h) c') (Shape.handles s) c).
  assert (Hwf0 : CanvasFacts.wf c0) by now apply CanvasFacts.wf_delete_all.
  assert (Hn0 : Canvas.next_id c0 = n) by apply CanvasFacts.next_id_delete_all.
  destruct (RectangleShape.resize_handle r) as [[[a1 b1] a2] b2] eqn:E1.
  destruct (RectangleShape.rotate_handle r) as [[[p1 q1] p2] q2] eqn:E2.
  unfold Shape.add_handle. cbn. rewrite Hn0. split; [reflexivity | split].
  - rewrite <- Hn0, <- app_assoc. cbn.
    now apply CanvasFacts.bbox_created_rectangle.
  - pose proof (CanvasFacts.wf_create (Canvas.Rectangle a1 b1 a2 b2 "blue") c0 Hwf0)
      as Hwf1.
    pose proof (CanvasFacts.bbox_created_rectangle
                  (snd (Canvas.create (Canvas.Rectangle a1 b1 a2 b2 "blue") c0))
                  p1 q1 p2 q2 "red" [] (Canvas.measure c0) (S (S n)) Hwf1) as Hb2.
    cbn in Hb2. rewrite Hn0 in Hb2. exact Hb2.
Qed.

(** C9, as amended.  After [draw_handles] a rectangle with center [(x, y)],
    width [w], height [h] and angle [a] has exactly the handles "resize" and
    "rotate".  The resize handle is the square of half side 6 around the
    corner local [(w/2, h/2)] rotated by [a] about the center.  The rotate
    handle is the square of half side 6 around the point 20 units above, in
    canvas coordinates, the rotated middle of the top edge: the middle
    turns with the shape, the offset of 20 does not. *)
Theorem rectangle_handle_positions
    (s : Shape.t) (c : Canvas.t) (r : RectangleShape.t) :
  CanvasFacts.wf c -> Shape.body s = Rect r ->
  let x := RectangleShape.x r in
  let y := RectangleShape.y r in
  let w := RectangleShape.width r in
  let h := RectangleShape.height r in
  let th := radians (RectangleShape.angle r) in
  exists i1 i2 : nat,
    Shape.handles (fst (Shape.draw_handles s c)) = [("resize", i1); ("rotate", i2)]
    /\ Canvas.bbox i1 (snd (Shape.draw_handles s c))
       = Some (handle_box (x + w / 2 * cos th - h / 2 * sin th)
                          (y + w / 2 * sin th + h / 2 * cos th) 6)
    /\ Canvas.bbox i2 (snd (Shape.draw_handles s c))
       = Some (handle_box (x + h / 2 * sin th) (y - h / 2 * cos th - 20) 6).
Proof.
  intros Hwf Hb x y w h th.
  destruct (rectangle_draw_handles s c r Hwf Hb) as [H1 [H2 H3]].
  exists (Canvas.next_id c), (S (Canvas.next_id c)).
  rewrite H1, H2, H3, resize_handle_rotated, rotate_handle_above_top_mid.
  repeat split; reflexivity.
Qed.

Definition no_metrics : R -> R -> string -> Z -> option BBox :=
  fun _ _ _ _ => None.

Lemma rectangle_handle_positions_witness :
  exists i1 i2 : nat,
    let s := Shape.init (Rect (RectangleShape.init 100 100 100 60 0)) in
    let c := Canvas.empty no_metrics in
    Shape.handles (fst (Shape.draw_handles s c)) = [("resize", i1); ("rotate", i2)]
    /\ Canvas.bbox i1 (snd (Shape.draw_handles s c))
       = Some (handle_box (100 + 100 / 2 * cos (radians 0) - 60 / 2 * sin (radians 0))
                          (100 + 100 / 2 * sin (radians 0) + 60 / 2 * cos (radians 0)) 6)
    /\ Canvas.bbox i2 (snd (Shape.draw_handles s c))
       = Some (handle_box (100 + 60 / 2 * sin (radians 0))
                          (100 - 60 / 2 * cos (radians 0) - 20) 6).
Proof.
  apply (rectangle_handle_positions
           (Shape.init (Rect (RectangleShape.init 100 100 100 60 0)))
           (Canvas.empty no_metrics) (RectangleShape.init 100 100 100 60 0)).
  - apply CanvasFacts.wf_empty.
  - reflexivity.
Defined.

(** C9 as stated fails: for the rectangle 100x60 at (100, 100) turned by 180
    degrees the rotate handle is drawn around (100, 110), 20 above the
    rotated top middle (100, 130), and not around (100, 150), the rotated
    image of local (0, -50). *)
Lemma rectangle_rotate_handle_not_rotated :
  let r := RectangleShape.init 100 100 100 60 180 in
  let sc := Shape.draw_handles (Shape.init (Rect r)) (Canvas.empty no_metrics) in
  Shape.handles (fst sc) = [("resize", 1%nat); ("rotate", 2%nat)]
  /\ Canvas.bbox 2 (snd sc) = Some (handle_box 100 110 6)
  /\ stated_rotate_handle r = handle_box 100 150 6
  /\ Canvas.bbox 2 (snd sc) <> Some (stated_rotate_handle r).
Proof.
  intros r sc.
  destruct (rectangle_draw_handles (Shape.init (Rect r)) (Canvas.empty no_metrics) r
              (CanvasFacts.wf_empty _) eq_refl) as [H1 [_ H3]].
  change (Canvas.next_id (Canvas.empty no_metrics)) with 1%nat in H1, H3.
  subst sc.
  assert (Hrot : RectangleShape.rotate_handle r = handle_box 100 110 6).
  { rewrite rotate_handle_above_top_mid. subst r. cbn.
    rewrite radians_180, cos_PI, sin_PI. apply handle_box_ext; lra. }
  assert (Hst : stated_rotate_handle r = handle_box 100 150 6).
  { unfold stated_rotate_handle. subst r. cbn.
    rewrite radians_180, cos_PI, sin_PI. apply handle_box_ext; lra. }
  split; [exact H1 | split; [| split]].
  - rewrite H3. now rewrite Hrot.
  - exact Hst.
  - rewrite H3, Hrot, Hst. unfold handle_box. intros H. inversion H. lra.
Qed.

(** ** Hit test of a line (C7) *)

Section LineHitTest.

Variable l : LineShape.t.
Variables px py : R.

Let ax := px - LineShape.x1 l.
Let ay := py - LineShape.y1 l.
Let dx := LineShape.x2 l - LineShape.x1 l.
Let dy := LineShape.y2 l - LineShape.y1 l.
Let len2 := dx * dx + dy * dy.
Let dot := ax * dx + ay * dy.
Let cross := ax * dy - ay * dx.

Lemma line_len_zero : hypot dx dy = 0 <-> len2 = 0.
Proof.
  unfold len2. split; intros H.
  - apply hypot_eq_0 in H. destruct H as [-> ->]. ring.
  - unfold hypot. rewrite H. apply sqrt_0.
Qed.

(** The squared distance from the point to its projection on the line. *)
Lemma residual_sqr :
  len2 <> 0 ->
  let u := dot / (hypot dx dy * hypot dx dy) in
  (px - (LineShape.x1 l + u * dx)) * (px - (LineShape.x1 l + u * dx))
  + (py - (LineShape.y1 l + u * dy)) * (py - (LineShape.y1 l + u * dy))
  = cross * cross / len2.
Proof.
  intros Hl u. subst u. rewrite hypot_sqr. fold len2.
  unfold cross, dot, ax, ay. unfold len2 in *. field. exact Hl.
Qed.

(** The hit test never divides by zero, and accepts exactly the points
    whose projection falls on the segment and that lie within 5 of it;
    for a line of length zero, the points of the open square of half
    side 5 around its point. *)
Lemma line_contains_point_spec :
  exists b : bool,
    LineShape.contains_point l px py = Val b
    /\ (b = true <->
        (len2 = 0 /\ Rabs ax < 5 /\ Rabs ay < 5)
        \/ (len2 <> 0 /\ 0 <= dot <= len2 /\ cross * cross <= 25 * len2)).
Proof.
  unfold LineShape.contains_point. fold dx dy ax ay.
  destruct (Req_dec_T (hypot dx dy) 0) as [Hz | Hnz].
  - rewrite Reqb_true by exact Hz. eexists. split; [reflexivity |].
    pose proof (proj1 line_len_zero Hz) as Hl.
    rewrite andb_true_iff, !Rltb_spec. split.
    + intros [H1 H2]. left. auto.
    + intros [[_ H] | [H _]]; [exact H | contradiction].
  - rewrite Reqb_false by exact Hnz.
    assert (Hl : len2 <> 0) by (intros H; apply Hnz; now apply line_len_zero).
    assert (Hpos : 0 < len2) by (unfold len2 in *; nra).
    assert (Hsq : hypot dx dy * hypot dx dy = len2) by apply hypot_sqr.
    rewrite py_div_ok by (rewrite Hsq; exact Hl). cbn.
    fold dot. set (u := dot / (hypot dx dy * hypot dx dy)).
    assert (Hu : u * len2 = dot) by (unfold u; rewrite Hsq; field; exact Hl).
    destruct (Rlt_dec u 0) as [Hneg | Hnneg].
    { rewrite (Rltb_true u 0) by exact Hneg. cbn. eexists. split; [reflexivity |].
      split; [discriminate |]. intros [[H _] | [_ [[H _] _]]]; [contradiction |].
      nra. }
    rewrite (Rltb_false u 0) by lra. cbn.
    destruct (Rlt_dec 1 u) as [Hbig | Hnbig].
    { rewrite (Rltb_true 1 u) by exact Hbig. eexists. split; [reflexivity |].
      split; [discriminate |]. intros [[H _] | [_ [[_ H] _]]]; [contradiction |].
      nra. }
    rewrite (Rltb_false 1 u) by lra.
    eexists. split; [reflexivity |].
    rewrite Rleb_spec, hypot_le by lra.
    pose proof (residual_sqr Hl) as Hres. cbn in Hres. fold u in Hres.
    rewrite Hres.
    assert (Hdiv : cross * cross / len2 <= 5 * 5 <-> cross * cross <= 25 * len2).
    { split; intros H.
      - apply Rmult_le_compat_r with (r := len2) in H; [| lra].
        replace (cross * cross / len2 * len2) with (cross * cross) in H
          by (field; exact Hl). lra.
      - apply Rmult_le_reg_r with (r := len2); [exact Hpos |].
        replace (cross * cross / len2 * len2) with (cross * cross)
          by (field; exact Hl). lra. }
    rewrite Hdiv. split.
    + intros H. right. split; [exact Hl |]. split; [nra | exact H].
    + intros [[H _] | [_ [_ H]]]; [contradiction | exact H].
Qed.

End LineHitTest.

(** The hit test in the words of the specification: the projection
    parameter is clamped to [[0, 1]] before the distance is taken. *)
Definition stated_line_contains_point (l : LineShape.t) (px py : R) : bool :=
  let dx := LineShape.x2 l - LineShape.x1 l in
  let dy := LineShape.y2 l - LineShape.y1 l in
  let line_len := hypot dx dy in
  if Reqb line_len 0 then
    Rltb (Rabs (px - LineShape.x1 l)) 5 && Rltb (Rabs (py - LineShape.y1 l)) 5
  else
    let u := ((px - LineShape.x1 l) * dx + (py - LineShape.y1 l) * dy)
             / (line_len * line_len) in
    let u := Rmax 0 (Rmin 1 u) in
    Rleb (hypot (px - (LineShape.x1 l + u * dx))
                (py - (LineShape.y1 l + u * dy))) 5.

Definition line_0_100 : LineShape.t := LineShape.init 0 0 100 0.

Lemma line_0_100_hit (px py : R) :
  exists b : bool,
    LineShape.contains_point line_0_100 px py = Val b
    /\ (b = true <-> 0 <= px <= 100 /\ py * py <= 25).
Proof.
  destruct (line_contains_point_spec line_0_100 px py) as [b [Hb Hiff]].
  exists b. split; [exact Hb |]. rewrite Hiff. cbn. split.
  - intros [[H _] | [_ [H1 H2]]]; [lra |]. split; nra.
  - intros [H1 H2]. right. split; [lra |]. split; nra.
Qed.

(** C7 as stated fails: 3 units before the first end of the line
    (0,0)-(100,0) the clamped projection is the end itself, at distance 3,
    but the program rejects the point because its parameter is negative. *)
Lemma line_hit_test_does_not_clamp :
  LineShape.contains_point line_0_100 (-3) 0 = Val false
  /\ stated_line_contains_point line_0_100 (-3) 0 = true.
Proof.
  split.
  - destruct (line_0_100_hit (-3) 0) as [b [Hb Hiff]]. rewrite Hb.
    destruct b; [| reflexivity]. destruct (proj1 Hiff eq_refl). lra.
  - unfold stated_line_contains_point, line_0_100. cbn.
    replace (100 - 0) with 100 by lra. replace (0 - 0) with 0 by lra.
    rewrite hypot_x by lra. rewrite Reqb_false by lra.
    assert (Hu : Rmax 0 (Rmin 1 (((-3 - 0) * 100 + 0 * 0) / (100 * 100))) = 0).
    { rewrite Rmin_right by lra. rewrite Rmax_left by lra. reflexivity. }
    rewrite Hu. replace (-3 - (0 + 0 * 100)) with (- 3) by lra.
    replace (0 - (0 + 0 * 0)) with 0 by lra.
    apply Rleb_true. apply hypot_le; lra.
Qed.

(** C7, as amended.  For every line and test point the hit test returns a
    boolean, without error.  For a line of length zero it is true exactly
    in the open square of half side 5 around the single point.  Otherwise
    the point is projected on the line; if the projection parameter is
    outside [[0, 1]] the test is false (the parameter is not clamped), else
    it is true exactly when the distance to the projection is at most 5.
    For the line (0,0)-(100,0): (50, 3) is a hit and (50, 10) is not. *)
Theorem line_contains_point_unclamped :
  (forall (l : LineShape.t) (px py : R),
      let ax := px - LineShape.x1 l in
      let ay := py - LineShape.y1 l in
      let dx := LineShape.x2 l - LineShape.x1 l in
      let dy := LineShape.y2 l - LineShape.y1 l in
      let len2 := dx * dx + dy * dy in
      let dot := ax * dx + ay * dy in
      let cross := ax * dy - ay * dx in
      exists b : bool,
        LineShape.contains_point l px py = Val b
        /\ (b = true <->
            (len2 = 0 /\ Rabs ax < 5 /\ Rabs ay < 5)
            \/ (len2 <> 0 /\ 0 <= dot <= len2 /\ cross * cross <= 25 * len2)))
  /\ LineShape.contains_point line_0_100 50 3 = Val true
  /\ LineShape.contains_point line_0_100 50 10 = Val false.
Proof.
  split; [exact line_contains_point_spec | split].
  - destruct (line_0_100_hit 50 3) as [b [Hb Hiff]]. rewrite Hb.
    destruct b; [reflexivity |].
    assert (H : false = true) by (apply Hiff; split; lra). discriminate.
  - destruct (line_0_100_hit 50 10) as [b [Hb Hiff]]. rewrite Hb.
    destruct b; [| reflexivity]. destruct (proj1 Hiff eq_refl). lra.
Qed.

(** ** The heap *)

Lemma nth_error_list_set_eq {A : Type} (l : list A) (i : nat) (v w : A) :
  nth_error l i = Some w -> nth_error (list_set i v l) i = Some v.
Proof.
  revert i. induction l as [| a l IH]; intros [| i]; cbn; intros H;
    try discriminate; auto.
Qed.

Lemma nth_error_list_set_ne {A : Type} (l : list A) (i j : nat) (v : A) :
  i <> j -> nth_error (list_set i v l) j = nth_error l j.
Proof.
  revert i j. induction l as [| a l IH]; intros [| i] [| j] H; cbn; auto;
    congruence.
Qed.

Lemma length_list_set {A : Type} (l : list A) (i : nat) (v : A) :
  List.length (list_set i v l) = List.length l.
Proof.
  revert i. induction l as [| a l IH]; intros [| i]; cbn; auto.
Qed.

Lemma deref_store_eq (a : App) (id : nat) (s s0 : Shape.t) :
  deref a id = Some s0 -> deref (store id s a) id = Some s.
Proof. unfold deref, store. cbn. apply nth_error_list_set_eq. Qed.

Lemma deref_store_ne (a : App) (id id' : nat) (s : Shape.t) :
  id <> id' -> deref (store id s a) id' = deref a id'.
Proof. unfold deref, store. cbn. apply nth_error_list_set_ne. Qed.

Lemma deref_set_canvas (a : App) (c : Canvas.t) (id : nat) :
  deref (set_canvas c a) id = deref a id.
Proof. reflexivity. Qed.

(** The attributes of a shape, the cached box of a text left out. *)
Definition geometry (b : Body) : Body := Shape.set_bbox None b.

Lemma geometry_set_bbox (bb : option BBox) (b : Body) :
  geometry (Shape.set_bbox bb b) = geometry b.
Proof. destruct b; reflexivity. Qed.

Lemma geometry_draw (s : Shape.t) (c : Canvas.t) :
  geometry (Shape.body (fst (Shape.draw s c))) = geometry (Shape.body s).
Proof.
  unfold Shape.draw. destruct (Shape.body s) eqn:E;
    try (destruct (Shape.item s); cbn; rewrite ?E; reflexivity).
Qed.

Lemma body_add_handle name bb st (sc : Shape.t * Canvas.t) :
  Shape.body (fst (Shape.add_handle name bb st sc)) = Shape.body (fst sc).
Proof. destruct bb as [[[x1 y1] x2] y2]. reflexivity. Qed.

Lemma geometry_draw_handles (s : Shape.t) (c : Canvas.t) :
  geometry (Shape.body (fst (Shape.draw_handles s c))) = geometry (Shape.body s).
Proof.
  unfold Shape.draw_handles. destruct (Shape.body s) eqn:E;
    rewrite ?body_add_handle; cbn; rewrite ?E; try reflexivity.
  destruct (TextShape.bbox t) as [[[[x1 y1] x2] y2] |]; cbn;
    rewrite ?E; reflexivity.
Qed.

Lemma call_at (id : nat) (m : Shape.t -> Canvas.t -> Shape.t * Canvas.t)
    (a : App) (s : Shape.t) :
  deref a id = Some s ->
  call id m a = set_canvas (snd (m s (canvas a))) (store id (fst (m s (canvas a))) a).
Proof. intros H. unfold call. rewrite H. now destruct (m s (canvas a)). Qed.

Lemma deref_call_eq id m a s :
  deref a id = Some s -> deref (call id m a) id = Some (fst (m s (canvas a))).
Proof.
  intros H. rewrite (call_at _ _ _ _ H), deref_set_canvas.
  eapply deref_store_eq; eauto.
Qed.

Lemma deref_call_ne id id' m a :
  id <> id' -> deref (call id m a) id' = deref a id'.
Proof.
  intros H. unfold call. destruct (deref a id) as [s |] eqn:E; [| reflexivity].
  destruct (m s (canvas a)). rewrite deref_set_canvas. now apply deref_store_ne.
Qed.

(** ** Zoom (C1) *)

Lemma geometry_zoom_body_congr (z : R) (b1 b2 : Body) :
  geometry b1 = geometry b2 -> geometry (zoom_body z b1) = geometry (zoom_body z b2).
Proof.
  destruct b1 as [r1 | c1 | h1 | l1 | t1], b2 as [r2 | c2 | h2 | l2 | t2];
    cbn; intros H; try discriminate; inversion H; subst; reflexivity.
Qed.

Lemma geometry_zoom_body_idem (z : R) (b : Body) :
  geometry (zoom_body z (zoom_body z b)) = geometry (zoom_body z b).
Proof. destruct b; reflexivity. Qed.

Lemma zoom_shape_at (z : R) (a : App) (id : nat) (shp : Shape.t) :
  deref a id = Some shp ->
  exists shp', deref (zoom_shape z a id) id = Some shp'
               /\ geometry (Shape.body shp') = geometry (zoom_body z (Shape.body shp)).
Proof.
  intros H. unfold zoom_shape. rewrite H.
  set (shp1 := Shape.set_body (zoom_body z (Shape.body shp)) shp).
  destruct (match Shape.item_truthy shp1 with
            | Some it => (Shape.set_item None shp1, Canvas.delete it (canvas a))
            | None => (shp1, canvas a)
            end) as [shp2 c2] eqn:E2.
  assert (Hb2 : Shape.body shp2 = zoom_body z (Shape.body shp)).
  { destruct (Shape.item_truthy shp1); inversion E2; reflexivity. }
  destruct (Shape.draw shp2 c2) as [shp3 c3] eqn:E3.
  assert (Hb3 : geometry (Shape.body shp3) = geometry (zoom_body z (Shape.body shp))).
  { rewrite <- Hb2. change shp3 with (fst (shp3, c3)). rewrite <- E3.
    apply geometry_draw. }
  destruct (if Shape.selected shp3 then Shape.draw_handles shp3 c3 else (shp3, c3))
    as [shp4 c4] eqn:E4.
  exists shp4. split.
  - rewrite deref_set_canvas. eapply deref_store_eq; eauto.
  - rewrite <- Hb3. destruct (Shape.selected shp3).
    + change shp4 with (fst (shp4, c4)). rewrite <- E4. apply geometry_draw_handles.
    + inversion E4. reflexivity.
Qed.

Lemma zoom_shape_other (z : R) (a : App) (id id' : nat) :
  id <> id' -> deref (zoom_shape z a id) id' = deref a id'.
Proof.
  intros Hne. unfold zoom_shape. destruct (deref a id) as [shp |]; [| reflexivity].
  repeat match goal with
         | |- context [let (_, _) := ?e in _] => destruct e
         end.
  rewrite deref_set_canvas. now apply deref_store_ne.
Qed.

Lemma zoom_shape_zoom_level (z : R) (a : App) (id : nat) :
  zoom_level (zoom_shape z a id) = zoom_level a
  /\ shapes (zoom_shape z a id) = shapes a.
Proof.
  unfold zoom_shape. destruct (deref a id) as [shp |]; [| auto].
  repeat match goal with
         | |- context [let (_, _) := ?e in _] => destruct e
         end.
  auto.
Qed.

Lemma zoom_all_spec (z : R) (ids : list nat) :
  forall (a : App) (id : nat) (shp : Shape.t),
    deref a id = Some shp ->
    exists shp',
      deref (fold_left (zoom_shape z) ids a) id = Some shp'
      /\ (In id ids ->
          geometry (Shape.body shp') = geometry (zoom_body z (Shape.body shp)))
      /\ (~ In id ids -> geometry (Shape.body shp') = geometry (Shape.body shp)).
Proof.
  induction ids as [| i ids IH]; intros a id shp H.
  - exists shp. cbn. repeat split; tauto.
  - cbn [fold_left]. destruct (Nat.eq_dec i id) as [-> | Hne].
    + destruct (zoom_shape_at z a id shp H) as [shp1 [H1 G1]].
      destruct (IH _ _ _ H1) as [shp' [H' [Gin Gout]]].
      exists shp'. split; [exact H' |]. split.
      * intros _. destruct (in_dec Nat.eq_dec id ids) as [Hin | Hout].
        -- rewrite (Gin Hin). rewrite (geometry_zoom_body_congr z _ _ G1).
           apply geometry_zoom_body_idem.
        -- now rewrite (Gout Hout).
      * intros Hn. exfalso. apply Hn. now left.
    + assert (H1 : deref (zoom_shape z a i) id = Some shp)
        by (rewrite zoom_shape_other; assumption).
      destruct (IH _ _ _ H1) as [shp' [H' [Gin Gout]]].
      exists shp'. split; [exact H' |]. split.
      * intros [Heq | Hin]; [contradiction | auto].
      * intros Hn. apply Gout. intros Hin. apply Hn. now right.
Qed.

(** The displayed attributes of [b'] are the base attributes of [b] times
    [z], the font size truncated to an integer; the base attributes, the
    angle and the text are those of [b]. *)
Definition displayed_is_base_times (z : R) (b b' : Body) : Prop :=
  match b, b' with
  | Rect r, Rect r' =>
      RectangleShape.x r' = RectangleShape.base_x r * z
      /\ RectangleShape.y r' = RectangleShape.base_y r * z
      /\ RectangleShape.width r' = RectangleShape.base_width r * z
      /\ RectangleShape.height r' = RectangleShape.base_height r * z
      /\ RectangleShape.base_x r' = RectangleShape.base_x r
      /\ RectangleShape.base_y r' = RectangleShape.base_y r
      /\ RectangleShape.base_width r' = RectangleShape.base_width r
      /\ RectangleShape.base_height r' = RectangleShape.base_height r
  | Circ c, Circ c' =>
      CircleShape.x c' = CircleShape.base_x c * z
      /\ CircleShape.y c' = CircleShape.base_y c * z
      /\ CircleShape.radius c' = CircleShape.base_radius c * z
      /\ CircleShape.base_x c' = CircleShape.base_x c
      /\ CircleShape.base_y c' = CircleShape.base_y c
      /\ CircleShape.base_radius c' = CircleShape.base_radius c
  | Hour h, Hour h' =>
      HourglassShape.x h' = HourglassShape.base_x h * z
      /\ HourglassShape.y h' = HourglassShape.base_y h * z
      /\ HourglassShape.width h' = HourglassShape.base_width h * z
      /\ HourglassShape.height h' = HourglassShape.base_height h * z
      /\ HourglassShape.base_x h' = HourglassShape.base_x h
      /\ HourglassShape.base_y h' = HourglassShape.base_y h
      /\ HourglassShape.base_width h' = HourglassShape.base_width h
      /\ HourglassShape.base_height h' = HourglassShape.base_height h
  | Lin l, Lin l' =>
      LineShape.x1 l' = LineShape.base_x1 l * z
      /\ LineShape.y1 l' = LineShape.base_y1 l * z
      /\ LineShape.x2 l' = LineShape.base_x2 l * z
      /\ LineShape.y2 l' = LineShape.base_y2 l * z
      /\ LineShape.base_x1 l' = LineShape.base_x1 l
      /\ LineShape.base_y1 l' = LineShape.base_y1 l
      /\ LineShape.base_x2 l' = LineShape.base_x2 l
      /\ LineShape.base_y2 l' = LineShape.base_y2 l
  | Txt t, Txt t' =>
      TextShape.x t' = TextShape.base_x t * z
      /\ TextShape.y t' = TextShape.base_y t * z
      /\ TextShape.font_size t' = py_int (TextShape.base_font_size t * z)
      /\ TextShape.base_x t' = TextShape.base_x t
      /\ TextShape.base_y t' = TextShape.base_y t
      /\ TextShape.base_font_size t' = TextShape.base_font_size t
  | _, _ => False
  end.

Lemma geometry_zoomed (z : R) (b b' : Body) :
  geometry b' = geometry (zoom_body z b) -> displayed_is_base_times z b b'.
Proof.
  destruct b as [r | c | h | l | t], b' as [r' | c' | h' | l' | t'];
    cbn; intros H; try discriminate.
  - inversion H; subst; cbn. repeat split.
  - inversion H; subst; cbn. repeat split.
  - inversion H; subst; cbn. repeat split.
  - inversion H; subst; cbn. repeat split.
  - destruct t'. cbn in *. inversion H; subst. repeat split.
Qed.

Lemma zoom_all_zoom_level (z : R) (ids : list nat) (a : App) :
  zoom_level (fold_left (zoom_shape z) ids a) = zoom_level a.
Proof.
  revert a. induction ids as [| i ids IH]; intros a; cbn; [reflexivity |].
  rewrite IH. apply zoom_shape_zoom_level.
Qed.

Lemma apply_zoom_zoom_level (a : App) : zoom_level (apply_zoom a) = zoom_level a.
Proof.
  unfold apply_zoom. rewrite zoom_all_zoom_level.
  destruct (original_image a) as [[w h] |]; reflexivity.
Qed.

Lemma zoom_all_shapes (z : R) (ids : list nat) (a : App) :
  shapes (fold_left (zoom_shape z) ids a) = shapes a.
Proof.
  revert a. induction ids as [| i ids IH]; intros a; cbn; [reflexivity |].
  rewrite IH. apply zoom_shape_zoom_level.
Qed.

Lemma apply_zoom_shapes (a : App) : shapes (apply_zoom a) = shapes a.
Proof.
  unfold apply_zoom. rewrite zoom_all_shapes.
  destruct (original_image a) as [[w h] |]; reflexivity.
Qed.

Lemma apply_zoom_scales (a : App) (id : nat) (shp : Shape.t) :
  In id (shapes a) -> deref a id = Some shp ->
  exists shp' : Shape.t,
    deref (apply_zoom a) id = Some shp'
    /\ displayed_is_base_times (zoom_level a) (Shape.body shp) (Shape.body shp').
Proof.
  intros Hin H. unfold apply_zoom.
  set (a1 := match original_image a with Some _ => _ | None => _ end).
  assert (H1 : heap a1 = heap a /\ shapes a1 = shapes a /\ zoom_level a1 = zoom_level a).
  { subst a1. destruct (original_image a) as [[w h] |]; repeat split. }
  destruct H1 as [Hh [Hs Hz]].
  set (a2 := set_canvas_size _ _ a1).
  assert (H2 : deref a2 id = Some shp) by (unfold deref, a2; cbn; now rewrite Hh).
  change (shapes a2) with (shapes a1). change (zoom_level a2) with (zoom_level a1).
  rewrite Hs, Hz.
  destruct (zoom_all_spec (zoom_level a) (shapes a) a2 id shp H2) as [shp' [H' [G _]]].
  exists shp'. split; [exact H' |]. apply geometry_zoomed. now apply G.
Qed.

(** Truncation toward zero never moves away from zero and never by a whole
    unit. *)
Lemma py_int_truncates (r : R) :
  Rabs (IZR (py_int r)) <= Rabs r /\ Rabs (r - IZR (py_int r)) < 1.
Proof.
  unfold py_int. destruct (Rle_dec 0 r) as [Hr | Hr].
  - rewrite Rleb_true by exact Hr. destruct (base_Int_part r) as [H1 H2].
    assert (Hz : 0 <= IZR (Int_part r)).
    { pose proof (py_int_nonneg r Hr) as Hp. unfold py_int in Hp.
      rewrite Rleb_true in Hp by exact Hr. now apply IZR_le in Hp. }
    rewrite !Rabs_pos_eq by lra. lra.
  - rewrite Rleb_false by lra. destruct (base_Int_part (- r)) as [H1 H2].
    assert (Hp : (0 <= py_int (- r))%Z) by (apply py_int_nonneg; lra).
    unfold py_int in Hp. rewrite Rleb_true in Hp by lra.
    apply IZR_le in Hp. rewrite opp_IZR.
    rewrite Rabs_Ropp, (Rabs_pos_eq (IZR _)) by lra.
    rewrite (Rabs_left r) by lra. split; [lra |].
    rewrite Rabs_left1 by lra. lra.
Qed.

(** C1, as amended.  Immediately after [apply_zoom], whatever the zoom
    level [z] (so for every level [zoom_in], [zoom_out] and [reset_zoom]
    reach), every shape of the shape sequence has its displayed attributes
    equal to its base attributes times [z]: x, y, width and height of a
    rectangle or hourglass, x, y and radius of a circle, the four endpoint
    coordinates of a line, x and y of a text; the font size of a text is
    [base_font_size * z] truncated toward zero ([int]), not rounded to the
    nearest integer.  The base attributes and the zoom level are unchanged. *)
Theorem apply_zoom_displayed_is_base_times_zoom
    (a : App) (id : nat) (shp : Shape.t) :
  In id (shapes a) -> deref a id = Some shp ->
  exists shp' : Shape.t,
    deref (apply_zoom a) id = Some shp'
    /\ zoom_level (apply_zoom a) = zoom_level a
    /\ displayed_is_base_times (zoom_level a) (Shape.body shp) (Shape.body shp')
    /\ forall t t', Shape.body shp = Txt t -> Shape.body shp' = Txt t' ->
         let v := TextShape.base_font_size t * zoom_level a in
         TextShape.font_size t' = py_int v
         /\ Rabs (IZR (TextShape.font_size t')) <= Rabs v
         /\ Rabs (v - IZR (TextShape.font_size t')) < 1.
Proof.
  intros Hin H. destruct (apply_zoom_scales a id shp Hin H) as [shp' [H' D]].
  exists shp'. split; [exact H' |]. split; [apply apply_zoom_zoom_level |].
  split; [exact D |]. intros t t' Ht Ht' v. rewrite Ht, Ht' in D.
  destruct D as [_ [_ [Hfs _]]]. rewrite Hfs. fold v.
  split; [reflexivity |]. apply py_int_truncates.
Qed.

(** A rectangle drawn at zoom 1, the zoom level then set to 2. *)
Definition one_rectangle : App :=
  mkApp (Canvas.empty no_metrics)
        [Shape.init (Rect (RectangleShape.init 10 20 100 60 0))] [0%nat]
        None ToolSelect None Idle no_drag 2 None None 800 600 800 600.

Lemma apply_zoom_displayed_is_base_times_zoom_witness :
  exists shp' : Shape.t,
    deref (apply_zoom one_rectangle) 0 = Some shp'
    /\ zoom_level (apply_zoom one_rectangle) = zoom_level one_rectangle
    /\ displayed_is_base_times (zoom_level one_rectangle)
         (Rect (RectangleShape.init 10 20 100 60 0)) (Shape.body shp')
    /\ forall t t', Rect (RectangleShape.init 10 20 100 60 0) = Txt t ->
         Shape.body shp' = Txt t' ->
         let v := TextShape.base_font_size t * zoom_level one_rectangle in
         TextShape.font_size t' = py_int v
         /\ Rabs (IZR (TextShape.font_size t')) <= Rabs v
         /\ Rabs (v - IZR (TextShape.font_size t')) < 1.
Proof.
  apply (apply_zoom_displayed_is_base_times_zoom one_rectangle 0
           (Shape.init (Rect (RectangleShape.init 10 20 100 60 0)))).
  - simpl. left. reflexivity.
  - reflexivity.
Defined.

(** A text of font size 9 at zoom 1. *)
Definition one_text_9 : App :=
  mkApp (Canvas.empty no_metrics)
        [Shape.init (Txt (TextShape.mk 10 10 9 10 10 "A" 9 0 None))] [0%nat]
        None ToolSelect None Idle no_drag 1.0 None None 800 600 800 600.

Lemma zoom_in_steps (a : App) :
  zoom_level a < max_zoom ->
  zoom_in a = apply_zoom (set_zoom_level (zoom_level a + zoom_step) a).
Proof. intros H. unfold zoom_in. now rewrite Rltb_true. Qed.

(** C1 as stated fails on the font size: two [zoom_in] take the text of
    base font size 9 to zoom 1.2; the font size becomes [int(10.8) = 10],
    which is more than one half away from 10.8, so it is not 10.8 rounded
    to an integer. *)
Lemma zoomed_font_size_not_rounded :
  let a := zoom_in (zoom_in one_text_9) in
  exists (shp : Shape.t) (t : TextShape.t),
    deref a 0 = Some shp
    /\ Shape.body shp = Txt t
    /\ zoom_level a = 1.0 + 0.1 + 0.1
    /\ TextShape.base_font_size t = 9
    /\ TextShape.font_size t = 10%Z
    /\ ~ Rabs (IZR (TextShape.font_size t)
               - TextShape.base_font_size t * zoom_level a) <= 1 / 2.
Proof.
  intros a.
  assert (E1 : zoom_in one_text_9
               = apply_zoom (set_zoom_level (1.0 + zoom_step) one_text_9)).
  { apply zoom_in_steps. unfold max_zoom. cbn. lra. }
  set (a1 := zoom_in one_text_9) in *.
  assert (Z1 : zoom_level a1 = 1.0 + zoom_step)
    by (rewrite E1; apply apply_zoom_zoom_level).
  assert (E2 : a = apply_zoom (set_zoom_level (zoom_level a1 + zoom_step) a1)).
  { apply zoom_in_steps. rewrite Z1. unfold max_zoom, zoom_step. lra. }
  assert (Z2 : zoom_level a = 1.0 + 0.1 + 0.1).
  { rewrite E2, apply_zoom_zoom_level. cbn. rewrite Z1. reflexivity. }
  destruct (apply_zoom_scales (set_zoom_level (1.0 + zoom_step) one_text_9) 0
              (Shape.init (Txt (TextShape.mk 10 10 9 10 10 "A" 9 0 None))))
    as [shp1 [H1 D1]]; [simpl; now left | reflexivity |].
  rewrite <- E1 in H1. cbn in D1.
  destruct (Shape.body shp1) as [| | | | t1] eqn:B1; try contradiction.
  destruct D1 as [_ [_ [_ [_ [_ Hb1]]]]].
  destruct (apply_zoom_scales (set_zoom_level (zoom_level a1 + zoom_step) a1) 0 shp1)
    as [shp2 [H2 D2]].
  { cbn. rewrite E1, apply_zoom_shapes. simpl. now left. }
  { exact H1. }
  rewrite <- E2 in H2. rewrite B1 in D2. cbn in D2.
  destruct (Shape.body shp2) as [| | | | t2] eqn:B2; try contradiction.
  destruct D2 as [_ [_ [Hfs [_ [_ Hb2]]]]].
  exists shp2, t2. rewrite Hb1, Z1 in Hfs.
  assert (F : TextShape.font_size t2 = 10%Z).
  { rewrite Hfs. apply py_int_floor; unfold zoom_step; lra. }
  repeat split; try assumption.
  - congruence.
  - rewrite F, Hb2, Hb1, Z2. intros H.
    unfold Rabs in H. destruct (Rcase_abs _) in H; lra.
Qed.

(** ** Frame properties of the helpers *)

Lemma call_frame (id : nat) (m : Shape.t -> Canvas.t -> Shape.t * Canvas.t)
    (a : App) :
  mode (call id m a) = mode a
  /\ selected_shape (call id m a) = selected_shape a
  /\ drag_data (call id m a) = drag_data a
  /\ zoom_level (call id m a) = zoom_level a
  /\ shapes (call id m a) = shapes a
  /\ current_tool (call id m a) = current_tool a
  /\ current_shape (call id m a) = current_shape a
  /\ List.length (heap (call id m a)) = List.length (heap a).
Proof.
  unfold call. destruct (deref a id) as [s |]; [| repeat split].
  destruct (m s (canvas a)). cbn. repeat split. apply length_list_set.
Qed.

Lemma redraw_frame (id : nat) (a : App) :
  mode (redraw id a) = mode a
  /\ selected_shape (redraw id a) = selected_shape a
  /\ drag_data (redraw id a) = drag_data a
  /\ zoom_level (redraw id a) = zoom_level a
  /\ shapes (redraw id a) = shapes a
  /\ current_tool (redraw id a) = current_tool a
  /\ current_shape (redraw id a) = current_shape a
  /\ List.length (heap (redraw id a)) = List.length (heap a).
Proof.
  unfold redraw.
  destruct (call_frame id Shape.draw_handles (call id Shape.draw a))
    as [-> [-> [-> [-> [-> [-> [-> ->]]]]]]].
  apply call_frame.
Qed.

Lemma redraw_at (id : nat) (a : App) (s : Shape.t) :
  deref a id = Some s ->
  exists s', deref (redraw id a) id = Some s'
             /\ geometry (Shape.body s') = geometry (Shape.body s).
Proof.
  intros H. unfold redraw.
  pose proof (deref_call_eq id Shape.draw a s H) as H1.
  pose proof (deref_call_eq id Shape.draw_handles _ _ H1) as H2.
  eexists. split; [exact H2 |].
  now rewrite geometry_draw_handles, geometry_draw.
Qed.

Lemma redraw_other (id id' : nat) (a : App) :
  id <> id' -> deref (redraw id a) id' = deref a id'.
Proof. intros H. unfold redraw. now rewrite !deref_call_ne. Qed.


(** ** Rotation drags (C6) *)













(** ** Resize drags (C5) *)










Arguments resized_extent : simpl never.
Arguments resized_font : simpl never.





(** ** Pointer down (C4) *)

Lemma point_in_polygon_edge_total (px py : R) (coords : list R) (n i : nat)
    (inside : bool) :
  exists b, _point_in_polygon_edge px py coords n i inside = Val b.
Proof.
  unfold _point_in_polygon_edge.
  set (y1 := nth (2 * i + 1) coords 0).
  set (y2 := nth (2 * ((i + 1) mod n) + 1) coords 0).
  destruct (xorb (Rltb py y1) (Rltb py y2)) eqn:E; [| eexists; reflexivity].
  assert (Hne : y2 - y1 <> 0).
  { intros H. assert (y2 = y1) by lra. subst y1 y2.
    rewrite H0 in E. now rewrite xorb_nilpotent in E. }
  rewrite py_div_ok by exact Hne. cbn. eexists. reflexivity.
Qed.

Lemma point_in_polygon_loop_total (px py : R) (coords : list R) (n : nat)
    (idxs : list nat) :
  forall inside, exists b, _point_in_polygon_loop px py coords n idxs inside = Val b.
Proof.
  induction idxs as [| i idxs IH]; intros inside; cbn; [eexists; reflexivity |].
  destruct (point_in_polygon_edge_total px py coords n i inside) as [b ->].
  cbn. apply IH.
Qed.

(** No hit test raises. *)
Lemma contains_point_total (s : Shape.t) (px py : R) :
  exists b, Shape.contains_point s px py = Val b.
Proof.
  unfold Shape.contains_point. destruct (Shape.body s) as [r | c | h | l | t];
    try (eexists; reflexivity).
  - apply point_in_polygon_loop_total.
  - destruct (line_contains_point_spec l px py) as [b [Hb _]]. now exists b.
Qed.

(** The hit test of the object [id], [false] where there is no object. *)
Definition hits (a : App) (cx cy : R) (id : nat) : bool :=
  match deref a id with
  | Some s =>
      match Shape.contains_point s cx cy with
      | Val b => b
      | Exc _ => false
      end
  | None => false
  end.

Lemma find_shape_spec (a : App) (cx cy : R) (ids : list nat) :
  find_shape ids cx cy a = Val (find (hits a cx cy) ids).
Proof.
  induction ids as [| id ids IH]; cbn; [reflexivity |].
  unfold hits at 1. destruct (deref a id) as [s |]; [| exact IH].
  destruct (contains_point_total s cx cy) as [b ->]. cbn.
  destruct b; [reflexivity | exact IH].
Qed.

(** The handles a pointer-down reacts to. *)
Definition interactive (hname : string) : bool :=
  is_resize_handle hname || String.eqb hname "rotate".

(** The first handle of the selected shape, in the order of its dictionary,
    that is interactive and whose region contains the point. *)
Definition handle_under (cx cy : R) (a : App) : option string :=
  match selected_shape a with
  | Some id =>
      match deref a id with
      | Some shp =>
          option_map fst
            (find (fun h => hit_handle (canvas a) cx cy (snd h) && interactive (fst h))
                  (Shape.handles shp))
      | None => None
      end
  | None => None
  end.

(** The topmost shape, in creation order, that contains the point. *)
Definition shape_under (cx cy : R) (a : App) : option nat :=
  find (hits a cx cy) (rev (shapes a)).

(** The state a pointer-down on the handle [hname] of [shp] leaves. *)
Definition grab_handle (hname : string) (shp : Shape.t) (cx cy : R) (a : App)
  : App :=
  if is_resize_handle hname then
    let d := set_d_handle hname (drag_data a) in
    set_drag_data
      match Shape.body shp with
      | Txt t =>
          if String.eqb hname "resize"
          then set_d_text_init cx cy (TextShape.font_size t) d
          else d
      | _ => d
      end
      (set_mode Resizing a)
  else set_mode Rotating a.

Lemma click_handles_spec (hs : list (string * nat)) (shp : Shape.t) (cx cy : R)
    (a : App) :
  click_handles hs shp cx cy a
  = option_map (fun h => grab_handle (fst h) shp cx cy a)
      (find (fun h => hit_handle (canvas a) cx cy (snd h) && interactive (fst h)) hs).
Proof.
  induction hs as [| [hname hid] hs IH]; [reflexivity |].
  cbn [click_handles find fst snd]. unfold interactive.
  destruct (hit_handle (canvas a) cx cy hid); cbn [andb]; [| exact IH].
  destruct (is_resize_handle hname) eqn:E; cbn [orb option_map fst].
  - unfold grab_handle. now rewrite E.
  - destruct (String.eqb hname "rotate"); cbn [option_map fst]; [| exact IH].
    unfold grab_handle. now rewrite E.
Qed.

Lemma grab_handle_frame (hname : string) (shp : Shape.t) (cx cy : R) (a : App) :
  let a' := grab_handle hname shp cx cy a in
  selected_shape a' = selected_shape a
  /\ shapes a' = shapes a
  /\ heap a' = heap a
  /\ canvas a' = canvas a
  /\ (if is_resize_handle hname
      then mode a' = Resizing /\ d_handle (drag_data a') = Some hname
      else mode a' = Rotating /\ drag_data a' = drag_data a).
Proof.
  unfold grab_handle. destruct (is_resize_handle hname); cbn.
  - repeat split. destruct (Shape.body shp); try reflexivity.
    destruct (String.eqb hname "resize"); reflexivity.
  - repeat split.
Qed.

(** The five cases of [on_canvas_click], in their order of priority. *)
Lemma click_cases (cx cy : R) (a : App) :
  on_canvas_click cx cy a =
  match click_selected_handles cx cy a with
  | Some a' => Done a'
  | None =>
      match shape_under cx cy a with
      | Some id =>
          Done (set_drag_data (drag_at cx cy) (set_mode Move (select_shape id a)))
      | None =>
          if Mode_eqb (mode a) Edit then Done (set_mode Idle (deselect_all a))
          else if is_drawing_tool (current_tool a) && Mode_eqb (mode a) Idle
               then Done (create_shape_at cx cy a)
          else match current_tool a with
               | ToolSelect => Done (set_mode Idle (deselect_all a))
               | _ => Done a
               end
      end
  end.
Proof.
  unfold on_canvas_click, shape_under. now rewrite find_shape_spec.
Qed.

Lemma click_selected_handles_spec (cx cy : R) (a : App) :
  match handle_under cx cy a with
  | Some hname =>
      exists id shp,
        selected_shape a = Some id /\ deref a id = Some shp
        /\ click_selected_handles cx cy a = Some (grab_handle hname shp cx cy a)
  | None => click_selected_handles cx cy a = None
  end.
Proof.
  unfold handle_under, click_selected_handles.
  destruct (selected_shape a) as [id |]; [| reflexivity].
  destruct (deref a id) as [shp |] eqn:Hd; [| reflexivity].
  rewrite click_handles_spec.
  destruct (find _ (Shape.handles shp)) as [[hname hid] |]; cbn; [| reflexivity].
  exists id, shp. auto.
Qed.

Lemma deselect_all_frame (a : App) :
  selected_shape (deselect_all a) = None
  /\ mode (deselect_all a) = mode a
  /\ shapes (deselect_all a) = shapes a
  /\ drag_data (deselect_all a) = drag_data a
  /\ zoom_level (deselect_all a) = zoom_level a
  /\ current_tool (deselect_all a) = current_tool a
  /\ current_shape (deselect_all a) = current_shape a
  /\ List.length (heap (deselect_all a)) = List.length (heap a).
Proof.
  unfold deselect_all. destruct (selected_shape a) as [id |]; cbn.
  - destruct (call_frame id Shape.deselect a) as [H1 [_ [H3 [H4 [H5 [H6 [H7 H8]]]]]]].
    repeat split; assumption.
  - repeat split.
Qed.

(** [select_shape] changes the canvas and the selected object only. *)
Lemma select_shape_canvas_only (id : nat) (a : App) :
  exists c,
    select_shape id a
    = set_canvas c (call id Shape.select
                      (set_selected_shape (Some id) (deselect_all a))).
Proof.
  unfold select_shape.
  set (a1 := call id Shape.select (set_selected_shape (Some id) (deselect_all a))).
  assert (Hid : set_canvas (canvas a1) a1 = a1) by now destruct a1.
  destruct (deref a1 id) as [shp |]; [| now exists (canvas a1)].
  destruct (Shape.item_truthy shp); [| now exists (canvas a1)].
  eexists. reflexivity.
Qed.

Lemma select_shape_frame (id : nat) (a : App) :
  selected_shape (select_shape id a) = Some id
  /\ mode (select_shape id a) = mode a
  /\ shapes (select_shape id a) = shapes a
  /\ drag_data (select_shape id a) = drag_data a
  /\ zoom_level (select_shape id a) = zoom_level a
  /\ current_tool (select_shape id a) = current_tool a
  /\ current_shape (select_shape id a) = current_shape a
  /\ List.length (heap (select_shape id a)) = List.length (heap a).
Proof.
  destruct (select_shape_canvas_only id a) as [c ->]. cbn.
  destruct (call_frame id Shape.select (set_selected_shape (Some id) (deselect_all a)))
    as [H1 [H2 [H3 [H4 [H5 [H6 [H7 H8]]]]]]].
  destruct (deselect_all_frame a) as [_ [G2 [G3 [G4 [G5 [G6 [G7 G8]]]]]]].
  cbn in *. repeat split; congruence.
Qed.

Lemma nth_error_snoc {A : Type} (l : list A) (v : A) :
  nth_error (l ++ [v]) (List.length l) = Some v.
Proof. rewrite nth_error_app2, Nat.sub_diag by lia. reflexivity. Qed.

Lemma create_shape_at_spec (cx cy : R) (a : App) :
  let id := List.length (heap a) in
  let a' := create_shape_at cx cy a in
  mode a' = Create
  /\ shapes a' = shapes a ++ [id]
  /\ current_shape a' = Some id
  /\ selected_shape a' = selected_shape a
  /\ drag_data a' = drag_at cx cy
  /\ exists shp,
       deref a' id = Some shp
       /\ geometry (Shape.body shp)
          = geometry (Shape.body (new_shape (current_tool a) cx cy)).
Proof.
  intros id a'. subst a'. unfold create_shape_at, alloc. cbn [set_mode heap].
  fold id.
  set (a2 := set_shapes _ _).
  assert (Hd : deref a2 id = Some (new_shape (current_tool a) cx cy))
    by (unfold deref, a2; cbn; apply nth_error_snoc).
  destruct (call_frame id Shape.draw a2) as [H1 [H2 [_ [_ [H5 [_ [H7 _]]]]]]].
  cbn. rewrite H1, H2, H5, H7. repeat split.
  exists (fst (Shape.draw (new_shape (current_tool a) cx cy) (canvas a2))).
  split; [now apply deref_call_eq | apply geometry_draw].
Qed.


(** ** Evaluation of the program on given inputs *)

(** Comparisons of given numbers, for angles of 0 degrees. *)
Ltac rsolve :=
  rewrite ?radians_neg_0, ?radians_0, ?cos_0, ?sin_0;
  unfold Rabs;
  repeat match goal with
         | |- context [Rcase_abs ?x] => destruct (Rcase_abs x)
         end;
  lra.

Ltac rdecide_one :=
  match goal with
  | |- context [Rleb ?a ?b] =>
      first [ rewrite (Rleb_true a b) by rsolve
            | rewrite (Rleb_false a b) by rsolve ]
  | |- context [Rltb ?a ?b] =>
      first [ rewrite (Rltb_true a b) by rsolve
            | rewrite (Rltb_false a b) by rsolve ]
  | |- context [Reqb ?a ?b] =>
      first [ rewrite (Reqb_true a b) by rsolve
            | rewrite (Reqb_false a b) by rsolve ]
  end.

(** Evaluation of everything but the operations on real numbers. *)
Ltac ev :=
  cbv -[Rleb Rltb Reqb Rplus Rminus Rmult Rdiv Ropp Rinv IZR Rabs Rmax Rmin
        sqrt cos sin atan PI Int_part radians degrees hypot atan2 py_int
        py_mod].

Ltac evd := ev; repeat (rdecide_one; ev).

(** A host whose text items all measure 40 by 30. *)
Definition box_metrics : R -> R -> string -> Z -> option BBox :=
  fun x y _ _ => Some (x, y, x + 40, y + 30).

(** A text created at (100, 100) with the text tool and given the content
    "A": it is selected, in mode "edit". *)
Definition text_selected : App :=
  run [SetTool ToolText; Click 100 100; Release (Some "A")]
      (initial None box_metrics).


(** ** Deletion (C10) *)


(** A rectangle created at (100, 100) with the rectangle tool: it is
    selected, in mode "edit". *)
Definition rectangle_selected : App :=
  run [SetTool ToolRectangle; Click 100 100; Release None]
      (initial None no_metrics).


(** ** Dragging a shape being created (C2) *)

(** The circle tool pressed on the empty canvas at (100, 100). *)
Definition circle_being_created : App :=
  run [SetTool ToolCircle; Click 100 100] (initial None no_metrics).

(** C2 at a failing input.  After the pointer-down that creates a circle
    the mode is "create" and the new circle is the current shape, but no
    shape is selected; [on_canvas_drag] returns at its first test, so the
    drag to (120, 120) changes nothing: the circle stays at (100, 100),
    displayed and base. *)
Theorem create_drag_is_ignored :
  mode circle_being_created = Create
  /\ current_shape circle_being_created = Some 0%nat
  /\ selected_shape circle_being_created = None
  /\ d_x (drag_data circle_being_created) = Some 100
  /\ on_canvas_drag 120 120 circle_being_created = Done circle_being_created
  /\ exists shp,
       deref circle_being_created 0 = Some shp
       /\ Shape.body shp = Circ (CircleShape.init 100 100 50).
Proof.
  assert (Hs : selected_shape circle_being_created = None) by (ev; reflexivity).
  split; [ev; reflexivity |].
  split; [ev; reflexivity |].
  split; [exact Hs |].
  split; [ev; reflexivity |].
  split.
  - unfold on_canvas_drag. now rewrite Hs.
  - eexists. split; [ev; reflexivity | ev; reflexivity].
Qed.

(** ** Rotating a circle (C3) *)

(** A circle created at (100, 100) with the circle tool: it is selected, in
    mode "edit"; its rotate handle is the square around (100, 30). *)
Definition circle_selected : App :=
  run [SetTool ToolCircle; Click 100 100; Release None]
      (initial None no_metrics).

(** C3 at a failing input.  The pointer-down on the rotate handle of the
    selected circle enters "rotating".  The first drag stores the bearing
    and then reads [shp.angle], which a circle does not have: the handler
    raises AttributeError.  Every later drag of the session finds the first
    key stored and the second missing, and raises KeyError.  The circle
    itself is left as it was. *)
Theorem circle_rotation_drag_raises :
  exists a1 a2 a3,
    on_canvas_click 100 30 circle_selected = Done a1
    /\ mode a1 = Rotating
    /\ on_canvas_drag 110 30 a1 = Raised (AttributeError "angle") a2
    /\ on_canvas_drag 120 40 a2 = Raised (KeyError "init_shape_angle") a3
    /\ deref a3 0 = deref circle_selected 0
    /\ exists shp,
         deref circle_selected 0 = Some shp
         /\ Shape.body shp = Circ (CircleShape.init 100 100 50).
Proof.
  assert (H1 : handle_under 100 30 circle_selected = Some "rotate")
    by (evd; reflexivity).
  pose proof (click_selected_handles_spec 100 30 circle_selected) as H.
  rewrite H1 in H. destruct H as [id [shp [Hs [Hd Hc]]]].
  exists (grab_handle "rotate" shp 100 30 circle_selected).
  assert (E1 : grab_handle "rotate" shp 100 30 circle_selected
               = set_mode Rotating circle_selected) by reflexivity.
  rewrite E1. clear E1 Hd Hs.
  eexists. eexists.
  split; [rewrite click_cases, Hc; reflexivity |].
  split; [reflexivity |].
  split; [ev; reflexivity |].
  split; [ev; reflexivity |].
  split; [ev; reflexivity |].
  eexists. split; [ev; reflexivity | ev; reflexivity].
Qed.

(** ** Stacking order (C8) *)


Definition among (l : list nat) (j : nat) : bool := existsb (Nat.eqb j) l.



Lemma filter_filter_and {A : Type} (f g : A -> bool) (l : list A) :
  filter f (filter g l) = filter (fun x => g x && f x) l.
Proof.
  induction l as [| x l IH]; cbn; [reflexivity |].
  destruct (g x); cbn; [destruct (f x) |]; now rewrite IH.
Qed.

Lemma filter_all {A : Type} (f : A -> bool) (l : list A) :
  (forall x, In x l -> f x = true) -> filter f l = l.
Proof.
  induction l as [| x l IH]; cbn; intros H; [reflexivity |].
  rewrite (H x) by now left. f_equal. apply IH. intros y Hy. apply H. now right.
Qed.


Lemma map_fst_filter {B : Type} (f : nat -> bool) (l : list (nat * B)) :
  map fst (filter (fun p => f (fst p)) l) = filter f (map fst l).
Proof.
  induction l as [| p l IH]; cbn; [reflexivity |].
  destruct (f (fst p)); cbn; now rewrite IH.
Qed.

Lemma ids_delete (i : nat) (c : Canvas.t) :
  Canvas.ids (Canvas.delete i c)
  = filter (fun j => negb (Nat.eqb j i)) (Canvas.ids c).
Proof.
  unfold Canvas.ids, Canvas.delete. cbn.
  apply (map_fst_filter (fun j => negb (Nat.eqb j i))).
Qed.


Lemma ids_delete_all (hs : list (string * nat)) (c : Canvas.t) :
  Canvas.ids (fold_left (fun c' h => Canvas.delete (snd h) c') hs c)
  = filter (fun j => negb (among (map snd hs) j)) (Canvas.ids c).
Proof.
  revert c. induction hs as [| h hs IH]; intros c; cbn.
  - symmetry. now apply filter_all.
  - rewrite IH, ids_delete, filter_filter_and. apply filter_ext.
    intros j. unfold among. cbn. now rewrite negb_orb.
Qed.









(** The display order of the shapes. *)













(** * Further properties of the program *)

(** ** Hit tests and the drawn outline *)








(** ** Moving and resizing by dragging *)

(** The displayed coordinates that fix where a shape is, and the base ones:
    the center of a rectangle, circle or hourglass, the anchor of a text,
    the two ends of a line. *)
Definition position (b : Body) : list R :=
  match b with
  | Rect r => [RectangleShape.x r; RectangleShape.y r]
  | Circ c => [CircleShape.x c; CircleShape.y c]
  | Hour h => [HourglassShape.x h; HourglassShape.y h]
  | Lin l => [LineShape.x1 l; LineShape.y1 l; LineShape.x2 l; LineShape.y2 l]
  | Txt t => [TextShape.x t; TextShape.y t]
  end.

Definition base_position (b : Body) : list R :=
  match b with
  | Rect r => [RectangleShape.base_x r; RectangleShape.base_y r]
  | Circ c => [CircleShape.base_x c; CircleShape.base_y c]
  | Hour h => [HourglassShape.base_x h; HourglassShape.base_y h]
  | Lin l => [LineShape.base_x1 l; LineShape.base_y1 l;
              LineShape.base_x2 l; LineShape.base_y2 l]
  | Txt t => [TextShape.base_x t; TextShape.base_y t]
  end.

(** The displayed and base sizes, and what else a shape carries. *)
Definition extent (b : Body) : list R :=
  match b with
  | Rect r => [RectangleShape.width r; RectangleShape.height r;
               RectangleShape.base_width r; RectangleShape.base_height r;
               RectangleShape.angle r]
  | Circ c => [CircleShape.radius c; CircleShape.base_radius c]
  | Hour h => [HourglassShape.width h; HourglassShape.height h;
               HourglassShape.base_width h; HourglassShape.base_height h;
               HourglassShape.angle h]
  | Lin l => []
  | Txt t => [IZR (TextShape.font_size t); TextShape.base_font_size t;
              TextShape.angle t]
  end.

(** [dx] added to every abscissa and [dy] to every ordinate. *)
Fixpoint shift (dx dy : R) (l : list R) : list R :=
  match l with
  | a :: b :: l' => a + dx :: b + dy :: shift dx dy l'
  | _ => l
  end.

Lemma position_geometry (b b' : Body) :
  geometry b' = geometry b ->
  position b' = position b /\ base_position b' = base_position b
  /\ extent b' = extent b.
Proof.
  destruct b as [r | c | h | l | t], b' as [r' | c' | h' | l' | t'];
    cbn; intros H; try discriminate; inversion H; subst; repeat split.
Qed.

Lemma rebase_position_ok (z : R) (b : Body) :
  z <> 0 ->
  exists b',
    rebase_position z b = Val b'
    /\ position b' = position b
    /\ base_position b' = map (fun v => v / z) (position b)
    /\ extent b' = extent b.
Proof.
  intros Hz. destruct b as [r | c | h | l | t]; cbn;
    rewrite !py_div_ok by exact Hz; cbn; eexists; repeat split.
Qed.

Lemma translate_spec (dx dy : R) (b : Body) :
  position (translate dx dy b) = shift dx dy (position b)
  /\ base_position (translate dx dy b) = base_position b
  /\ extent (translate dx dy b) = extent b.
Proof. destruct b; repeat split. Qed.

(** A drag in mode "move" (or "create") with a shape selected, at a zoom
    level that is not zero, raises nothing and moves the selected shape by
    the pointer delta since the point recorded in the drag data; its base
    coordinates become the new displayed ones divided by the zoom level;
    sizes, angle and mode are unchanged, and the drag data record the new
    point.  If the displayed coordinates were the base ones times the zoom
    level before, the base coordinates move by the delta divided by the
    zoom level. *)
Theorem move_drag_translates
    (a : App) (id : nat) (shp : Shape.t) (cx cy x0 y0 : R) :
  selected_shape a = Some id ->
  deref a id = Some shp ->
  mode a = Move \/ mode a = Create ->
  d_x (drag_data a) = Some x0 ->
  d_y (drag_data a) = Some y0 ->
  zoom_level a <> 0 ->
  let z := zoom_level a in
  exists a' shp',
    on_canvas_drag cx cy a = Done a'
    /\ deref a' id = Some shp'
    /\ position (Shape.body shp')
       = shift (cx - x0) (cy - y0) (position (Shape.body shp))
    /\ base_position (Shape.body shp')
       = map (fun v => v / z) (position (Shape.body shp'))
    /\ extent (Shape.body shp') = extent (Shape.body shp)
    /\ mode a' = mode a
    /\ d_x (drag_data a') = Some cx /\ d_y (drag_data a') = Some cy
    /\ (position (Shape.body shp)
        = map (fun v => v * z) (base_position (Shape.body shp)) ->
        base_position (Shape.body shp')
        = shift ((cx - x0) / z) ((cy - y0) / z) (base_position (Shape.body shp))).
Proof.
  intros Hs Hd Hm Hx Hy Hz z.
  assert (E : on_canvas_drag cx cy a
              = drag_move id shp (cx - x0) (cy - y0) cx cy a).
  { unfold on_canvas_drag. rewrite Hs, Hd, Hx, Hy. cbn [getd].
    destruct Hm as [-> | ->]; reflexivity. }
  rewrite E. unfold drag_move.
  destruct (translate_spec (cx - x0) (cy - y0) (Shape.body shp)) as [T1 [T2 T3]].
  destruct (rebase_position_ok z (translate (cx - x0) (cy - y0) (Shape.body shp)) Hz)
    as [b2 [Eb [P1 [P2 P3]]]].
  fold z. rewrite Eb.
  set (a2 := set_drag_data _ (store id (Shape.set_body b2 shp) a)).
  assert (Hd2 : deref a2 id = Some (Shape.set_body b2 shp))
    by (unfold a2; cbn; eapply deref_store_eq; eauto).
  destruct (redraw_at id a2 _ Hd2) as [shp' [Hd' Hg]].
  cbn [Shape.body Shape.set_body] in Hg.
  destruct (position_geometry _ _ Hg) as [G1 [G2 G3]].
  destruct (redraw_frame id a2) as [F1 _].
  eexists. exists shp'. split; [reflexivity |].
  split; [exact Hd' |].
  split; [now rewrite G1, P1, T1 |].
  split; [now rewrite G2, P2, G1, P1 |].
  split; [now rewrite G3, P3, T3 |].
  split; [cbn; rewrite F1; reflexivity |].
  split; [reflexivity |]. split; [reflexivity |].
  intros Hinv. rewrite G2, P2, T1, Hinv.
  destruct (Shape.body shp) as [r | c | h | l | t]; cbn;
    repeat (f_equal; try (field; exact Hz)).
Qed.

(** A circle with base center (50, 50), shown at zoom 2 around (100, 100),
    selected and being moved from (100, 100). *)
Definition circle_moving_at_zoom_2 : App :=
  mkApp (Canvas.empty no_metrics)
        [Shape.mk true [] None
           (Circ (CircleShape.mk 50 50 25 100 100 50 None))]
        [0%nat] (Some 0%nat) ToolSelect None Move (drag_at 100 100) 2 None None
        800 600 800 600.

Lemma move_drag_translates_witness :
  exists a' shp',
    on_canvas_drag 120 120 circle_moving_at_zoom_2 = Done a'
    /\ deref a' 0 = Some shp'
    /\ position (Shape.body shp') = [100 + (120 - 100); 100 + (120 - 100)]
    /\ base_position (Shape.body shp')
       = [50 + (120 - 100) / 2; 50 + (120 - 100) / 2].
Proof.
  destruct (move_drag_translates circle_moving_at_zoom_2 0
              (Shape.mk true [] None (Circ (CircleShape.mk 50 50 25 100 100 50 None)))
              120 120 100 100)
    as [a' [shp' [H1 [H2 [H3 [_ [_ [_ [_ [_ H9]]]]]]]]]].
  - reflexivity.
  - reflexivity.
  - left. reflexivity.
  - reflexivity.
  - reflexivity.
  - simpl. lra.
  - exists a', shp'. split; [exact H1 |]. split; [exact H2 |].
    split; [exact H3 |]. apply H9. simpl.
    repeat (f_equal; try lra).
Defined.




(** A drag in mode "resizing" on a selected line puts the grabbed end at
    the pointer, displayed, and at the pointer divided by the zoom level,
    base: the first end for the handle "end1", the second end for any
    other recorded handle.  The other end stays. *)
Theorem line_end_drag_moves_end
    (a : App) (id : nat) (shp : Shape.t) (l : LineShape.t) (hname : string)
    (cx cy : R) :
  mode a = Resizing ->
  selected_shape a = Some id ->
  deref a id = Some shp ->
  Shape.body shp = Lin l ->
  d_handle (drag_data a) = Some hname ->
  zoom_level a <> 0 ->
  let z := zoom_level a in
  exists a' shp',
    on_canvas_drag cx cy a = Done a'
    /\ deref a' id = Some shp'
    /\ Shape.body shp'
       = Lin (if String.eqb hname "end1"
              then LineShape.mk (cx / z) (cy / z)
                                (LineShape.base_x2 l) (LineShape.base_y2 l)
                                cx cy (LineShape.x2 l) (LineShape.y2 l)
              else LineShape.mk (LineShape.base_x1 l) (LineShape.base_y1 l)
                                (cx / z) (cy / z)
                                (LineShape.x1 l) (LineShape.y1 l) cx cy).
Proof.
  intros Hm Hs Hd Hb Hh Hz z.
  unfold on_canvas_drag. rewrite Hs, Hd, Hm. unfold drag_resize. rewrite Hh, Hb.
  cbn [resize_displayed].
  set (l' := if String.eqb hname "end1"
             then LineShape.mk (cx / z) (cy / z)
                               (LineShape.base_x2 l) (LineShape.base_y2 l)
                               cx cy (LineShape.x2 l) (LineShape.y2 l)
             else LineShape.mk (LineShape.base_x1 l) (LineShape.base_y1 l)
                               (cx / z) (cy / z)
                               (LineShape.x1 l) (LineShape.y1 l) cx cy).
  assert (E : resize_base hname cx cy (drag_data a) (zoom_level a)
                (if String.eqb hname "end1"
                 then Lin (LineShape.mk
                             (LineShape.base_x1 l) (LineShape.base_y1 l)
                             (LineShape.base_x2 l) (LineShape.base_y2 l)
                             cx cy (LineShape.x2 l) (LineShape.y2 l))
                 else Lin (LineShape.mk
                             (LineShape.base_x1 l) (LineShape.base_y1 l)
                             (LineShape.base_x2 l) (LineShape.base_y2 l)
                             (LineShape.x1 l) (LineShape.y1 l) cx cy))
              = Val (Lin l')).
  { subst l'. destruct (String.eqb hname "end1") eqn:Eh; cbn;
      rewrite !py_div_ok by exact Hz; cbn; rewrite Eh; reflexivity. }
  rewrite E.
  destruct (redraw_at id (store id (Shape.set_body (Lin l') shp) a)
              (Shape.set_body (Lin l') shp)) as [shp' [Hd' Hg]].
  { eapply deref_store_eq; eauto. }
  cbn [Shape.body Shape.set_body] in Hg.
  eexists. exists shp'. split; [reflexivity |]. split; [exact Hd' |].
  destruct (Shape.body shp'); cbn in Hg; try discriminate.
  exact Hg.
Qed.

Definition line_resizing : App :=
  mkApp (Canvas.empty no_metrics)
        [Shape.mk true [] None (Lin (LineShape.init 0 0 100 0))]
        [0%nat] (Some 0%nat) ToolSelect None Resizing
        (set_d_handle "end1" no_drag) 2 None None 800 600 800 600.

Lemma line_end_drag_moves_end_witness :
  exists a' shp',
    on_canvas_drag 10 20 line_resizing = Done a'
    /\ deref a' 0 = Some shp'
    /\ Shape.body shp' = Lin (LineShape.mk (10 / 2) (20 / 2) 100 0 10 20 100 0).
Proof.
  apply (line_end_drag_moves_end line_resizing 0
           (Shape.mk true [] None (Lin (LineShape.init 0 0 100 0)))
           (LineShape.init 0 0 100 0) "end1" 10 20).
  - reflexivity.
  - reflexivity.
  - reflexivity.
  - reflexivity.
  - reflexivity.
  - simpl. lra.
Defined.

(** ** What the handlers leave as it is *)

(** The zoom level, the shape sequence and the number of shape objects. *)
Definition kept (a a' : App) : Prop :=
  zoom_level a' = zoom_level a
  /\ shapes a' = shapes a
  /\ List.length (heap a') = List.length (heap a).

Lemma kept_refl (a : App) : kept a a.
Proof. repeat split. Qed.

Lemma kept_trans (a b c : App) : kept a b -> kept b c -> kept a c.
Proof. unfold kept. intros [H1 [H2 H3]] [G1 [G2 G3]]. repeat split; congruence. Qed.

Lemma kept_call (id : nat) (m : Shape.t -> Canvas.t -> Shape.t * Canvas.t)
    (a : App) : kept a (call id m a).
Proof.
  destruct (call_frame id m a) as [_ [_ [_ [H4 [H5 [_ [_ H8]]]]]]].
  repeat split; assumption.
Qed.

Lemma kept_store (id : nat) (s : Shape.t) (a : App) : kept a (store id s a).
Proof. repeat split. cbn. apply length_list_set. Qed.

Lemma kept_redraw (id : nat) (a : App) : kept a (redraw id a).
Proof.
  unfold redraw. eapply kept_trans; apply kept_call.
Qed.

Lemma kept_deselect_all (a : App) : kept a (deselect_all a).
Proof.
  destruct (deselect_all_frame a) as [_ [_ [H3 [_ [H5 [_ [_ H8]]]]]]].
  repeat split; assumption.
Qed.

Lemma kept_select_shape (id : nat) (a : App) : kept a (select_shape id a).
Proof.
  destruct (select_shape_frame id a) as [_ [_ [H3 [_ [H5 [_ [_ H8]]]]]]].
  repeat split; assumption.
Qed.

Lemma kept_edit_text_shape (dlg : option string) (a : App) :
  kept a (edit_text_shape dlg a).
Proof.
  unfold edit_text_shape.
  destruct (selected_shape a) as [id |]; [| apply kept_refl].
  destruct (deref a id) as [shp |]; [| apply kept_refl].
  destruct (Shape.body shp); try apply kept_refl.
  eapply kept_trans; [apply kept_store |].
  eapply kept_trans; apply kept_call.
Qed.

Lemma kept_on_canvas_release (dlg : option string) (a : App) :
  kept a (on_canvas_release dlg a).
Proof.
  unfold on_canvas_release.
  set (a0 := set_drag_data (clear_d_rotation (drag_data a)) a).
  assert (K0 : kept a a0) by (repeat split).
  assert (Kelse : kept a match selected_shape a0 with
                         | Some _ => set_mode Edit a0
                         | None => set_mode Idle a0
                         end)
    by (destruct (selected_shape a0); repeat split).
  destruct (mode a0); try exact Kelse.
  destruct (current_shape a0) as [id |]; [| exact Kelse].
  assert (K1 : kept a (set_mode Edit (select_shape id a0))).
  { eapply kept_trans; [exact K0 |].
    eapply kept_trans; [apply kept_select_shape | repeat split]. }
  set (a1 := set_mode Edit (select_shape id a0)) in *.
  eapply kept_trans with (b := match current_tool a1 with
                               | ToolText =>
                                   match deref a1 id with
                                   | Some shp =>
                                       redraw id (store id (Shape.edit_text dlg shp) a1)
                                   | None => a1
                                   end
                               | _ => a1
                               end); [| repeat split].
  destruct (current_tool a1); try exact K1.
  destruct (deref a1 id) as [shp |]; [| exact K1].
  eapply kept_trans; [exact K1 |].
  eapply kept_trans; [apply kept_store | apply kept_redraw].
Qed.

Lemma kept_double_click_loop (ids : list nat) (cx cy : R) (dlg : option string)
    (a : App) : kept a (double_click_loop ids cx cy dlg a).
Proof.
  induction ids as [| id ids IH]; cbn; [apply kept_refl |].
  destruct (deref a id) as [shp |]; [| exact IH].
  destruct (Shape.body shp); try exact IH.
  destruct (TextShape.contains_point t cx cy); [| exact IH].
  eapply kept_trans; [| apply kept_edit_text_shape].
  eapply kept_trans; [| apply kept_call].
  eapply kept_trans; [apply kept_deselect_all | repeat split].
Qed.

Lemma kept_set_drag_data (d : DragData) (a b : App) :
  kept a b -> kept a (set_drag_data d b).
Proof. intros H. exact H. Qed.

Lemma kept_after_store (id : nat) (s : Shape.t) (a b : App) :
  kept a b -> kept a (store id s b).
Proof. intros H. eapply kept_trans; [exact H | apply kept_store]. Qed.

Lemma kept_after_redraw (id : nat) (a b : App) :
  kept a b -> kept a (redraw id b).
Proof. intros H. eapply kept_trans; [exact H | apply kept_redraw]. Qed.

(** Case analysis on the innermost scrutinee of the goal. *)
Ltac break_match :=
  match goal with
  | |- context [match ?x with _ => _ end] =>
      lazymatch x with
      | context [match _ with _ => _ end] => fail
      | _ => destruct x eqn:?
      end
  end.

Ltac kept_tac :=
  cbn [state_of];
  repeat first [ apply kept_refl
               | apply kept_set_drag_data
               | apply kept_after_redraw
               | apply kept_after_store ].

Lemma kept_on_canvas_drag (cx cy : R) (a : App) :
  kept a (state_of (on_canvas_drag cx cy a)).
Proof.
  unfold on_canvas_drag, drag_move, drag_resize, drag_rotate. cbv zeta.
  repeat break_match; kept_tac.
Qed.

Lemma kept_create_shape_at (cx cy : R) (a : App) :
  zoom_level (create_shape_at cx cy a) = zoom_level a
  /\ List.length (heap (create_shape_at cx cy a)) = S (List.length (heap a)).
Proof.
  unfold create_shape_at, alloc. cbn [set_mode heap].
  set (a2 := set_shapes _ _).
  destruct (kept_call (List.length (heap a)) Shape.draw a2) as [H1 [_ H3]].
  cbn [zoom_level heap set_drag_data]. rewrite H1, H3. split; [reflexivity |].
  unfold a2. cbn. rewrite length_app. cbn. lia.
Qed.

(** A pointer-down either keeps the shape sequence or appends one new
    object to it. *)
Lemma click_effect (cx cy : R) (a : App) :
  let a' := state_of (on_canvas_click cx cy a) in
  kept a a'
  \/ (zoom_level a' = zoom_level a
      /\ shapes a' = shapes a ++ [List.length (heap a)]
      /\ List.length (heap a') = S (List.length (heap a))).
Proof.
  cbn zeta. rewrite click_cases.
  pose proof (click_selected_handles_spec cx cy a) as Hh.
  destruct (handle_under cx cy a) as [hname |].
  - destruct Hh as [id [shp [_ [_ ->]]]]. left. cbn [state_of].
    destruct (grab_handle_frame hname shp cx cy a) as [_ [H2 [H3 _]]].
    repeat split; [| exact H2 | now rewrite H3].
    unfold grab_handle. destruct (is_resize_handle hname); reflexivity.
  - rewrite Hh. destruct (shape_under cx cy a) as [id |].
    + left. cbn [state_of]. apply (kept_select_shape id a).
    + destruct (Mode_eqb (mode a) Edit).
      { left. apply (kept_deselect_all a). }
      destruct (is_drawing_tool (current_tool a) && Mode_eqb (mode a) Idle).
      { right. cbn [state_of].
        destruct (create_shape_at_spec cx cy a) as [_ [H2 _]].
        destruct (kept_create_shape_at cx cy a) as [H1 H3]. auto. }
      left. destruct (current_tool a); cbn [state_of];
        try apply kept_refl; apply (kept_deselect_all a).
Qed.

Lemma delete_effect (a : App) :
  let a' := delete_selected_shape a in
  zoom_level a' = zoom_level a
  /\ List.length (heap a') = List.length (heap a)
  /\ (shapes a' = shapes a
      \/ exists id, shapes a' = remove_first id (shapes a)).
Proof.
  cbn zeta. unfold delete_selected_shape.
  destruct (selected_shape a) as [id |]; [| auto].
  destruct (deref a id) as [shp |]; [| auto].
  set (a1 := set_canvas _ a).
  destruct (kept_call id Shape.delete_handles a1) as [H1 [H2 H3]].
  cbn [zoom_level heap shapes set_selected_shape set_shapes].
  rewrite H1, H2, H3. repeat split. right. now exists id.
Qed.

Lemma zoom_shape_heap (z : R) (a : App) (id : nat) :
  List.length (heap (zoom_shape z a id)) = List.length (heap a).
Proof.
  unfold zoom_shape. destruct (deref a id) as [shp |]; [| reflexivity].
  repeat match goal with
         | |- context [let (_, _) := ?e in _] => destruct e
         end.
  cbn. apply length_list_set.
Qed.

Lemma apply_zoom_heap (a : App) :
  List.length (heap (apply_zoom a)) = List.length (heap a).
Proof.
  assert (F : forall z l b,
             List.length (heap (fold_left (zoom_shape z) l b))
             = List.length (heap b)).
  { intros z l. induction l as [| i l IH]; intros b; cbn; [reflexivity |].
    rewrite IH. apply zoom_shape_heap. }
  unfold apply_zoom. rewrite F.
  destruct (original_image a) as [[w h] |]; reflexivity.
Qed.

Lemma kept_apply_zoom (a : App) : kept a (apply_zoom a).
Proof.
  split; [apply apply_zoom_zoom_level |].
  split; [apply apply_zoom_shapes | apply apply_zoom_heap].
Qed.

(** The effect of one event on the zoom level, the shape sequence and the
    number of shape objects. *)
Lemma handle_effect (e : Event) (a : App) :
  let a' := state_of (handle e a) in
  (zoom_level a' = zoom_level a
   \/ (zoom_level a < max_zoom /\ zoom_level a' = zoom_level a + zoom_step)
   \/ (min_zoom < zoom_level a /\ zoom_level a' = zoom_level a - zoom_step)
   \/ zoom_level a' = 1)
  /\ ((shapes a' = shapes a /\ List.length (heap a') = List.length (heap a))
      \/ (shapes a' = shapes a ++ [List.length (heap a)]
          /\ List.length (heap a') = S (List.length (heap a)))
      \/ ((exists id, shapes a' = remove_first id (shapes a))
          /\ List.length (heap a') = List.length (heap a))).
Proof.
  assert (K : forall a', kept a a' ->
              (zoom_level a' = zoom_level a
               \/ (zoom_level a < max_zoom /\ zoom_level a' = zoom_level a + zoom_step)
               \/ (min_zoom < zoom_level a /\ zoom_level a' = zoom_level a - zoom_step)
               \/ zoom_level a' = 1)
              /\ ((shapes a' = shapes a /\ List.length (heap a') = List.length (heap a))
                  \/ (shapes a' = shapes a ++ [List.length (heap a)]
                      /\ List.length (heap a') = S (List.length (heap a)))
                  \/ ((exists id, shapes a' = remove_first id (shapes a))
                      /\ List.length (heap a') = List.length (heap a))))
    by (intros a' [H1 [H2 H3]]; auto).
  destruct e; cbn [handle state_of].
  - destruct (click_effect x y a) as [H | [H1 [H2 H3]]]; [now apply K | auto].
  - apply K, kept_on_canvas_drag.
  - apply K, kept_on_canvas_release.
  - apply K, kept_double_click_loop.
  - destruct (delete_effect a) as [H1 [H2 [H3 | H3]]]; auto.
  - apply K. apply (kept_deselect_all (set_current_tool t a)).
  - unfold zoom_in. destruct (Rlt_dec (zoom_level a) max_zoom) as [Hlt | Hge].
    + rewrite Rltb_true by exact Hlt.
      destruct (kept_apply_zoom (set_zoom_level (zoom_level a + zoom_step) a))
        as [H1 [H2 H3]]. auto.
    + rewrite Rltb_false by lra. apply K, kept_refl.
  - unfold zoom_out. destruct (Rlt_dec min_zoom (zoom_level a)) as [Hlt | Hge].
    + rewrite Rltb_true by exact Hlt.
      destruct (kept_apply_zoom (set_zoom_level (zoom_level a - zoom_step) a))
        as [H1 [H2 H3]]. auto 6.
    + rewrite Rltb_false by lra. apply K, kept_refl.
  - unfold reset_zoom.
    destruct (kept_apply_zoom (set_zoom_level 1.0 a)) as [H1 [H2 H3]].
    split; [| auto]. right. right. right. rewrite H1. cbn. lra.
  - apply K, kept_edit_text_shape.
Qed.

(** ** Invariants of the editor *)

(** Whatever the events, the zoom level stays positive and below the
    largest level plus one step; so the divisions by the zoom level in the
    drag handlers never fail in the editor started by [App.__init__]. *)
Theorem zoom_level_stays_in_range
    (img : option (Z * Z)) (m : R -> R -> string -> Z -> option BBox)
    (evs : list Event) :
  let a := run evs (initial img m) in
  0 < zoom_level a < max_zoom + zoom_step
  /\ forall v, py_div v (zoom_level a) = Val (v / zoom_level a).
Proof.
  cbn zeta.
  assert (I0 : 0 < zoom_level (initial img m) < max_zoom + zoom_step).
  { unfold max_zoom, zoom_step.
    destruct img as [[w h] |]; cbn; lra. }
  assert (Step : forall evs a,
             0 < zoom_level a < max_zoom + zoom_step ->
             0 < zoom_level (run evs a) < max_zoom + zoom_step).
  { clear. intros l. induction l as [| e l IH]; intros a Ha; [exact Ha |].
    change (run (e :: l) a) with (run l (state_of (handle e a))).
    apply IH. destruct (handle_effect e a) as [Hz _].
    unfold max_zoom, min_zoom, zoom_step in *.
    destruct Hz as [-> | [[H1 ->] | [[H1 ->] | ->]]]; lra. }
  pose proof (Step evs _ I0) as H. split; [exact H |].
  intros v. apply py_div_ok. lra.
Qed.

(** ** Release, deletion and the tools *)

Lemma on_canvas_release_create (dlg : option string) (a : App) (id : nat) :
  mode a = Create -> current_shape a = Some id ->
  let a' := on_canvas_release dlg a in
  mode a' = Edit /\ selected_shape a' = Some id /\ current_shape a' = None
  /\ drag_data a' = clear_d_rotation (drag_data a).
Proof.
  intros Hm Hc. cbn zeta. unfold on_canvas_release.
  set (a0 := set_drag_data (clear_d_rotation (drag_data a)) a).
  change (mode a0) with (mode a). change (current_shape a0) with (current_shape a).
  rewrite Hm, Hc.
  destruct (select_shape_frame id a0) as [S1 [_ [_ [S4 _]]]].
  set (a1 := set_mode Edit (select_shape id a0)).
  assert (K : forall shp,
             let a2 := redraw id (store id (Shape.edit_text dlg shp) a1) in
             mode a2 = Edit /\ selected_shape a2 = Some id
             /\ drag_data a2 = clear_d_rotation (drag_data a)).
  { intros shp. cbn zeta.
    destruct (redraw_frame id (store id (Shape.edit_text dlg shp) a1))
      as [R1 [R2 [R3 _]]].
    rewrite R1, R2, R3. cbn. auto. }
  cbn [mode selected_shape current_shape drag_data set_current_shape].
  destruct (current_tool a1); try (cbn; auto; fail).
  destruct (deref a1 id) as [shp |]; [| cbn; auto].
  destruct (K shp) as [K1 [K2 K3]]. auto.
Qed.

Lemma on_canvas_release_other (dlg : option string) (a : App) :
  mode a <> Create \/ current_shape a = None ->
  on_canvas_release dlg a
  = set_mode match selected_shape a with
             | Some _ => Edit
             | None => Idle
             end (set_drag_data (clear_d_rotation (drag_data a)) a).
Proof.
  intros H. unfold on_canvas_release.
  set (a0 := set_drag_data (clear_d_rotation (drag_data a)) a).
  change (mode a0) with (mode a). change (current_shape a0) with (current_shape a).
  change (selected_shape a0) with (selected_shape a).
  destruct (mode a); try (destruct (selected_shape a); reflexivity).
  destruct H as [H | H]; [now destruct H |]. rewrite H.
  destruct (selected_shape a); reflexivity.
Qed.

(** After a release the mode is "edit" if a shape is selected and "idle" if
    none is, never "create", "move", "resizing" or "rotating"; the two
    rotation keys are gone from the drag data.  The shape selected is the
    one being created if the mode was "create", the one selected before
    otherwise; the shape sequence is unchanged. *)
Theorem release_settles_mode (dlg : option string) (a : App) :
  let a' := on_canvas_release dlg a in
  mode a' = match selected_shape a' with
            | Some _ => Edit
            | None => Idle
            end
  /\ selected_shape a' = match mode a, current_shape a with
                         | Create, Some id => Some id
                         | _, _ => selected_shape a
                         end
  /\ current_shape a' = match mode a with
                        | Create => None
                        | _ => current_shape a
                        end
  /\ d_init_rotate_angle (drag_data a') = None
  /\ d_init_shape_angle (drag_data a') = None
  /\ shapes a' = shapes a.
Proof.
  cbn zeta.
  destruct (kept_on_canvas_release dlg a) as [_ [Hsh _]].
  assert (C : (mode a = Create /\ exists id, current_shape a = Some id)
              \/ (mode a <> Create \/ current_shape a = None)).
  { destruct (mode a); try (right; left; discriminate).
    destruct (current_shape a) as [id |]; [left; eauto | right; now right]. }
  destruct C as [[Hm [id Hc]] | Ho].
  - destruct (on_canvas_release_create dlg a id Hm Hc) as [H1 [H2 [H3 H4]]].
    rewrite H1, H2, H3, H4, Hm, Hc. repeat split. exact Hsh.
  - rewrite (on_canvas_release_other dlg a Ho) in *.
    cbn [mode selected_shape current_shape drag_data set_mode set_drag_data
         d_init_rotate_angle d_init_shape_angle clear_d_rotation].
    repeat split; try exact Hsh.
    + destruct (mode a); try reflexivity.
      destruct Ho as [Ho | Ho]; [now destruct Ho | now rewrite Ho].
    + destruct (mode a); try reflexivity.
      destruct Ho as [Ho | Ho]; [now destruct Ho | now rewrite Ho].
Qed.

(** Deleting the selected shape takes its primitive and its handles off
    the canvas and nothing else, and adds nothing; the object keeps its
    attributes and has no handles left. *)
Theorem delete_removes_primitives (a : App) (id : nat) (shp : Shape.t) :
  selected_shape a = Some id ->
  deref a id = Some shp ->
  let a' := delete_selected_shape a in
  let gone := match Shape.item shp with
              | Some it => [it]
              | None => []
              end ++ map snd (Shape.handles shp) in
  Canvas.ids (canvas a')
  = filter (fun j => negb (among gone j)) (Canvas.ids (canvas a))
  /\ deref a' id = Some (Shape.set_handles [] shp).
Proof.
  intros Hs Hd. cbn zeta. unfold delete_selected_shape. rewrite Hs, Hd.
  set (a1 := set_canvas (Canvas.delete_opt (Shape.item shp) (canvas a)) a).
  assert (Hd1 : deref a1 id = Some shp) by exact Hd.
  cbn [canvas set_selected_shape set_shapes].
  change (deref (set_selected_shape None (set_shapes ?l ?x)) id) with (deref x id).
  split.
  - rewrite (call_at _ _ _ _ Hd1). cbn [canvas set_canvas snd Shape.delete_handles].
    rewrite ids_delete_all. unfold a1. cbn [canvas set_canvas].
    destruct (Shape.item shp) as [it |]; cbn [Canvas.delete_opt app].
    + rewrite ids_delete, filter_filter_and. apply filter_ext. intros j.
      unfold among. cbn [existsb]. now rewrite negb_orb.
    + reflexivity.
  - rewrite (deref_call_eq _ _ _ _ Hd1). reflexivity.
Qed.

Lemma delete_removes_primitives_witness :
  Canvas.ids (canvas rectangle_selected) = [1; 2; 3]%nat
  /\ Canvas.ids (canvas (delete_selected_shape rectangle_selected)) = [].
Proof.
  assert (Hd : exists shp, deref rectangle_selected 0 = Some shp
                           /\ Shape.item shp = Some 1%nat
                           /\ map snd (Shape.handles shp) = [2; 3]%nat).
  { eexists. split; [ev; reflexivity |]. split; ev; reflexivity. }
  destruct Hd as [shp [Hd [Hit Hh]]].
  assert (Hids : Canvas.ids (canvas rectangle_selected) = [1; 2; 3]%nat)
    by (ev; reflexivity).
  split; [exact Hids |].
  destruct (delete_removes_primitives rectangle_selected 0 shp) as [H _].
  - ev. reflexivity.
  - exact Hd.
  - rewrite H, Hit, Hh, Hids. reflexivity.
Defined.

Lemma deselect_all_at (a : App) (id : nat) (shp : Shape.t) :
  deref a id = Some shp ->
  exists shp0,
    deref (deselect_all a) id = Some shp0
    /\ Shape.body shp0 = Shape.body shp
    /\ Shape.item shp0 = Shape.item shp.
Proof.
  intros Hd. unfold deselect_all.
  change (deref (set_selected_shape None ?x) id) with (deref x id).
  destruct (selected_shape a) as [sid |]; [| eauto].
  destruct (Nat.eq_dec sid id) as [-> | Hne].
  - eexists. split; [apply (deref_call_eq _ _ _ _ Hd) |]. split; reflexivity.
  - exists shp. rewrite deref_call_ne by exact Hne. auto.
Qed.

Lemma deselect_all_none (a : App) (id : nat) :
  deref a id = None -> deref (deselect_all a) id = None.
Proof.
  intros Hd. unfold deselect_all.
  change (deref (set_selected_shape None ?x) id) with (deref x id).
  destruct (selected_shape a) as [sid |]; [| exact Hd].
  destruct (Nat.eq_dec sid id) as [-> | Hne].
  - unfold call. now rewrite Hd.
  - now rewrite deref_call_ne.
Qed.

(** Dropping the selection changes no hit test. *)
Lemma hits_deselect_all (a : App) (cx cy : R) (id : nat) :
  hits (deselect_all a) cx cy id = hits a cx cy id.
Proof.
  unfold hits. destruct (deref a id) as [shp |] eqn:Hd.
  - destruct (deselect_all_at a id shp Hd) as [shp0 [-> [Hb _]]].
    unfold Shape.contains_point. now rewrite Hb.
  - now rewrite deselect_all_none.
Qed.

Lemma find_ext_all {A : Type} (f g : A -> bool) (l : list A) :
  (forall x, f x = g x) -> find f l = find g l.
Proof.
  intros H. induction l as [| x l IH]; cbn; [reflexivity |].
  now rewrite H, IH.
Qed.

Lemma selected_add_handle name bb st (sc : Shape.t * Canvas.t) :
  Shape.selected (fst (Shape.add_handle name bb st sc)) = Shape.selected (fst sc).
Proof. destruct bb as [[[x1 y1] x2] y2]. reflexivity. Qed.

Lemma select_shape_at (a : App) (id : nat) (shp : Shape.t) :
  deref a id = Some shp ->
  exists shp',
    deref (select_shape id a) id = Some shp'
    /\ Shape.selected shp' = true
    /\ geometry (Shape.body shp') = geometry (Shape.body shp).
Proof.
  intros Hd. destruct (select_shape_canvas_only id a) as [c ->].
  destruct (deselect_all_at a id shp Hd) as [shp0 [Hd0 [Hb0 _]]].
  assert (Hd1 : deref (set_selected_shape (Some id) (deselect_all a)) id = Some shp0)
    by exact Hd0.
  eexists. split; [rewrite deref_set_canvas; apply (deref_call_eq _ _ _ _ Hd1) |].
  split.
  - unfold Shape.select, Shape.draw_handles.
    cbn [Shape.body Shape.set_selected].
    destruct (Shape.body shp0) as [r | ci | h | l | t];
      rewrite ?selected_add_handle; try reflexivity.
    destruct (TextShape.bbox t) as [[[[x1 y1] x2] y2] |]; reflexivity.
  - unfold Shape.select. rewrite geometry_draw_handles. cbn. now rewrite Hb0.
Qed.

Lemma geometry_edit_text (dlg : option string) (s1 s2 : Shape.t) :
  geometry (Shape.body s1) = geometry (Shape.body s2) ->
  geometry (Shape.body (Shape.edit_text dlg s1))
  = geometry (Shape.body (Shape.edit_text dlg s2)).
Proof.
  unfold Shape.edit_text.
  destruct (Shape.body s1) as [r1 | c1 | h1 | l1 | t1] eqn:B1,
           (Shape.body s2) as [r2 | c2 | h2 | l2 | t2] eqn:B2;
    cbn; intros H; try discriminate; rewrite ?B1, ?B2; try exact H.
  destruct dlg as [txt |]; cbn; rewrite ?B1, ?B2; cbn; [| exact H].
  inversion H; subst. reflexivity.
Qed.

Lemma create_shape_at_tool (cx cy : R) (a : App) :
  current_tool (create_shape_at cx cy a) = current_tool a.
Proof.
  unfold create_shape_at, alloc. cbn [set_mode heap].
  set (a2 := set_shapes _ _).
  destruct (call_frame (List.length (heap a)) Shape.draw a2)
    as [_ [_ [_ [_ [_ [F6 _]]]]]].
  cbn [current_tool set_drag_data]. now rewrite F6.
Qed.

(** Choosing a drawing tool, pressing where no shape is and releasing
    always creates a shape, whatever was selected and whatever the mode
    was: the new object is appended to the shape sequence, it is selected,
    the mode is "edit", and it has the default attributes of its class at
    the point pressed, a text getting the content that the dialog opened
    by the release returns. *)
Theorem drawing_tool_press_release_creates
    (t : Tool) (cx cy : R) (dlg : option string) (a : App) :
  is_drawing_tool t = true ->
  shape_under cx cy a = None ->
  let n := List.length (heap a) in
  let a' := run [SetTool t; Click cx cy; Release dlg] a in
  mode a' = Edit
  /\ selected_shape a' = Some n
  /\ current_shape a' = None
  /\ shapes a' = shapes a ++ [n]
  /\ exists shp,
       deref a' n = Some shp
       /\ geometry (Shape.body shp)
          = geometry (Shape.body
                        match t with
                        | ToolText => Shape.edit_text dlg (new_shape t cx cy)
                        | _ => new_shape t cx cy
                        end).
Proof.
  intros Ht Hu n a'. subst a'. unfold run. cbn [fold_left handle state_of].
  set (b := set_tool t a).
  destruct (deselect_all_frame (set_current_tool t a))
    as [D1 [_ [D3 [_ [_ [D6 [_ D8]]]]]]].
  assert (Hsel : selected_shape b = None)
    by (unfold b, set_tool; cbn [selected_shape set_mode]; exact D1).
  assert (Hmode : mode b = Idle) by (unfold b, set_tool; reflexivity).
  assert (Htool : current_tool b = t)
    by (unfold b, set_tool; cbn [current_tool set_mode]; rewrite D6; reflexivity).
  assert (Hshapes : shapes b = shapes a)
    by (unfold b, set_tool; cbn [shapes set_mode]; rewrite D3; reflexivity).
  assert (Hheap : List.length (heap b) = n)
    by (unfold b, set_tool; cbn [heap set_mode]; rewrite D8; reflexivity).
  assert (Hub : shape_under cx cy b = None).
  { unfold shape_under. rewrite Hshapes. rewrite <- Hu. unfold shape_under.
    apply find_ext_all. intros id.
    apply (hits_deselect_all (set_current_tool t a)). }
  assert (Hc : on_canvas_click cx cy b = Done (create_shape_at cx cy b)).
  { rewrite click_cases. unfold click_selected_handles.
    rewrite Hsel, Hub, Hmode, Htool, Ht. reflexivity. }
  rewrite Hc. cbn [state_of].
  destruct (create_shape_at_spec cx cy b) as [C1 [C2 [C3 [_ [_ [shp0 [C6 C7]]]]]]].
  rewrite Hheap, Htool in *. rewrite Hshapes in C2.
  set (c := create_shape_at cx cy b) in *.
  destruct (on_canvas_release_create dlg c n C1 C3) as [R1 [R2 [R3 _]]].
  destruct (kept_on_canvas_release dlg c) as [_ [R4 _]].
  split; [exact R1 |]. split; [exact R2 |]. split; [exact R3 |].
  split; [now rewrite R4 |].
  unfold on_canvas_release.
  set (c0 := set_drag_data (clear_d_rotation (drag_data c)) c).
  change (mode c0) with (mode c). change (current_shape c0) with (current_shape c).
  rewrite C1, C3.
  change (deref (set_current_shape None ?x) n) with (deref x n).
  assert (Hd0 : deref c0 n = Some shp0) by exact C6.
  destruct (select_shape_at c0 n shp0 Hd0) as [shp1 [S1 [_ S3]]].
  destruct (select_shape_frame n c0) as [_ [_ [_ [_ [_ [S6 _]]]]]].
  set (c1 := set_mode Edit (select_shape n c0)).
  assert (Hd1 : deref c1 n = Some shp1) by exact S1.
  assert (Htool1 : current_tool c1 = t).
  { unfold c1. cbn [current_tool set_mode]. rewrite S6.
    unfold c0. cbn [current_tool set_drag_data]. unfold c.
    rewrite create_shape_at_tool. exact Htool. }
  rewrite Htool1.
  destruct t; try discriminate Ht;
    try (exists shp1; split; [exact Hd1 | now rewrite S3, C7]).
  rewrite Hd1.
  destruct (redraw_at n (store n (Shape.edit_text dlg shp1) c1)
              (Shape.edit_text dlg shp1)) as [shp2 [Hd2 G2]].
  { eapply deref_store_eq; eauto. }
  exists shp2. split; [exact Hd2 |]. rewrite G2.
  apply geometry_edit_text. now rewrite S3, C7.
Qed.

Lemma drawing_tool_press_release_creates_witness :
  let a' := run [SetTool ToolCircle; Click 400 400; Release None] rectangle_selected in
  mode a' = Edit
  /\ selected_shape a' = Some 1%nat
  /\ shapes a' = [0; 1]%nat.
Proof.
  destruct (drawing_tool_press_release_creates ToolCircle 400 400 None
              rectangle_selected) as [H1 [H2 [_ [H4 _]]]].
  - reflexivity.
  - evd. reflexivity.
  - cbv zeta. split; [exact H1 |].
    assert (Hn : List.length (heap rectangle_selected) = 1%nat) by (ev; reflexivity).
    assert (Hs : shapes rectangle_selected = [0%nat]) by (ev; reflexivity).
    rewrite Hn in H2, H4. rewrite Hs in H4. split; [exact H2 | exact H4].
Defined.

(** ** Text editing and double click *)

(** The attributes of the text [t] with the content the dialog returns, the
    cached box left out. *)
Definition with_text (dlg : option string) (t : TextShape.t) : Body :=
  Txt (TextShape.mk (TextShape.base_x t) (TextShape.base_y t)
         (TextShape.base_font_size t) (TextShape.x t) (TextShape.y t)
         match dlg with
         | Some s => s
         | None => TextShape.text t
         end
         (TextShape.font_size t) (TextShape.angle t) None).

Lemma with_text_geometry (dlg : option string) (t t' : TextShape.t) :
  geometry (Txt t') = geometry (Txt t) -> with_text dlg t' = with_text dlg t.
Proof.
  destruct t, t'. cbn. intros H. inversion H; subst. reflexivity.
Qed.

Lemma edit_text_shape_at (dlg : option string) (a : App) (id : nat)
    (shp : Shape.t) (t : TextShape.t) :
  selected_shape a = Some id ->
  deref a id = Some shp ->
  Shape.body shp = Txt t ->
  exists shp',
    deref (edit_text_shape dlg a) id = Some shp'
    /\ geometry (Shape.body shp') = with_text dlg t
    /\ selected_shape (edit_text_shape dlg a) = Some id
    /\ mode (edit_text_shape dlg a) = mode a.
Proof.
  intros Hs Hd Hb. unfold edit_text_shape. rewrite Hs, Hd, Hb.
  destruct (redraw_at id (store id (Shape.edit_text dlg shp) a) (Shape.edit_text dlg shp))
    as [shp' [Hd' Hg]].
  { eapply deref_store_eq; eauto. }
  destruct (redraw_frame id (store id (Shape.edit_text dlg shp) a))
    as [R1 [R2 _]].
  unfold redraw in Hd', R1, R2.
  exists shp'. split; [exact Hd' |]. split.
  - rewrite Hg. unfold Shape.edit_text. rewrite Hb.
    destruct dlg; cbn; rewrite ?Hb; reflexivity.
  - rewrite R1, R2. cbn. auto.
Qed.

(** [edit_text_shape] acts on a selected text only: its content becomes
    what the dialog returns (it stays if the dialog is closed otherwise),
    and position, font size, base attributes, selection and mode stay.
    With any other shape selected nothing changes. *)
Theorem edit_text_shape_changes_content
    (dlg : option string) (a : App) (id : nat) (shp : Shape.t) :
  selected_shape a = Some id ->
  deref a id = Some shp ->
  match Shape.body shp with
  | Txt t =>
      exists shp',
        deref (edit_text_shape dlg a) id = Some shp'
        /\ geometry (Shape.body shp') = with_text dlg t
        /\ selected_shape (edit_text_shape dlg a) = Some id
        /\ mode (edit_text_shape dlg a) = mode a
  | _ => edit_text_shape dlg a = a
  end.
Proof.
  intros Hs Hd. destruct (Shape.body shp) as [r | c | h | l | t] eqn:Hb;
    try (unfold edit_text_shape; rewrite Hs, Hd, Hb; reflexivity).
  now apply (edit_text_shape_at dlg a id shp t).
Qed.

Lemma edit_text_shape_changes_content_witness :
  exists shp',
    deref (edit_text_shape (Some "B") text_selected) 0 = Some shp'
    /\ geometry (Shape.body shp')
       = Txt (TextShape.mk 100 100 (IZR 20) 100 100 "B" 20 0 None).
Proof.
  assert (Hd : exists shp,
             deref text_selected 0 = Some shp
             /\ geometry (Shape.body shp)
                = Txt (TextShape.mk 100 100 (IZR 20) 100 100 "A" 20 0 None)).
  { eexists. split; [ev; reflexivity | ev; reflexivity]. }
  destruct Hd as [shp [Hd Hg]].
  pose proof (edit_text_shape_changes_content (Some "B") text_selected 0 shp) as H.
  destruct (Shape.body shp) as [r | c | h | l | t]; try discriminate Hg.
  destruct H as [shp' [H1 [H2 _]]].
  - ev. reflexivity.
  - exact Hd.
  - exists shp'. split; [exact H1 |]. rewrite H2.
    destruct t. cbn in Hg. inversion Hg; subst. reflexivity.
Defined.

(** The first text of the shape sequence, in creation order, whose cached
    box contains the point. *)
Definition text_under (cx cy : R) (a : App) : option nat :=
  find (fun id =>
          match deref a id with
          | Some shp =>
              match Shape.body shp with
              | Txt t => TextShape.contains_point t cx cy
              | _ => false
              end
          | None => false
          end) (shapes a).

Lemma double_click_loop_spec (ids : list nat) (cx cy : R) (dlg : option string)
    (a : App) :
  double_click_loop ids cx cy dlg a
  = match find (fun id =>
                  match deref a id with
                  | Some shp =>
                      match Shape.body shp with
                      | Txt t => TextShape.contains_point t cx cy
                      | _ => false
                      end
                  | None => false
                  end) ids with
    | Some id =>
        edit_text_shape dlg
          (call id Shape.select (set_selected_shape (Some id) (deselect_all a)))
    | None => a
    end.
Proof.
  induction ids as [| id ids IH]; cbn; [reflexivity |].
  destruct (deref a id) as [shp |]; [| exact IH].
  destruct (Shape.body shp); try exact IH.
  destruct (TextShape.contains_point t cx cy); [reflexivity | exact IH].
Qed.

(** A double click acts on texts only, and on the oldest text under the
    point, not the newest as a pointer-down does: that text is selected
    and its content becomes what the dialog returns, its other attributes
    staying.  If no text is under the point nothing changes.  In both
    cases the mode and the shape sequence stay. *)
Theorem double_click_edits_oldest_text
    (cx cy : R) (dlg : option string) (a : App) :
  let a' := on_double_click cx cy dlg a in
  mode a' = mode a
  /\ shapes a' = shapes a
  /\ match text_under cx cy a with
     | Some id =>
         selected_shape a' = Some id
         /\ exists shp t shp',
              deref a id = Some shp /\ Shape.body shp = Txt t
              /\ deref a' id = Some shp'
              /\ geometry (Shape.body shp') = with_text dlg t
     | None => a' = a
     end.
Proof.
  cbn zeta. unfold on_double_click, text_under.
  rewrite double_click_loop_spec.
  destruct (find _ (shapes a)) as [id |] eqn:Hf; [| auto].
  apply find_some in Hf. destruct Hf as [_ Hf].
  destruct (deref a id) as [shp |] eqn:Hd; [| discriminate].
  destruct (Shape.body shp) as [r | c | h | l | t] eqn:Hb; try discriminate.
  set (a1 := call id Shape.select (set_selected_shape (Some id) (deselect_all a))).
  destruct (deselect_all_at a id shp Hd) as [shp0 [Hd0 [Hb0 _]]].
  assert (Hd0' : deref (set_selected_shape (Some id) (deselect_all a)) id = Some shp0)
    by exact Hd0.
  pose proof (deref_call_eq id Shape.select _ _ Hd0') as Hd1. fold a1 in Hd1.
  set (shp1 := fst (Shape.select shp0 _)) in Hd1.
  assert (Hg1 : geometry (Shape.body shp1) = geometry (Txt t)).
  { unfold shp1, Shape.select. rewrite geometry_draw_handles. cbn.
    now rewrite Hb0, Hb. }
  destruct (Shape.body shp1) as [r1 | c1 | h1 | l1 | t1] eqn:Hb1;
    try discriminate Hg1.
  destruct (call_frame id Shape.select (set_selected_shape (Some id) (deselect_all a)))
    as [F1 [F2 [_ [_ [F5 _]]]]].
  destruct (deselect_all_frame a) as [_ [G2 [G3 _]]].
  fold a1 in F1, F2, F5.
  cbn [mode selected_shape shapes set_selected_shape] in F1, F2, F5.
  destruct (edit_text_shape_at dlg a1 id shp1 t1 F2 Hd1 Hb1)
    as [shp' [E1 [E2 [E3 E4]]]].
  destruct (kept_edit_text_shape dlg a1) as [_ [K2 _]].
  split; [congruence |]. split; [congruence |].
  split; [exact E3 |].
  exists shp, t, shp'. split; [reflexivity |]. split; [exact Hb |].
  split; [exact E1 |]. rewrite E2. now apply with_text_geometry.
Qed.

(** ** Zoom reset *)

(** The displayed sizes of a shape and the base ones. *)
Definition size (b : Body) : list R :=
  match b with
  | Rect r => [RectangleShape.width r; RectangleShape.height r]
  | Circ c => [CircleShape.radius c]
  | Hour h => [HourglassShape.width h; HourglassShape.height h]
  | Lin l => []
  | Txt t => [IZR (TextShape.font_size t)]
  end.

Definition base_size (b : Body) : list R :=
  match b with
  | Rect r => [RectangleShape.base_width r; RectangleShape.base_height r]
  | Circ c => [CircleShape.base_radius c]
  | Hour h => [HourglassShape.base_width h; HourglassShape.base_height h]
  | Lin l => []
  | Txt t => [TextShape.base_font_size t]
  end.

Lemma py_int_IZR (n : Z) : py_int (IZR n) = n.
Proof.
  assert (K : forall z, Int_part (IZR z) = z)
    by (intros z; symmetry; apply Int_part_spec; lra).
  unfold py_int. destruct (Rle_dec 0 (IZR n)) as [H | H].
  - rewrite Rleb_true by exact H. apply K.
  - rewrite Rleb_false by lra. rewrite <- opp_IZR, K. lia.
Qed.

(** [reset_zoom] sets the zoom level to 1 and shows every shape of the
    sequence at its base attributes: the displayed position and sizes
    become the base ones, which stay, the font size of a text being the
    base font size truncated, so the base font size itself when that is a
    whole number. *)
Theorem reset_zoom_shows_base (a : App) (id : nat) (shp : Shape.t) :
  In id (shapes a) -> deref a id = Some shp ->
  exists shp',
    deref (reset_zoom a) id = Some shp'
    /\ zoom_level (reset_zoom a) = 1
    /\ position (Shape.body shp') = base_position (Shape.body shp)
    /\ base_position (Shape.body shp') = base_position (Shape.body shp)
    /\ base_size (Shape.body shp') = base_size (Shape.body shp)
    /\ size (Shape.body shp')
       = match Shape.body shp with
         | Txt t => [IZR (py_int (TextShape.base_font_size t))]
         | b => base_size b
         end
    /\ forall t n, Shape.body shp = Txt t -> TextShape.base_font_size t = IZR n ->
                   size (Shape.body shp') = [IZR n].
Proof.
  intros Hin Hd. unfold reset_zoom.
  destruct (apply_zoom_scales (set_zoom_level 1.0 a) id shp Hin Hd)
    as [shp' [Hd' D]].
  exists shp'. split; [exact Hd' |].
  split; [rewrite apply_zoom_zoom_level; cbn; lra |].
  cbn [zoom_level set_zoom_level] in D.
  assert (E : forall v : R, v * 1.0 = v) by (intros v; lra).
  destruct (Shape.body shp) as [r | c | h | l | t],
           (Shape.body shp') as [r' | c' | h' | l' | t'];
    cbn in D; try contradiction; cbn;
    repeat match goal with
           | H : _ /\ _ |- _ => destruct H
           end;
    repeat match goal with
           | H : _ = _ * 1.0 |- _ => rewrite E in H
           | H : _ = py_int (_ * 1.0) |- _ => rewrite E in H
           end;
    repeat split; try congruence.
  intros t0 n Ht Hn. inversion Ht; subst t0.
  rewrite <- (py_int_IZR n), <- Hn. congruence.
Qed.

Lemma reset_zoom_shows_base_witness :
  exists shp',
    deref (reset_zoom one_text_9) 0 = Some shp'
    /\ zoom_level (reset_zoom one_text_9) = 1
    /\ position (Shape.body shp') = [10; 10]
    /\ size (Shape.body shp') = [IZR 9].
Proof.
  destruct (reset_zoom_shows_base one_text_9 0
              (Shape.init (Txt (TextShape.mk 10 10 9 10 10 "A" 9 0 None))))
    as [shp' [H1 [H2 [H3 [_ [_ [_ H7]]]]]]].
  - simpl. left. reflexivity.
  - reflexivity.
  - exists shp'. split; [exact H1 |]. split; [exact H2 |].
    split; [exact H3 |].
    apply (H7 (TextShape.mk 10 10 9 10 10 "A" 9 0 None) 9%Z); reflexivity.
Defined.

(** ** The even-odd test *)

(** A point at or below the lowest vertex of a polygon, or above the
    highest one, is outside: no edge straddles its height, so the parity
    never flips and no division is made. *)
Theorem point_in_polygon_outside_band (px py : R) (coords : list R) :
  (forall i, (i < Nat.div (List.length coords) 2)%nat ->
             nth (2 * i + 1) coords 0 <= py)
  \/ (forall i, (i < Nat.div (List.length coords) 2)%nat ->
                py < nth (2 * i + 1) coords 0) ->
  _point_in_polygon px py coords = Val false.
Proof.
  intros H. unfold _point_in_polygon.
  set (n := Nat.div (List.length coords) 2) in *.
  assert (L : forall idxs inside,
             Forall (fun i => (i < n)%nat) idxs ->
             _point_in_polygon_loop px py coords n idxs inside = Val inside).
  { induction idxs as [| i idxs IH]; intros inside Hf; [reflexivity |].
    inversion Hf as [| ? ? Hi Hr]; subst. cbn [_point_in_polygon_loop].
    assert (Hj : ((i + 1) mod n < n)%nat) by (apply Nat.mod_upper_bound; lia).
    assert (E : _point_in_polygon_edge px py coords n i inside = Val inside).
    { unfold _point_in_polygon_edge. destruct H as [H | H].
      - rewrite (Rltb_false py (nth (2 * i + 1) coords 0)) by (apply H; exact Hi).
        rewrite (Rltb_false py (nth (2 * ((i + 1) mod n) + 1) coords 0))
          by (apply H; exact Hj).
        reflexivity.
      - rewrite (Rltb_true py (nth (2 * i + 1) coords 0)) by (apply H; exact Hi).
        rewrite (Rltb_true py (nth (2 * ((i + 1) mod n) + 1) coords 0))
          by (apply H; exact Hj).
        reflexivity. }
    rewrite E. cbn [bind]. now apply IH. }
  apply L. apply Forall_forall. intros i Hi. apply in_seq in Hi. lia.
Qed.

Lemma point_in_polygon_outside_band_witness :
  _point_in_polygon 5 20 [0; 0; 10; 0; 10; 10; 0; 10] = Val false.
Proof.
  apply (point_in_polygon_outside_band 5 20 [0; 0; 10; 0; 10; 10; 0; 10]).
  left. intros i Hi. simpl in Hi.
  destruct i as [| [| [| [| i]]]]; simpl; try lra. lia.
Defined.

(** ** Loading an image keeps the shapes where they are *)

Lemma reload_shape_frame (a : App) (i : nat) :
  zoom_level (reload_shape a i) = zoom_level a
  /\ shapes (reload_shape a i) = shapes a
  /\ original_image (reload_shape a i) = original_image a
  /\ base_canvas_width (reload_shape a i) = base_canvas_width a
  /\ base_canvas_height (reload_shape a i) = base_canvas_height a.
Proof.
  unfold reload_shape. destruct (deref a i) as [shp |]; [| repeat split].
  repeat match goal with
         | |- context [let (_, _) := ?e in _] => destruct e
         end.
  repeat split.
Qed.

Lemma reload_shape_geometry (a : App) (i id : nat) (shp : Shape.t) :
  deref a id = Some shp ->
  exists shp',
    deref (reload_shape a i) id = Some shp'
    /\ geometry (Shape.body shp') = geometry (Shape.body shp).
Proof.
  intros Hd. unfold reload_shape.
  destruct (Nat.eq_dec i id) as [-> | Hne].
  - rewrite Hd.
    destruct (match Shape.item_truthy shp with
              | Some it => (Shape.set_item None shp, Canvas.delete it (canvas a))
              | None => (shp, canvas a)
              end) as [shp2 c2] eqn:E2.
    assert (Hb2 : Shape.body shp2 = Shape.body shp)
      by (destruct (Shape.item_truthy shp); inversion E2; reflexivity).
    destruct (Shape.draw shp2 c2) as [shp3 c3] eqn:E3.
    assert (Hb3 : geometry (Shape.body shp3) = geometry (Shape.body shp)).
    { rewrite <- Hb2. change shp3 with (fst (shp3, c3)). rewrite <- E3.
      apply geometry_draw. }
    destruct (if Shape.selected shp3 then Shape.draw_handles shp3 c3 else (shp3, c3))
      as [shp4 c4] eqn:E4.
    exists shp4. split.
    + rewrite deref_set_canvas. eapply deref_store_eq; eauto.
    + rewrite <- Hb3. destruct (Shape.selected shp3).
      * change shp4 with (fst (shp4, c4)). rewrite <- E4.
        apply geometry_draw_handles.
      * inversion E4. reflexivity.
  - exists shp. split; [| reflexivity].
    destruct (deref a i) as [s |]; [| exact Hd].
    repeat match goal with
           | |- context [let (_, _) := ?e in _] => destruct e
           end.
    rewrite deref_set_canvas. rewrite deref_store_ne by exact Hne. exact Hd.
Qed.

Lemma reload_all_spec (ids : list nat) (a : App) (id : nat) (shp : Shape.t) :
  deref a id = Some shp ->
  let a' := fold_left reload_shape ids a in
  zoom_level a' = zoom_level a
  /\ shapes a' = shapes a
  /\ original_image a' = original_image a
  /\ base_canvas_width a' = base_canvas_width a
  /\ base_canvas_height a' = base_canvas_height a
  /\ exists shp',
       deref a' id = Some shp'
       /\ geometry (Shape.body shp') = geometry (Shape.body shp).
Proof.
  revert a shp. induction ids as [| i ids IH]; intros a shp Hd; cbn.
  - repeat split. eauto.
  - destruct (reload_shape_geometry a i id shp Hd) as [shp1 [Hd1 G1]].
    destruct (reload_shape_frame a i) as [F1 [F2 [F3 [F4 F5]]]].
    destruct (IH _ _ Hd1) as [H1 [H2 [H3 [H4 [H5 [shp' [Hd' G']]]]]]].
    repeat split; try congruence.
    exists shp'. split; [exact Hd' | congruence].
Qed.

(** [load_image] sets the zoom level back to 1 but draws every shape again
    where it is displayed: no displayed or base attribute changes.  So
    shapes that were shown at their base attributes times a zoom level
    other than 1 are, after the load, not at their base attributes times
    the zoom level.  The base canvas size becomes the size of the image. *)
Theorem load_image_keeps_displayed
    (w h : Z) (a : App) (id : nat) (shp : Shape.t) :
  deref a id = Some shp ->
  let a' := load_image (Some (w, h)) a in
  zoom_level a' = 1
  /\ shapes a' = shapes a
  /\ original_image a' = Some (w, h)
  /\ base_canvas_width a' = w /\ base_canvas_height a' = h
  /\ exists shp',
       deref a' id = Some shp'
       /\ position (Shape.body shp') = position (Shape.body shp)
       /\ base_position (Shape.body shp') = base_position (Shape.body shp)
       /\ extent (Shape.body shp') = extent (Shape.body shp).
Proof.
  intros Hd. cbn zeta. unfold load_image.
  destruct (Canvas.create (Canvas.Image w h) _) as [img c2].
  set (a1 := mkApp _ _ _ _ _ _ _ _ _ _ _ _ _ _ _).
  assert (Hd1 : deref a1 id = Some shp) by exact Hd.
  destruct (reload_all_spec (shapes a1) a1 id shp Hd1)
    as [H1 [H2 [H3 [H4 [H5 [shp' [Hd' G]]]]]]].
  destruct (position_geometry _ _ G) as [P1 [P2 P3]].
  split; [rewrite H1; cbn; lra |].
  split; [rewrite H2; reflexivity |].
  split; [rewrite H3; reflexivity |].
  split; [rewrite H4; reflexivity |].
  split; [rewrite H5; reflexivity |].
  exists shp'. auto.
Qed.

(** A rectangle with base center (10, 20), shown at zoom 2 at (20, 40). *)
Definition rectangle_at_zoom_2 : App :=
  mkApp (Canvas.empty no_metrics)
        [Shape.init (Rect (RectangleShape.mk 10 20 100 60 20 40 200 120 0))]
        [0%nat] None ToolSelect None Idle no_drag 2 None None 800 600 800 600.

Lemma load_image_keeps_displayed_witness :
  let a' := load_image (Some (640, 480)%Z) rectangle_at_zoom_2 in
  zoom_level a' = 1
  /\ exists shp',
       deref a' 0 = Some shp'
       /\ position (Shape.body shp') = [20; 40]
       /\ base_position (Shape.body shp') = [10; 20].
Proof.
  destruct (load_image_keeps_displayed 640 480 rectangle_at_zoom_2 0
              (Shape.init (Rect (RectangleShape.mk 10 20 100 60 20 40 200 120 0))))
    as [H1 [_ [_ [_ [_ [shp' [Hd [P1 [P2 _]]]]]]]]].
  - reflexivity.
  - cbv zeta. split; [exact H1 |]. exists shp'. auto.
Defined.

(** ** A drag acts on the selected shape *)

(** The mode and the selection are those of [a], and so is every shape
    object but [id]. *)
Definition others_kept (id : nat) (a a' : App) : Prop :=
  mode a' = mode a
  /\ selected_shape a' = selected_shape a
  /\ forall id', id' <> id -> deref a' id' = deref a id'.

Lemma others_kept_refl (id : nat) (a : App) : others_kept id a a.
Proof. repeat split. Qed.

Lemma others_kept_set_drag_data (id : nat) (d : DragData) (a b : App) :
  others_kept id a b -> others_kept id a (set_drag_data d b).
Proof. intros H. exact H. Qed.

Lemma others_kept_after_store (id : nat) (s : Shape.t) (a b : App) :
  others_kept id a b -> others_kept id a (store id s b).
Proof.
  intros [H1 [H2 H3]]. repeat split; [exact H1 | exact H2 |].
  intros id' Hne. rewrite deref_store_ne by congruence. now apply H3.
Qed.

Lemma others_kept_after_redraw (id : nat) (a b : App) :
  others_kept id a b -> others_kept id a (redraw id b).
Proof.
  intros [H1 [H2 H3]]. destruct (redraw_frame id b) as [R1 [R2 _]].
  repeat split; [congruence | congruence |].
  intros id' Hne. rewrite redraw_other by congruence. now apply H3.
Qed.

Ltac others_kept_tac :=
  cbn [state_of];
  repeat first [ apply others_kept_refl
               | apply others_kept_set_drag_data
               | apply others_kept_after_redraw
               | apply others_kept_after_store ].

Lemma others_kept_on_canvas_drag (cx cy : R) (a : App) (id : nat) :
  selected_shape a = Some id ->
  others_kept id a (state_of (on_canvas_drag cx cy a)).
Proof.
  intros Hs. unfold on_canvas_drag, drag_move, drag_resize, drag_rotate.
  cbv zeta. rewrite Hs. repeat break_match; others_kept_tac.
Qed.

(** Whatever the mode, and whether or not it raises, a drag leaves the
    mode, the selection and every shape object other than the selected one
    as they are; in particular it never moves the shape being created,
    which is not the selected one. *)
Theorem drag_changes_selected_shape_only (cx cy : R) (a : App) (id' : nat) :
  selected_shape a <> Some id' ->
  let a' := state_of (on_canvas_drag cx cy a) in
  deref a' id' = deref a id'
  /\ mode a' = mode a
  /\ selected_shape a' = selected_shape a
  /\ shapes a' = shapes a.
Proof.
  intros Hne. cbn zeta.
  destruct (kept_on_canvas_drag cx cy a) as [_ [Hsh _]].
  destruct (selected_shape a) as [id |] eqn:Hs.
  - destruct (others_kept_on_canvas_drag cx cy a id Hs) as [K1 [K2 K3]].
    rewrite Hs in K2. split; [apply K3; congruence |]. auto.
  - unfold on_canvas_drag. rewrite Hs. cbn. auto.
Qed.

Lemma drag_changes_selected_shape_only_witness :
  let a' := state_of (on_canvas_drag 120 120 circle_being_created) in
  deref a' 0 = deref circle_being_created 0
  /\ mode a' = mode circle_being_created
  /\ selected_shape a' = selected_shape circle_being_created
  /\ shapes a' = shapes circle_being_created.
Proof.
  apply (drag_changes_selected_shape_only 120 120 circle_being_created 0).
  ev. discriminate.
Defined.

(** ** Where a redraw puts a shape in the display list *)

(** Drawing a shape that has a primitive keeps the primitive and its place
    in the display list, except for a text: a text is deleted and created
    anew on every draw, so it gets a fresh identifier and goes to the top
    of the display list. *)
Theorem draw_keeps_place_unless_text (s : Shape.t) (c : Canvas.t) (it : nat) :
  Shape.item s = Some it ->
  match Shape.body s with
  | Txt _ =>
      Shape.item (fst (Shape.draw s c)) = Some (Canvas.next_id c)
      /\ Canvas.ids (snd (Shape.draw s c))
         = filter (fun j => negb (Nat.eqb j it)) (Canvas.ids c)
           ++ [Canvas.next_id c]
  | _ =>
      Shape.item (fst (Shape.draw s c)) = Some it
      /\ Canvas.ids (snd (Shape.draw s c)) = Canvas.ids c
  end.
Proof.
  intros Hit.
  assert (Hc : forall i o, Canvas.ids (Canvas.coords i o c) = Canvas.ids c).
  { intros i o. unfold Canvas.ids, Canvas.coords. cbn. rewrite map_map.
    apply map_ext. intros p. destruct (Nat.eqb (fst p) i) eqn:E; [| reflexivity].
    apply Nat.eqb_eq in E. now rewrite E. }
  unfold Shape.draw. destruct (Shape.body s) as [r | ci | h | l | t];
    rewrite Hit; cbn [fst snd]; try (split; [exact Hit | apply Hc]).
  cbn. split; [reflexivity |].
  unfold Canvas.ids. cbn. rewrite map_app. cbn. f_equal.
  apply (map_fst_filter (fun j => negb (Nat.eqb j it))).
Qed.

Lemma draw_keeps_place_unless_text_witness :
  Canvas.ids (snd (Shape.draw
                     (Shape.mk false [] (Some 1%nat)
                        (Txt (TextShape.init 10 10 "A" 20)))
                     (snd (Canvas.create (Canvas.Text 10 10 "A" 20)
                             (Canvas.empty no_metrics)))))
  = [2%nat].
Proof.
  destruct (draw_keeps_place_unless_text
              (Shape.mk false [] (Some 1%nat) (Txt (TextShape.init 10 10 "A" 20)))
              (snd (Canvas.create (Canvas.Text 10 10 "A" 20)
                      (Canvas.empty no_metrics))) 1) as [_ H].
  - reflexivity.
  - rewrite H. reflexivity.
Defined.

(** ** The handles of an hourglass *)

Lemma max_by_spec (key : R * R -> R) (l : list (R * R)) :
  forall best,
    In (max_by key best l) (best :: l)
    /\ forall q, In q (best :: l) -> key q <= key (max_by key best l).
Proof.
  induction l as [| p l IH]; intros best; cbn [max_by].
  - split; [now left |]. intros q [<- | []]. lra.
  - destruct (IH (if Rltb (key best) (key p) then p else best)) as [H1 H2].
    assert (Hb : key best <= key (if Rltb (key best) (key p) then p else best)
                 /\ key p <= key (if Rltb (key best) (key p) then p else best)).
    { destruct (Rlt_dec (key best) (key p)) as [Hlt | Hge].
      - rewrite Rltb_true by exact Hlt. lra.
      - rewrite Rltb_false by lra. lra. }
    split.
    + destruct H1 as [H1 | H1]; [| right; now right].
      rewrite <- H1. destruct (Rltb (key best) (key p)); [right |]; now left.
    + pose proof (H2 _ (or_introl eq_refl)) as H0.
      intros q [<- | [<- | Hq]]; [lra | lra |]. apply H2. now right.
Qed.

Lemma min_by_spec (key : R * R -> R) (l : list (R * R)) :
  forall best,
    In (min_by key best l) (best :: l)
    /\ forall q, In q (best :: l) -> key (min_by key best l) <= key q.
Proof.
  induction l as [| p l IH]; intros best; cbn [min_by].
  - split; [now left |]. intros q [<- | []]. lra.
  - destruct (IH (if Rltb (key p) (key best) then p else best)) as [H1 H2].
    assert (Hb : key (if Rltb (key p) (key best) then p else best) <= key best
                 /\ key (if Rltb (key p) (key best) then p else best) <= key p).
    { destruct (Rlt_dec (key p) (key best)) as [Hlt | Hge].
      - rewrite Rltb_true by exact Hlt. lra.
      - rewrite Rltb_false by lra. lra. }
    split.
    + destruct H1 as [H1 | H1]; [| right; now right].
      rewrite <- H1. destruct (Rltb (key p) (key best)); [right |]; now left.
    + pose proof (H2 _ (or_introl eq_refl)) as H0.
      intros q [<- | [<- | Hq]]; [lra | lra |]. apply H2. now right.
Qed.

(** The resize handle of an hourglass is centered on one of its four
    vertices, one whose abscissa is the largest; the rotate handle is
    centered 20 above a vertex whose ordinate is the smallest. *)
Theorem hourglass_handles_at_extreme_vertices (h : HourglassShape.t) :
  (exists p,
      In p (HourglassShape.pts h)
      /\ (forall q, In q (HourglassShape.pts h) -> fst q <= fst p)
      /\ HourglassShape.resize_handle h = handle_box (fst p) (snd p) 6)
  /\ (exists p,
         In p (HourglassShape.pts h)
         /\ (forall q, In q (HourglassShape.pts h) -> snd p <= snd q)
         /\ HourglassShape.rotate_handle h = handle_box (fst p) (snd p - 20) 6).
Proof.
  unfold HourglassShape.resize_handle, HourglassShape.rotate_handle.
  assert (Hp : exists p l, HourglassShape.pts h = p :: l).
  { unfold HourglassShape.pts, HourglassShape._get_coords, rotate_about.
    cbn [flat_map app pairs removelast]. eauto. }
  destruct Hp as [p [l ->]]. split.
  - destruct (max_by_spec fst l p) as [H1 H2]. eauto.
  - destruct (min_by_spec snd l p) as [H1 H2]. eauto.
Qed.

(** For an hourglass that is not rotated and has positive width and
    height, the resize handle is on the bottom right vertex and the rotate
    handle is 20 above the top left vertex, the first of the two top
    vertices in the order of [_get_coords]. *)
Theorem hourglass_handles_unrotated (h : HourglassShape.t) :
  HourglassShape.angle h = 0 ->
  0 < HourglassShape.width h -> 0 < HourglassShape.height h ->
  let x := HourglassShape.x h in
  let y := HourglassShape.y h in
  let w2 := HourglassShape.width h / 2 in
  let h2 := HourglassShape.height h / 2 in
  HourglassShape.resize_handle h = handle_box (x + w2) (y + h2) 6
  /\ HourglassShape.rotate_handle h = handle_box (x - w2) (y - h2 - 20) 6.
Proof.
  intros Ha Hw Hh x y w2 h2.
  unfold HourglassShape.resize_handle, HourglassShape.rotate_handle,
    HourglassShape.pts, HourglassShape._get_coords, rotate_about.
  rewrite Ha, radians_0, cos_0, sin_0.
  cbn [flat_map app pairs removelast max_by min_by fst snd].
  subst x y w2 h2.
  split; repeat (rdecide_one; cbn [max_by min_by fst snd]);
    apply handle_box_ext; lra.
Qed.

Lemma hourglass_handles_unrotated_witness :
  HourglassShape.resize_handle (HourglassShape.init 100 100 60 40 0)
  = handle_box (100 + 60 / 2) (100 + 40 / 2) 6
  /\ HourglassShape.rotate_handle (HourglassShape.init 100 100 60 40 0)
     = handle_box (100 - 60 / 2) (100 - 40 / 2 - 20) 6.
Proof.
  apply (hourglass_handles_unrotated (HourglassShape.init 100 100 60 40 0)).
  - reflexivity.
  - simpl. lra.
  - simpl. lra.
Defined.

(** ** At most one shape is marked as selected *)

(** Every shape of the sequence whose [selected] flag is set is the
    selected shape. *)
Definition marks_agree (a : App) : Prop :=
  forall id s,
    In id (shapes a) -> deref a id = Some s -> Shape.selected s = true ->
    selected_shape a = Some id.

(** No shape of the sequence has its flag set. *)
Definition unmarked (a : App) : Prop :=
  forall id s, In id (shapes a) -> deref a id = Some s -> Shape.selected s = false.

(** Every shape object but the one [o] refers to is as in [a]. *)
Definition touches_only (o : option nat) (a a' : App) : Prop :=
  forall id', o <> Some id' -> deref a' id' = deref a id'.

Lemma option_eq_dec_nat (o o' : option nat) : {o = o'} + {o <> o'}.
Proof. decide equality. apply Nat.eq_dec. Qed.

Lemma marks_agree_keep (a a' : App) :
  marks_agree a -> shapes a' = shapes a ->
  selected_shape a' = selected_shape a ->
  touches_only (selected_shape a) a a' -> marks_agree a'.
Proof.
  intros J Hsh Hsel Ht id s Hin Hd Hf. rewrite Hsel.
  destruct (option_eq_dec_nat (selected_shape a) (Some id)) as [E | E];
    [exact E |].
  rewrite (Ht id E) in Hd. rewrite Hsh in Hin. exact (J id s Hin Hd Hf).
Qed.

Lemma unmarked_marks_agree (b a' : App) (o : option nat) :
  unmarked b -> shapes a' = shapes b -> selected_shape a' = o ->
  touches_only o b a' -> marks_agree a'.
Proof.
  intros U Hsh Hsel Ht id s Hin Hd Hf. rewrite Hsel.
  destruct (option_eq_dec_nat o (Some id)) as [E | E]; [exact E |].
  rewrite (Ht id E) in Hd. rewrite Hsh in Hin.
  rewrite (U id s Hin Hd) in Hf. discriminate.
Qed.

Lemma deselect_all_touches (a : App) :
  touches_only (selected_shape a) a (deselect_all a).
Proof.
  intros id' Hne. unfold deselect_all.
  change (deref (set_selected_shape None ?x) id') with (deref x id').
  destruct (selected_shape a) as [g |]; [| reflexivity].
  apply deref_call_ne. congruence.
Qed.

Lemma deselect_all_unmarked (a : App) :
  marks_agree a -> unmarked (deselect_all a).
Proof.
  intros J id s Hin Hd.
  destruct (deselect_all_frame a) as [_ [_ [Hsh _]]]. rewrite Hsh in Hin.
  destruct (option_eq_dec_nat (selected_shape a) (Some id)) as [E | E].
  - unfold deselect_all in Hd. rewrite E in Hd.
    change (deref (set_selected_shape None ?x) id) with (deref x id) in Hd.
    destruct (deref a id) as [s0 |] eqn:Hd0.
    + rewrite (deref_call_eq _ _ _ _ Hd0) in Hd. inversion Hd. reflexivity.
    + unfold call in Hd. rewrite Hd0 in Hd. congruence.
  - rewrite (deselect_all_touches a id E) in Hd.
    destruct (Shape.selected s) eqn:Hf; [| reflexivity].
    destruct E. exact (J id s Hin Hd Hf).
Qed.

Lemma select_shape_touches (id : nat) (a : App) :
  touches_only (Some id) (deselect_all a) (select_shape id a).
Proof.
  intros id' Hne. destruct (select_shape_canvas_only id a) as [c ->].
  rewrite deref_set_canvas, deref_call_ne by congruence. reflexivity.
Qed.

Lemma marks_agree_select_shape (id : nat) (a : App) :
  marks_agree a -> marks_agree (select_shape id a).
Proof.
  intros J. destruct (select_shape_frame id a) as [S1 [_ [S3 _]]].
  destruct (deselect_all_frame a) as [_ [_ [D3 _]]].
  apply (unmarked_marks_agree (deselect_all a) _ (Some id)).
  - now apply deselect_all_unmarked.
  - congruence.
  - exact S1.
  - apply select_shape_touches.
Qed.

Lemma marks_agree_deselect_all (a : App) :
  marks_agree a -> marks_agree (deselect_all a).
Proof.
  intros J. apply (unmarked_marks_agree (deselect_all a) _ None).
  - now apply deselect_all_unmarked.
  - reflexivity.
  - apply deselect_all_frame.
  - intros id' _. reflexivity.
Qed.

Lemma edit_text_shape_touches (dlg : option string) (a : App) :
  selected_shape (edit_text_shape dlg a) = selected_shape a
  /\ touches_only (selected_shape a) a (edit_text_shape dlg a).
Proof.
  unfold edit_text_shape, touches_only.
  destruct (selected_shape a) as [id |] eqn:Hs; [| rewrite Hs; auto].
  destruct (deref a id) as [shp |]; [| rewrite Hs; auto].
  destruct (Shape.body shp); try (rewrite Hs; auto; fail).
  destruct (call_frame id Shape.draw_handles
              (call id Shape.draw (store id (Shape.edit_text dlg shp) a)))
    as [_ [F2 _]].
  destruct (call_frame id Shape.draw (store id (Shape.edit_text dlg shp) a))
    as [_ [G2 _]].
  split; [rewrite F2, G2; exact Hs |].
  intros id' Hne. rewrite !deref_call_ne by congruence.
  apply deref_store_ne. congruence.
Qed.

Lemma zoom_shape_marks (z : R) (a : App) (i id : nat) :
  option_map Shape.selected (deref (zoom_shape z a i) id)
  = option_map Shape.selected (deref a id).
Proof.
  destruct (Nat.eq_dec i id) as [-> | Hne];
    [| now rewrite zoom_shape_other].
  unfold zoom_shape. destruct (deref a id) as [shp |] eqn:Hd;
    [| now rewrite Hd].
  set (shp1 := Shape.set_body (zoom_body z (Shape.body shp)) shp).
  destruct (match Shape.item_truthy shp1 with
            | Some it => (Shape.set_item None shp1, Canvas.delete it (canvas a))
            | None => (shp1, canvas a)
            end) as [shp2 c2] eqn:E2.
  assert (H2 : Shape.selected shp2 = Shape.selected shp)
    by (destruct (Shape.item_truthy shp1); inversion E2; reflexivity).
  destruct (Shape.draw shp2 c2) as [shp3 c3] eqn:E3.
  assert (H3 : Shape.selected shp3 = Shape.selected shp).
  { rewrite <- H2. change shp3 with (fst (shp3, c3)). rewrite <- E3.
    unfold Shape.draw. destruct (Shape.body shp2); destruct (Shape.item shp2);
      reflexivity. }
  destruct (if Shape.selected shp3 then Shape.draw_handles shp3 c3 else (shp3, c3))
    as [shp4 c4] eqn:E4.
  assert (H4 : Shape.selected shp4 = Shape.selected shp).
  { rewrite <- H3. destruct (Shape.selected shp3) eqn:Hf;
      [| inversion E4; subst; exact Hf].
    change shp4 with (fst (shp4, c4)). rewrite <- E4.
    unfold Shape.draw_handles.
    destruct (Shape.body shp3) as [r | ci | h | l | t];
      rewrite ?selected_add_handle; try exact Hf.
    destruct (TextShape.bbox t) as [[[[x1 y1] x2] y2] |]; cbn;
      rewrite ?selected_add_handle; exact Hf. }
  rewrite deref_set_canvas, (deref_store_eq _ _ _ _ Hd). cbn. now rewrite H4.
Qed.

Lemma marks_agree_apply_zoom (a : App) (z : R) :
  marks_agree a -> marks_agree (apply_zoom (set_zoom_level z a)).
Proof.
  intros J.
  assert (F : forall l b id,
             option_map Shape.selected
               (deref (fold_left (zoom_shape (zoom_level b)) l b) id)
             = option_map Shape.selected (deref b id)
             /\ selected_shape (fold_left (zoom_shape (zoom_level b)) l b)
                = selected_shape b).
  { intros l b. generalize (zoom_level b) as z0. revert b.
    induction l as [| i l IH]; intros b z0 id; cbn; [auto |].
    destruct (IH (zoom_shape z0 b i) z0 id) as [-> ->].
    split; [apply zoom_shape_marks |].
    unfold zoom_shape. destruct (deref b i); [| reflexivity].
    repeat match goal with
           | |- context [let (_, _) := ?e in _] => destruct e
           end.
    reflexivity. }
  intros id s Hin Hd Hf.
  rewrite apply_zoom_shapes in Hin.
  unfold apply_zoom in Hd |- *.
  set (a2 := set_canvas_size _ _ _) in *.
  assert (H2 : heap a2 = heap a /\ selected_shape a2 = selected_shape a).
  { unfold a2. destruct (original_image (set_zoom_level z a)) as [[w h] |];
      split; reflexivity. }
  destruct H2 as [Hh Hs].
  destruct (F (shapes a2) a2 id) as [F1 F2].
  rewrite F2, Hs. rewrite Hd in F1. cbn in F1.
  destruct (deref a2 id) as [s0 |] eqn:Hd0; [| discriminate].
  cbn in F1. inversion F1 as [F1'].
  apply (J id s0); [exact Hin | | congruence].
  unfold deref in *. now rewrite <- Hh.
Qed.

Lemma selected_draw (s : Shape.t) (c : Canvas.t) :
  Shape.selected (fst (Shape.draw s c)) = Shape.selected s.
Proof.
  unfold Shape.draw. destruct (Shape.body s); destruct (Shape.item s); reflexivity.
Qed.

Lemma marks_agree_create_shape_at (cx cy : R) (a : App) :
  Forall (fun id => (id < List.length (heap a))%nat) (shapes a) ->
  marks_agree a -> marks_agree (create_shape_at cx cy a).
Proof.
  intros Hv J id s Hin Hd Hf.
  destruct (create_shape_at_spec cx cy a) as [_ [Hsh [_ [Hsel _]]]].
  cbn zeta in Hsh, Hsel. rewrite Hsel. rewrite Hsh in Hin.
  unfold create_shape_at, alloc in Hd. cbn [set_mode heap] in Hd.
  set (n := List.length (heap a)) in *.
  set (a2 := set_shapes _ _) in Hd.
  change (deref (set_drag_data ?d ?x) id) with (deref x id) in Hd.
  assert (Hn : deref a2 n = Some (new_shape (current_tool a) cx cy))
    by (unfold deref, a2; cbn; apply nth_error_snoc).
  apply in_app_or in Hin. destruct Hin as [Hin | [<- | []]].
  - rewrite Forall_forall in Hv. specialize (Hv id Hin). fold n in Hv.
    rewrite deref_call_ne in Hd by lia.
    assert (Hd' : deref a id = Some s).
    { unfold deref, a2 in Hd. cbn in Hd.
      rewrite nth_error_app1 in Hd by exact Hv. exact Hd. }
    exact (J id s Hin Hd' Hf).
  - rewrite (deref_call_eq _ _ _ _ Hn) in Hd. inversion Hd as [Hs].
    rewrite <- Hs, selected_draw in Hf. discriminate Hf.
Qed.

Lemma remove_first_NoDup (id : nat) (l : list nat) :
  NoDup l ->
  forall x, In x (remove_first id l) -> In x l /\ x <> id.
Proof.
  induction l as [| i l IH]; intros Hn x; cbn; [tauto |].
  inversion Hn as [| ? ? Hi Hl]; subst.
  destruct (Nat.eqb i id) eqn:E.
  - apply Nat.eqb_eq in E. subst i. intros Hx. split; [now right |].
    intros ->. contradiction.
  - apply Nat.eqb_neq in E. intros [<- | Hx]; [split; [now left | exact E] |].
    destruct (IH Hl x Hx). split; [now right | assumption].
Qed.

Lemma marks_agree_delete_selected_shape (a : App) :
  NoDup (shapes a) -> marks_agree a -> marks_agree (delete_selected_shape a).
Proof.
  intros Hn J. unfold delete_selected_shape.
  destruct (selected_shape a) as [g |] eqn:Hs; [| exact J].
  destruct (deref a g) as [shp |] eqn:Hg; [| exact J].
  set (a1 := set_canvas _ a).
  destruct (call_frame g Shape.delete_handles a1) as [_ [_ [_ [_ [F5 _]]]]].
  intros id s Hin Hd Hf. exfalso.
  cbn [shapes set_selected_shape set_shapes] in Hin. rewrite F5 in Hin.
  destruct (remove_first_NoDup g (shapes a) Hn id Hin) as [Hin' Hne].
  change (deref (set_selected_shape None (set_shapes ?l ?x)) id)
    with (deref x id) in Hd.
  rewrite deref_call_ne in Hd by congruence.
  pose proof (J id s Hin' Hd Hf) as E. congruence.
Qed.

Lemma marks_agree_edit_text_shape (dlg : option string) (a : App) :
  marks_agree a -> marks_agree (edit_text_shape dlg a).
Proof.
  intros J. destruct (edit_text_shape_touches dlg a) as [H1 H2].
  destruct (kept_edit_text_shape dlg a) as [_ [H3 _]].
  now apply (marks_agree_keep a).
Qed.

Lemma marks_agree_on_canvas_release (dlg : option string) (a : App) :
  marks_agree a -> marks_agree (on_canvas_release dlg a).
Proof.
  intros J. unfold on_canvas_release.
  set (a0 := set_drag_data (clear_d_rotation (drag_data a)) a).
  assert (J0 : marks_agree a0) by exact J.
  assert (Jelse : marks_agree match selected_shape a0 with
                              | Some _ => set_mode Edit a0
                              | None => set_mode Idle a0
                              end)
    by (destruct (selected_shape a0); exact J0).
  destruct (mode a0); try exact Jelse.
  destruct (current_shape a0) as [id |]; [| exact Jelse].
  pose proof (marks_agree_select_shape id a0 J0) as J1.
  destruct (select_shape_frame id a0) as [S1 _].
  set (a1 := set_mode Edit (select_shape id a0)).
  assert (J1' : marks_agree a1) by exact J1.
  assert (S1' : selected_shape a1 = Some id) by exact S1.
  assert (J2 : marks_agree match current_tool a1 with
                           | ToolText =>
                               match deref a1 id with
                               | Some shp =>
                                   redraw id (store id (Shape.edit_text dlg shp) a1)
                               | None => a1
                               end
                           | _ => a1
                           end).
  { destruct (current_tool a1); try exact J1'.
    destruct (deref a1 id) as [shp |]; [| exact J1'].
    destruct (redraw_frame id (store id (Shape.edit_text dlg shp) a1))
      as [_ [R2 [_ [_ [R5 _]]]]].
    apply (marks_agree_keep a1); [exact J1' | exact R5 | exact R2 |].
    intros id' Hne. rewrite S1' in Hne.
    rewrite redraw_other by congruence. apply deref_store_ne. congruence. }
  exact J2.
Qed.

Lemma marks_agree_on_double_click (cx cy : R) (dlg : option string) (a : App) :
  marks_agree a -> marks_agree (on_double_click cx cy dlg a).
Proof.
  intros J. unfold on_double_click. rewrite double_click_loop_spec.
  destruct (find _ (shapes a)) as [id |]; [| exact J].
  apply marks_agree_edit_text_shape.
  destruct (call_frame id Shape.select (set_selected_shape (Some id) (deselect_all a)))
    as [_ [F2 [_ [_ [F5 _]]]]].
  apply (unmarked_marks_agree (deselect_all a) _ (Some id)).
  - now apply deselect_all_unmarked.
  - exact F5.
  - exact F2.
  - intros id' Hne.
    rewrite deref_call_ne by congruence. reflexivity.
Qed.

Lemma marks_agree_on_canvas_click (cx cy : R) (a : App) :
  Forall (fun id => (id < List.length (heap a))%nat) (shapes a) ->
  marks_agree a -> marks_agree (state_of (on_canvas_click cx cy a)).
Proof.
  intros Hv J. rewrite click_cases.
  pose proof (click_selected_handles_spec cx cy a) as Hh.
  destruct (handle_under cx cy a) as [hname |].
  - destruct Hh as [id [shp [_ [_ ->]]]]. cbn [state_of].
    destruct (grab_handle_frame hname shp cx cy a) as [G1 [G2 [G3 _]]].
    apply (marks_agree_keep a); [exact J | exact G2 | exact G1 |].
    intros id' _. unfold deref. now rewrite G3.
  - rewrite Hh. destruct (shape_under cx cy a) as [id |].
    + exact (marks_agree_select_shape id a J).
    + destruct (Mode_eqb (mode a) Edit).
      { exact (marks_agree_deselect_all a J). }
      destruct (is_drawing_tool (current_tool a) && Mode_eqb (mode a) Idle).
      { now apply marks_agree_create_shape_at. }
      destruct (current_tool a); try exact J.
      exact (marks_agree_deselect_all a J).
Qed.

Lemma marks_agree_on_canvas_drag (cx cy : R) (a : App) :
  marks_agree a -> marks_agree (state_of (on_canvas_drag cx cy a)).
Proof.
  intros J. destruct (selected_shape a) as [id |] eqn:Hs.
  - destruct (others_kept_on_canvas_drag cx cy a id Hs) as [_ [K2 K3]].
    destruct (kept_on_canvas_drag cx cy a) as [_ [Hsh _]].
    apply (marks_agree_keep a); [exact J | exact Hsh | exact K2 |].
    intros id' Hne. apply K3. congruence.
  - unfold on_canvas_drag. rewrite Hs. exact J.
Qed.

(** The three properties kept by every event. *)
Definition sequence_ok (a : App) : Prop :=
  NoDup (shapes a)
  /\ Forall (fun id => (id < List.length (heap a))%nat) (shapes a)
  /\ marks_agree a.

Lemma sequence_ok_step (e : Event) (a : App) :
  sequence_ok a -> sequence_ok (state_of (handle e a)).
Proof.
  intros [Hn [Hv J]].
  assert (Rm : forall id, NoDup (remove_first id (shapes a))
                          /\ forall x, In x (remove_first id (shapes a)) ->
                                       In x (shapes a)).
  { intros id. generalize Hn. generalize (shapes a) as l.
    induction l as [| i l IH]; intros Hl; cbn.
    - split; [constructor | tauto].
    - inversion Hl as [| ? ? Hi Hl']; subst.
      destruct (Nat.eqb i id).
      + split; [exact Hl' | intros x Hx; now right].
      + destruct (IH Hl') as [IH1 IH2]. split.
        * constructor; [| exact IH1]. intros Hin. apply Hi. now apply IH2.
        * intros x [-> | Hx]; [now left | right; now apply IH2]. }
  split; [| split].
  - destruct (handle_effect e a) as [_ [[-> _] | [[-> _] | [[id ->] _]]]].
    + exact Hn.
    + rewrite Forall_forall in Hv. apply NoDup_app.
      * exact Hn.
      * repeat constructor. intros [].
      * intros x Hx [<- | []]. specialize (Hv _ Hx). lia.
    + apply (proj1 (Rm id)).
  - destruct (handle_effect e a) as [_ [[-> ->] | [[-> ->] | [[id ->] ->]]]].
    + exact Hv.
    + rewrite Forall_forall in Hv. apply Forall_app. split.
      * apply Forall_forall. intros x Hx. specialize (Hv _ Hx). lia.
      * repeat constructor.
    + rewrite Forall_forall in *. intros x Hx. apply Hv.
      now apply (proj2 (Rm id)).
  - destruct e; cbn [handle state_of].
    + now apply marks_agree_on_canvas_click.
    + now apply marks_agree_on_canvas_drag.
    + now apply marks_agree_on_canvas_release.
    + now apply marks_agree_on_double_click.
    + now apply marks_agree_delete_selected_shape.
    + exact (marks_agree_deselect_all (set_current_tool t a) J).
    + unfold zoom_in. destruct (Rltb (zoom_level a) max_zoom); [| exact J].
      now apply marks_agree_apply_zoom.
    + unfold zoom_out. destruct (Rltb min_zoom (zoom_level a)); [| exact J].
      now apply marks_agree_apply_zoom.
    + now apply marks_agree_apply_zoom.
    + now apply marks_agree_edit_text_shape.
Qed.

Lemma sequence_ok_run (evs : list Event) (a : App) :
  sequence_ok a -> sequence_ok (run evs a).
Proof.
  revert a. induction evs as [| e evs IH]; intros a Ha; [exact Ha |].
  change (run (e :: evs) a) with (run evs (state_of (handle e a))).
  apply IH. now apply sequence_ok_step.
Qed.

Lemma sequence_ok_initial (img : option (Z * Z))
    (m : R -> R -> string -> Z -> option BBox) : sequence_ok (initial img m).
Proof.
  destruct img as [[w h] |]; (split; [constructor | split; [constructor |]]);
    intros id s [].
Qed.


(** Whatever the events, at most one shape of the sequence is marked as
    selected, and it is the shape the editor holds as the selected one: a
    shape of the sequence whose [selected] flag is set is the selected
    shape, so two shapes with the flag set are the same shape. *)
Theorem at_most_one_shape_marked
    (img : option (Z * Z)) (m : R -> R -> string -> Z -> option BBox)
    (evs : list Event) :
  let a := run evs (initial img m) in
  (forall id s,
      In id (shapes a) -> deref a id = Some s -> Shape.selected s = true ->
      selected_shape a = Some id)
  /\ forall id1 id2 s1 s2,
       In id1 (shapes a) -> In id2 (shapes a) ->
       deref a id1 = Some s1 -> deref a id2 = Some s2 ->
       Shape.selected s1 = true -> Shape.selected s2 = true -> id1 = id2.
Proof.
  cbn zeta.
  destruct (sequence_ok_run evs _ (sequence_ok_initial img m)) as [_ [_ J]].
  split; [exact J |].
  intros id1 id2 s1 s2 H1 H2 D1 D2 F1 F2.
  pose proof (J id1 s1 H1 D1 F1) as E1.
  pose proof (J id2 s2 H2 D2 F2) as E2. congruence.
Qed.

(** ** Shapes that never turn *)

(** A circle has no angle and a text has the angle 0. *)
Definition never_turned (b : Body) : Prop :=
  match b with
  | Circ c => CircleShape.angle c = None
  | Txt t => TextShape.angle t = 0
  | _ => True
  end.

Definition is_circle (b : Body) : bool :=
  match b with
  | Circ _ => true
  | _ => false
  end.

(** [b'] is of the class of [b], and has not turned if [b] has not. *)
Definition same_turn (b b' : Body) : Prop :=
  is_circle b' = is_circle b /\ (never_turned b -> never_turned b').

Lemma same_turn_refl (b : Body) : same_turn b b.
Proof. split; auto. Qed.

Lemma same_turn_trans (b1 b2 b3 : Body) :
  same_turn b1 b2 -> same_turn b2 b3 -> same_turn b1 b3.
Proof. intros [H1 H2] [G1 G2]. split; [congruence | auto]. Qed.

Lemma same_turn_geometry (b b' : Body) :
  geometry b' = geometry b -> same_turn b b'.
Proof.
  destruct b as [r | c | h | l | t], b' as [r' | c' | h' | l' | t'];
    cbn; intros H; try discriminate; split; try reflexivity; try (intros _; exact I).
  - inversion H; subst. auto.
  - destruct t, t'. cbn in *. inversion H; subst. auto.
Qed.

Lemma same_turn_translate (dx dy : R) (b : Body) : same_turn b (translate dx dy b).
Proof. destruct b; split; auto. Qed.

Lemma same_turn_rebase_position (z : R) (b b' : Body) :
  rebase_position z b = Val b' -> same_turn b b'.
Proof.
  destruct b as [r | c | h | l | t]; cbn; unfold py_div;
    destruct (Reqb z 0); cbn; intros H; try discriminate;
    inversion H; subst; split; auto.
Qed.

Lemma same_turn_resize_displayed (hname : string) (cx cy : R) (d : DragData)
    (b : Body) : same_turn b (resize_displayed hname cx cy d b).
Proof.
  destruct b as [r | c | h | l | t]; cbn;
    destruct (String.eqb hname _); try (split; auto; fail).
  destruct (resized_font t cx cy d); split; auto.
Qed.

Lemma same_turn_resize_base (hname : string) (cx cy : R) (d : DragData) (z : R)
    (b b' : Body) :
  resize_base hname cx cy d z b = Val b' -> same_turn b b'.
Proof.
  destruct b as [r | c | h | l | t]; cbn; unfold py_div;
    destruct (String.eqb hname _); destruct (Reqb z 0); cbn;
    try destruct (d_init_x d); try destruct (d_init_y d);
    try destruct (d_init_font_size d); cbn;
    intros H; try discriminate; inversion H; subst; split; auto.
Qed.

Lemma same_turn_zoom_body (z : R) (b : Body) : same_turn b (zoom_body z b).
Proof. destruct b; split; auto. Qed.

Lemma same_turn_edit_text (dlg : option string) (s : Shape.t) :
  same_turn (Shape.body s) (Shape.body (Shape.edit_text dlg s)).
Proof.
  unfold Shape.edit_text. destruct (Shape.body s) eqn:B; rewrite ?B;
    try apply same_turn_refl.
  destruct dlg; cbn; rewrite ?B; split; auto.
Qed.

Lemma same_turn_set_angle (v : R) (b : Body) :
  is_circle b = false -> (forall t, b <> Txt t) -> same_turn b (set_angle v b).
Proof.
  destruct b as [r | c | h | l | t]; cbn; intros Hc Ht; try discriminate;
    try (split; auto; fail).
  now destruct (Ht t).
Qed.

(** Every object of [a'] is the object of [a] at the same place, of the
    same class, and it has not turned if that one had not. *)
Definition steady (a a' : App) : Prop :=
  forall id s',
    deref a' id = Some s' ->
    exists s, deref a id = Some s /\ same_turn (Shape.body s) (Shape.body s').

Lemma steady_refl (a : App) : steady a a.
Proof. intros id s' H. exists s'. split; [exact H | apply same_turn_refl]. Qed.

Lemma steady_trans (a b c : App) : steady a b -> steady b c -> steady a c.
Proof.
  intros H1 H2 id s' Hd.
  destruct (H2 id s' Hd) as [s [Hs T]].
  destruct (H1 id s Hs) as [s0 [Hs0 T0]].
  exists s0. split; [exact Hs0 | eapply same_turn_trans; eauto].
Qed.

Lemma steady_heap (a b b' : App) :
  heap b' = heap b -> steady a b -> steady a b'.
Proof. intros Hh H id s' Hd. apply H. unfold deref in *. now rewrite <- Hh. Qed.

Ltac steady_strip :=
  match goal with
  | |- steady ?a (set_selected_shape _ ?x) => apply (steady_heap a x); [reflexivity |]
  | |- steady ?a (set_canvas _ ?x) => apply (steady_heap a x); [reflexivity |]
  | |- steady ?a (set_mode _ ?x) => apply (steady_heap a x); [reflexivity |]
  | |- steady ?a (set_drag_data _ ?x) => apply (steady_heap a x); [reflexivity |]
  | |- steady ?a (set_current_shape _ ?x) => apply (steady_heap a x); [reflexivity |]
  | |- steady ?a (set_current_tool _ ?x) => apply (steady_heap a x); [reflexivity |]
  | |- steady ?a (set_zoom_level _ ?x) => apply (steady_heap a x); [reflexivity |]
  | |- steady ?a (set_canvas_size _ _ ?x) => apply (steady_heap a x); [reflexivity |]
  | |- steady ?a (set_image_item _ ?x) => apply (steady_heap a x); [reflexivity |]
  | |- steady ?a (set_shapes _ ?x) => apply (steady_heap a x); [reflexivity |]
  end.

Lemma deref_store_inv (a : App) (id id' : nat) (s x : Shape.t) :
  deref (store id s a) id' = Some x ->
  (id' = id /\ x = s /\ exists s0, deref a id = Some s0)
  \/ (id' <> id /\ deref a id' = Some x).
Proof.
  intros H. destruct (Nat.eq_dec id id') as [<- | Hne].
  - left. destruct (deref a id) as [s0 |] eqn:E.
    + rewrite (deref_store_eq _ _ _ _ E) in H. inversion H. eauto.
    + exfalso. unfold deref, store in *. cbn in H.
      apply nth_error_None in E.
      assert (Hl : (List.length (list_set id s (heap a)) <= id)%nat)
        by (rewrite length_list_set; exact E).
      apply nth_error_None in Hl. congruence.
  - right. rewrite deref_store_ne in H by exact Hne. auto.
Qed.

(** Replacing the object [id] by one of the same turn. *)
Lemma steady_store (id : nat) (s' : Shape.t) (a : App) :
  (forall s, deref a id = Some s -> same_turn (Shape.body s) (Shape.body s')) ->
  steady a (store id s' a).
Proof.
  intros H id' x Hd. destruct (deref_store_inv _ _ _ _ _ Hd)
    as [[-> [-> [s0 Hs0]]] | [Hne Hd']].
  - exists s0. split; [exact Hs0 | now apply H].
  - exists x. split; [exact Hd' | apply same_turn_refl].
Qed.

Lemma steady_call (id : nat) (m : Shape.t -> Canvas.t -> Shape.t * Canvas.t)
    (a : App) :
  (forall s c, geometry (Shape.body (fst (m s c))) = geometry (Shape.body s)) ->
  steady a (call id m a).
Proof.
  intros Hm. unfold call. destruct (deref a id) as [s |] eqn:E; [| apply steady_refl].
  destruct (m s (canvas a)) as [s1 c1] eqn:Em.
  intros id' x Hd. rewrite deref_set_canvas in Hd.
  destruct (deref_store_inv _ _ _ _ _ Hd) as [[-> [-> _]] | [Hne Hd']].
  - exists s. split; [exact E |]. apply same_turn_geometry.
    change s1 with (fst (s1, c1)). rewrite <- Em. apply Hm.
  - exists x. split; [exact Hd' | apply same_turn_refl].
Qed.

Lemma steady_call_draw (id : nat) (a : App) : steady a (call id Shape.draw a).
Proof. apply steady_call. apply geometry_draw. Qed.

Lemma steady_call_draw_handles (id : nat) (a : App) :
  steady a (call id Shape.draw_handles a).
Proof. apply steady_call. apply geometry_draw_handles. Qed.

Lemma steady_call_select (id : nat) (a : App) : steady a (call id Shape.select a).
Proof.
  apply steady_call. intros s c. unfold Shape.select.
  now rewrite geometry_draw_handles.
Qed.

Lemma steady_call_deselect (id : nat) (a : App) :
  steady a (call id Shape.deselect a).
Proof. apply steady_call. reflexivity. Qed.

Lemma steady_call_delete_handles (id : nat) (a : App) :
  steady a (call id Shape.delete_handles a).
Proof. apply steady_call. reflexivity. Qed.

Lemma steady_redraw (id : nat) (a : App) : steady a (redraw id a).
Proof.
  unfold redraw. eapply steady_trans;
    [apply steady_call_draw | apply steady_call_draw_handles].
Qed.

Lemma steady_deselect_all (a : App) : steady a (deselect_all a).
Proof.
  unfold deselect_all. steady_strip.
  destruct (selected_shape a) as [g |]; [| apply steady_refl].
  exact (steady_call_deselect g a).
Qed.

Lemma steady_select_shape (id : nat) (a : App) : steady a (select_shape id a).
Proof.
  destruct (select_shape_canvas_only id a) as [c ->]. steady_strip.
  eapply steady_trans; [apply steady_deselect_all |].
  eapply steady_trans; [| apply steady_call_select].
  steady_strip. apply steady_refl.
Qed.

Lemma steady_edit_text_shape (dlg : option string) (a : App) :
  steady a (edit_text_shape dlg a).
Proof.
  unfold edit_text_shape.
  destruct (selected_shape a) as [id |]; [| apply steady_refl].
  destruct (deref a id) as [shp |] eqn:Hd; [| apply steady_refl].
  destruct (Shape.body shp) eqn:Hb; try apply steady_refl.
  eapply steady_trans with (b := store id (Shape.edit_text dlg shp) a).
  - apply steady_store. intros s Hs. rewrite Hd in Hs. inversion Hs; subst.
    apply same_turn_edit_text.
  - apply (steady_redraw id).
Qed.

Lemma steady_zoom_shape (z : R) (a : App) (i : nat) : steady a (zoom_shape z a i).
Proof.
  intros id s' Hd. destruct (Nat.eq_dec i id) as [-> | Hne].
  - destruct (deref a id) as [shp |] eqn:E.
    + destruct (zoom_shape_at z a id shp E) as [shp' [Hd' G]].
      rewrite Hd' in Hd. inversion Hd; subst. exists shp. split; [reflexivity |].
      eapply same_turn_trans; [apply (same_turn_zoom_body z) |].
      now apply same_turn_geometry.
    + unfold zoom_shape in Hd. rewrite E in Hd. congruence.
  - rewrite zoom_shape_other in Hd by exact Hne. exists s'.
    split; [exact Hd | apply same_turn_refl].
Qed.

Lemma steady_apply_zoom (a : App) : steady a (apply_zoom a).
Proof.
  assert (F : forall z l b, steady b (fold_left (zoom_shape z) l b)).
  { intros z l. induction l as [| i l IH]; intros b; cbn; [apply steady_refl |].
    eapply steady_trans; [apply steady_zoom_shape | apply IH]. }
  unfold apply_zoom.
  eapply steady_trans; [| apply F]. steady_strip.
  destruct (original_image a) as [[w h] |]; [| apply steady_refl].
  destruct (Canvas.create _ _) as [img c2]. repeat steady_strip.
  apply steady_refl.
Qed.

(** No object has turned, and while the drag data hold the key
    init_shape_angle the selected shape is not a circle. *)
Definition calm (a : App) : Prop :=
  (forall id s, deref a id = Some s -> never_turned (Shape.body s))
  /\ (d_init_shape_angle (drag_data a) <> None ->
      forall id s, selected_shape a = Some id -> deref a id = Some s ->
                   is_circle (Shape.body s) = false).

Lemma calm_keep (a a' : App) :
  calm a -> steady a a' ->
  d_init_shape_angle (drag_data a') = d_init_shape_angle (drag_data a)
  \/ d_init_shape_angle (drag_data a') = None ->
  selected_shape a' = selected_shape a \/ selected_shape a' = None ->
  calm a'.
Proof.
  intros [P Q] St Hk Hs. split.
  - intros id s' Hd. destruct (St id s' Hd) as [s [Hs0 [_ T]]].
    apply T. now apply (P id s).
  - intros Hkey id s' Hsel Hd.
    destruct Hk as [Hk | Hk]; [| congruence].
    destruct Hs as [Hs | Hs]; [| congruence].
    destruct (St id s' Hd) as [s [Hs0 [C _]]]. rewrite C.
    apply (Q ltac:(congruence) id s); congruence.
Qed.

Lemma calm_selected (a a' : App) (id : nat) :
  calm a -> steady a a' ->
  selected_shape a' = Some id ->
  (forall s, deref a id = Some s -> is_circle (Shape.body s) = false) ->
  calm a'.
Proof.
  intros [P Q] St Hsel Hc. split.
  - intros i s' Hd. destruct (St i s' Hd) as [s [Hs0 [_ T]]].
    apply T. now apply (P i s).
  - intros _ i s' Hs Hd. rewrite Hsel in Hs. inversion Hs; subst i.
    destruct (St id s' Hd) as [s [Hs0 [C _]]]. rewrite C. now apply Hc.
Qed.

Lemma steady_update (id : nat) (shp : Shape.t) (b' : Body) (a x : App) :
  heap x = heap a -> deref a id = Some shp ->
  same_turn (Shape.body shp) b' ->
  steady a (store id (Shape.set_body b' shp) x).
Proof.
  intros Hh Hd T. eapply steady_trans with (b := x).
  - eapply steady_heap; [exact Hh | apply steady_refl].
  - apply steady_store. intros s Hs. unfold deref in Hs. rewrite Hh in Hs.
    unfold deref in Hd. rewrite Hd in Hs. inversion Hs; subst. exact T.
Qed.

Lemma redraw_store_frame (id : nat) (s : Shape.t) (x : App) :
  selected_shape (redraw id (store id s x)) = selected_shape x
  /\ drag_data (redraw id (store id s x)) = drag_data x.
Proof.
  destruct (redraw_frame id (store id s x)) as [_ [R2 [R3 _]]].
  rewrite R2, R3. split; reflexivity.
Qed.

(** The branches "move" and "resizing" of a drag. *)
Lemma calm_drag_move (id : nat) (shp : Shape.t) (dx dy cx cy : R) (a : App) :
  deref a id = Some shp ->
  let a' := state_of (drag_move id shp dx dy cx cy a) in
  steady a a' /\ selected_shape a' = selected_shape a
  /\ d_init_shape_angle (drag_data a') = d_init_shape_angle (drag_data a).
Proof.
  intros Hd. cbn zeta. unfold drag_move. cbv zeta.
  destruct (rebase_position _ _) as [b2 | e] eqn:E; cbn [state_of].
  - set (x := set_drag_data _ (store id (Shape.set_body b2 shp) a)).
    destruct (redraw_frame id x) as [_ [R2 [R3 _]]].
    split; [| split].
    + steady_strip. eapply steady_trans; [| apply steady_redraw].
      unfold x. steady_strip. apply (steady_update id shp b2 a a eq_refl Hd).
      eapply same_turn_trans; [apply same_turn_translate |].
      eapply same_turn_rebase_position; exact E.
    + cbn [selected_shape set_drag_data]. rewrite R2. reflexivity.
    + cbn [drag_data set_drag_data d_init_shape_angle set_d_xy].
      rewrite ?R3. reflexivity.
  - split; [| split; reflexivity].
    apply (steady_update id shp _ a a eq_refl Hd). apply same_turn_translate.
Qed.

Lemma calm_drag_resize (id : nat) (shp : Shape.t) (cx cy : R) (a : App) :
  deref a id = Some shp ->
  let a' := state_of (drag_resize id shp cx cy a) in
  steady a a' /\ selected_shape a' = selected_shape a
  /\ d_init_shape_angle (drag_data a') = d_init_shape_angle (drag_data a).
Proof.
  intros Hd. cbn zeta. unfold drag_resize. cbv zeta.
  destruct (resize_base _ _ _ _ _ _) as [b2 | e] eqn:E; cbn [state_of].
  - destruct (redraw_store_frame id (Shape.set_body b2 shp) a) as [R2 R3].
    split; [| split].
    + steady_strip. eapply steady_trans; [| apply steady_redraw].
      apply (steady_update id shp b2 a a eq_refl Hd).
      eapply same_turn_trans; [apply same_turn_resize_displayed |].
      eapply same_turn_resize_base; exact E.
    + cbn [selected_shape set_drag_data]. rewrite R2. reflexivity.
    + cbn [drag_data set_drag_data d_init_shape_angle set_d_xy].
      rewrite ?R3. reflexivity.
  - split; [| split; reflexivity].
    apply (steady_update id shp _ a a eq_refl Hd).
    apply same_turn_resize_displayed.
Qed.

(** The branch "rotating": a circle raises before anything turns. *)
Lemma calm_drag_rotate (id : nat) (shp : Shape.t) (cx cy : R) (a : App) :
  calm a -> selected_shape a = Some id -> deref a id = Some shp ->
  let a' := state_of (drag_rotate id shp cx cy a) in
  steady a a' /\ selected_shape a' = selected_shape a
  /\ (is_circle (Shape.body shp) = true ->
      d_init_shape_angle (drag_data a') = d_init_shape_angle (drag_data a)).
Proof.
  intros [P Q] Hs Hd. cbn zeta.
  assert (Upd : forall v x,
             heap x = heap a -> selected_shape x = selected_shape a ->
             is_circle (Shape.body shp) = false ->
             (forall t, Shape.body shp <> Txt t) ->
             let a' := set_drag_data (set_d_xy cx cy
                          (drag_data (redraw id (store id
                             (Shape.set_body (set_angle v (Shape.body shp)) shp) x))))
                         (redraw id (store id
                            (Shape.set_body (set_angle v (Shape.body shp)) shp) x)) in
             steady a a' /\ selected_shape a' = selected_shape a
             /\ (is_circle (Shape.body shp) = true ->
                 d_init_shape_angle (drag_data a')
                 = d_init_shape_angle (drag_data a))).
  { intros v x Hh Hsx Hc Ht. cbn zeta.
    destruct (redraw_store_frame id
                (Shape.set_body (set_angle v (Shape.body shp)) shp) x) as [R2 _].
    split; [| split].
    - steady_strip. eapply steady_trans; [| apply steady_redraw].
      apply (steady_update id shp _ a x Hh Hd). now apply same_turn_set_angle.
    - cbn [selected_shape set_drag_data]. now rewrite R2.
    - intros Hc'. congruence. }
  assert (Same : forall x,
             heap x = heap a -> selected_shape x = selected_shape a ->
             d_init_shape_angle (drag_data x) = d_init_shape_angle (drag_data a) ->
             steady a x /\ selected_shape x = selected_shape a
             /\ (is_circle (Shape.body shp) = true ->
                 d_init_shape_angle (drag_data x)
                 = d_init_shape_angle (drag_data a))).
  { intros x Hh Hsx Hk. split; [| auto].
    eapply steady_heap; [exact Hh | apply steady_refl]. }
  assert (Any : forall x,
             heap x = heap a -> selected_shape x = selected_shape a ->
             is_circle (Shape.body shp) = false ->
             steady a x /\ selected_shape x = selected_shape a
             /\ (is_circle (Shape.body shp) = true ->
                 d_init_shape_angle (drag_data x)
                 = d_init_shape_angle (drag_data a))).
  { intros x Hh Hsx Hc. split; [| split; [exact Hsx | congruence]].
    eapply steady_heap; [exact Hh | apply steady_refl]. }
  unfold drag_rotate. cbv zeta.
  destruct (Shape.body shp) as [r | c | h | l | t] eqn:B.
  - (* rectangle *)
    assert (Hc : is_circle (Rect r) = false) by reflexivity.
    assert (Ht : forall t, Rect r <> Txt t) by discriminate.
    cbn [bearing attr_x attr_y attr_angle bind].
    destruct (d_init_rotate_angle (drag_data a)) as [ira |] eqn:Ei;
      cbn [drag_data set_drag_data d_init_rotate_angle d_init_shape_angle
           set_d_init_rotate_angle set_d_init_shape_angle]; rewrite ?Ei.
    + destruct (d_init_shape_angle (drag_data a)) as [isa |];
        cbn [state_of]; [| now apply Any].
      now apply Upd.
    + cbn [state_of]. now apply Upd.
  - (* circle *)
    pose proof (P id shp Hd) as Hn. rewrite B in Hn. cbn in Hn.
    cbn [bearing attr_x attr_y attr_angle bind]. rewrite Hn.
    destruct (d_init_rotate_angle (drag_data a)) as [ira |] eqn:Ei.
    + rewrite Ei.
      destruct (d_init_shape_angle (drag_data a)) as [isa |] eqn:Es.
      * exfalso. assert (Hk : Some isa <> None) by discriminate.
        pose proof (Q Hk id shp Hs Hd) as Hc. rewrite B in Hc. discriminate.
      * cbn [state_of]. now apply Same.
    + cbn [state_of]. now apply Same.
  - (* hourglass *)
    assert (Hc : is_circle (Hour h) = false) by reflexivity.
    assert (Ht : forall t, Hour h <> Txt t) by discriminate.
    cbn [bearing attr_x attr_y attr_angle bind].
    destruct (d_init_rotate_angle (drag_data a)) as [ira |] eqn:Ei;
      cbn [drag_data set_drag_data d_init_rotate_angle d_init_shape_angle
           set_d_init_rotate_angle set_d_init_shape_angle]; rewrite ?Ei.
    + destruct (d_init_shape_angle (drag_data a)) as [isa |];
        cbn [state_of]; [| now apply Any].
      now apply Upd.
    + cbn [state_of]. now apply Upd.
  - (* line: the bearing raises *)
    assert (Hc : is_circle (Lin l) = false) by reflexivity.
    cbn [bearing attr_x attr_y attr_angle bind].
    destruct (d_init_rotate_angle (drag_data a)); cbn [state_of]; now apply Any.
  - (* text *)
    cbn [state_of]. apply Any; reflexivity.
Qed.

Lemma calm_on_canvas_drag (cx cy : R) (a : App) :
  calm a -> calm (state_of (on_canvas_drag cx cy a)).
Proof.
  intros C. unfold on_canvas_drag.
  destruct (selected_shape a) as [id |] eqn:Hs; [| exact C].
  destruct (deref a id) as [shp |] eqn:Hd; [| exact C].
  assert (M : forall dx dy, calm (state_of (drag_move id shp dx dy cx cy a))).
  { intros dx dy. destruct (calm_drag_move id shp dx dy cx cy a Hd) as [S1 [S2 S3]].
    apply (calm_keep a); auto. }
  destruct (mode a); cbn [state_of]; try apply M;
    try (apply (calm_keep a); [exact C | | left; reflexivity | left; reflexivity];
         steady_strip; apply steady_refl).
  - destruct (calm_drag_resize id shp cx cy a Hd) as [S1 [S2 S3]].
    apply (calm_keep a); auto.
  - destruct (calm_drag_rotate id shp cx cy a C Hs Hd) as [S1 [S2 S3]].
    destruct (is_circle (Shape.body shp)) eqn:Hc.
    + apply (calm_keep a); auto.
    + apply (calm_selected a _ id); [exact C | exact S1 | congruence |].
      intros s Hs'. congruence.
Qed.

Lemma never_turned_new_shape (t : Tool) (cx cy : R) :
  never_turned (Shape.body (new_shape t cx cy)).
Proof. destruct t; reflexivity. Qed.

Lemma calm_create_shape_at (cx cy : R) (a : App) :
  calm a -> calm (create_shape_at cx cy a).
Proof.
  intros [P _]. split; [| intros H; now destruct H].
  intros id s Hd. unfold create_shape_at, alloc in Hd. cbn [set_mode heap] in Hd.
  set (n := List.length (heap a)) in *.
  set (a2 := set_shapes _ _) in Hd.
  change (deref (set_drag_data ?d ?x) id) with (deref x id) in Hd.
  assert (Hn : deref a2 n = Some (new_shape (current_tool a) cx cy))
    by (unfold deref, a2; cbn; apply nth_error_snoc).
  destruct (Nat.eq_dec n id) as [<- | Hne].
  - rewrite (deref_call_eq _ _ _ _ Hn) in Hd. inversion Hd.
    apply (same_turn_geometry (Shape.body (new_shape (current_tool a) cx cy))).
    + apply geometry_draw.
    + apply never_turned_new_shape.
  - rewrite deref_call_ne in Hd by exact Hne.
    unfold deref, a2 in Hd. cbn in Hd.
    assert (Hlt : (id < List.length (heap a ++ [new_shape (current_tool a) cx cy]))%nat)
      by (apply nth_error_Some; congruence).
    rewrite length_app in Hlt. cbn in Hlt. fold n in Hlt.
    rewrite nth_error_app1 in Hd by (fold n; lia).
    exact (P id s Hd).
Qed.

Lemma calm_deselect_all (a : App) : calm a -> calm (deselect_all a).
Proof.
  intros C. apply (calm_keep a); [exact C | apply steady_deselect_all | |].
  - left. now destruct (deselect_all_frame a) as [_ [_ [_ [-> _]]]].
  - right. apply deselect_all_frame.
Qed.

Lemma calm_on_canvas_click (cx cy : R) (a : App) :
  calm a -> calm (state_of (on_canvas_click cx cy a)).
Proof.
  intros C. rewrite click_cases.
  pose proof (click_selected_handles_spec cx cy a) as Hh.
  destruct (handle_under cx cy a) as [hname |].
  - destruct Hh as [id [shp [_ [_ ->]]]]. cbn [state_of].
    destruct (grab_handle_frame hname shp cx cy a) as [G1 [_ [G3 _]]].
    apply (calm_keep a); [exact C | | | left; exact G1].
    + eapply steady_heap; [exact G3 | apply steady_refl].
    + left. unfold grab_handle. destruct (is_resize_handle hname); [| reflexivity].
      destruct (Shape.body shp); try reflexivity.
      destruct (String.eqb hname "resize"); reflexivity.
  - rewrite Hh. destruct (shape_under cx cy a) as [id |].
    + cbn [state_of]. destruct C as [P Q]. split; [| intros H; now destruct H].
      intros i s' Hd.
      destruct (steady_select_shape id a i s' Hd) as [s [Hs [_ T]]].
      apply T. now apply (P i s).
    + destruct (Mode_eqb (mode a) Edit).
      { exact (calm_deselect_all a C). }
      destruct (is_drawing_tool (current_tool a) && Mode_eqb (mode a) Idle).
      { now apply calm_create_shape_at. }
      destruct (current_tool a); try exact C.
      exact (calm_deselect_all a C).
Qed.

Lemma on_canvas_release_drag_data (dlg : option string) (a : App) :
  drag_data (on_canvas_release dlg a) = clear_d_rotation (drag_data a).
Proof.
  assert (C : (mode a = Create /\ exists id, current_shape a = Some id)
              \/ (mode a <> Create \/ current_shape a = None)).
  { destruct (mode a); try (right; left; discriminate).
    destruct (current_shape a) as [id |]; [left; eauto | right; now right]. }
  destruct C as [[Hm [id Hc]] | Ho].
  - apply (on_canvas_release_create dlg a id Hm Hc).
  - now rewrite (on_canvas_release_other dlg a Ho).
Qed.

Lemma calm_on_canvas_release (dlg : option string) (a : App) :
  calm a -> calm (on_canvas_release dlg a).
Proof.
  intros [P Q]. split.
  - assert (St : steady a (on_canvas_release dlg a)).
    { unfold on_canvas_release.
      set (a0 := set_drag_data (clear_d_rotation (drag_data a)) a).
      assert (S0 : steady a a0) by (unfold a0; steady_strip; apply steady_refl).
      assert (Selse : steady a match selected_shape a0 with
                               | Some _ => set_mode Edit a0
                               | None => set_mode Idle a0
                               end)
        by (destruct (selected_shape a0); steady_strip; exact S0).
      destruct (mode a0); try exact Selse.
      destruct (current_shape a0) as [id |]; [| exact Selse].
      steady_strip.
      set (a1 := set_mode Edit (select_shape id a0)).
      assert (S1 : steady a a1).
      { unfold a1. steady_strip.
        eapply steady_trans; [exact S0 | apply steady_select_shape]. }
      destruct (current_tool a1); try exact S1.
      destruct (deref a1 id) as [shp |] eqn:Hd; [| exact S1].
      eapply steady_trans; [exact S1 |].
      eapply steady_trans; [| apply steady_redraw].
      apply steady_store. intros s Hs. rewrite Hd in Hs. inversion Hs; subst.
      apply same_turn_edit_text. }
    intros id s' Hd. destruct (St id s' Hd) as [s [Hs [_ T]]].
    apply T. now apply (P id s).
  - intros Hk. exfalso. apply Hk.
    now rewrite on_canvas_release_drag_data.
Qed.

Lemma calm_edit_text_shape (dlg : option string) (a : App) :
  calm a -> calm (edit_text_shape dlg a).
Proof.
  intros C. destruct (edit_text_shape_touches dlg a) as [H1 _].
  apply (calm_keep a); [exact C | apply steady_edit_text_shape | | left; exact H1].
  left. unfold edit_text_shape.
  destruct (selected_shape a) as [id |]; [| reflexivity].
  destruct (deref a id) as [shp |]; [| reflexivity].
  destruct (Shape.body shp); try reflexivity.
  destruct (call_frame id Shape.draw_handles
              (call id Shape.draw (store id (Shape.edit_text dlg shp) a)))
    as [_ [_ [F3 _]]].
  destruct (call_frame id Shape.draw (store id (Shape.edit_text dlg shp) a))
    as [_ [_ [G3 _]]].
  now rewrite F3, G3.
Qed.

Lemma calm_on_double_click (cx cy : R) (dlg : option string) (a : App) :
  calm a -> calm (on_double_click cx cy dlg a).
Proof.
  intros C. unfold on_double_click. rewrite double_click_loop_spec.
  destruct (find _ (shapes a)) as [id |] eqn:Hf; [| exact C].
  apply find_some in Hf. destruct Hf as [_ Hf].
  destruct (deref a id) as [shp |] eqn:Hd; [| discriminate].
  destruct (Shape.body shp) as [r | c | h | l | t] eqn:Hb; try discriminate.
  apply calm_edit_text_shape.
  destruct (call_frame id Shape.select (set_selected_shape (Some id) (deselect_all a)))
    as [_ [F2 _]].
  apply (calm_selected a _ id); [exact C | | exact F2 |].
  - eapply steady_trans; [apply steady_deselect_all |].
    eapply steady_trans; [| apply steady_call_select].
    steady_strip. apply steady_refl.
  - intros s Hs. rewrite Hd in Hs. inversion Hs; subst. now rewrite Hb.
Qed.

Lemma calm_delete_selected_shape (a : App) :
  calm a -> calm (delete_selected_shape a).
Proof.
  intros C. unfold delete_selected_shape.
  destruct (selected_shape a) as [id |]; [| exact C].
  destruct (deref a id) as [shp |]; [| exact C].
  set (a1 := set_canvas _ a).
  destruct (call_frame id Shape.delete_handles a1) as [_ [_ [F3 _]]].
  apply (calm_keep a); [exact C | | left | right; reflexivity].
  - repeat steady_strip.
    eapply steady_trans; [| apply steady_call_delete_handles].
    unfold a1. steady_strip. apply steady_refl.
  - cbn [drag_data set_selected_shape set_shapes]. now rewrite F3.
Qed.

Lemma apply_zoom_frame (a : App) :
  selected_shape (apply_zoom a) = selected_shape a
  /\ drag_data (apply_zoom a) = drag_data a.
Proof.
  assert (F : forall z l b,
             selected_shape (fold_left (zoom_shape z) l b) = selected_shape b
             /\ drag_data (fold_left (zoom_shape z) l b) = drag_data b).
  { intros z l. induction l as [| i l IH]; intros b; cbn; [auto |].
    destruct (IH (zoom_shape z b i)) as [-> ->].
    unfold zoom_shape. destruct (deref b i); [| auto].
    repeat match goal with
           | |- context [let (_, _) := ?e in _] => destruct e
           end.
    auto. }
  unfold apply_zoom.
  match goal with
  | |- context [fold_left (zoom_shape ?z) ?l ?b] => destruct (F z l b) as [-> ->]
  end.
  destruct (original_image a) as [[w h] |]; auto.
Qed.

Lemma calm_apply_zoom (z : R) (a : App) :
  calm a -> calm (apply_zoom (set_zoom_level z a)).
Proof.
  intros C. destruct (apply_zoom_frame (set_zoom_level z a)) as [H1 H2].
  apply (calm_keep a); [exact C | | left; now rewrite H2 | left; exact H1].
  eapply steady_trans; [| apply steady_apply_zoom].
  steady_strip. apply steady_refl.
Qed.

Lemma calm_step (e : Event) (a : App) : calm a -> calm (state_of (handle e a)).
Proof.
  intros C. destruct e; cbn [handle state_of].
  - now apply calm_on_canvas_click.
  - now apply calm_on_canvas_drag.
  - now apply calm_on_canvas_release.
  - now apply calm_on_double_click.
  - now apply calm_delete_selected_shape.
  - unfold set_tool.
    apply (calm_keep (deselect_all (set_current_tool t a)));
      [| steady_strip; apply steady_refl | left; reflexivity | left; reflexivity].
    apply calm_deselect_all. exact C.
  - unfold zoom_in. destruct (Rltb (zoom_level a) max_zoom); [| exact C].
    now apply calm_apply_zoom.
  - unfold zoom_out. destruct (Rltb min_zoom (zoom_level a)); [| exact C].
    now apply calm_apply_zoom.
  - now apply calm_apply_zoom.
  - now apply calm_edit_text_shape.
Qed.

Lemma calm_run (evs : list Event) (a : App) : calm a -> calm (run evs a).
Proof.
  revert a. induction evs as [| e evs IH]; intros a Ha; [exact Ha |].
  change (run (e :: evs) a) with (run evs (state_of (handle e a))).
  apply IH. now apply calm_step.
Qed.

(** Whatever the events, no circle ever gets an angle and every text keeps
    the angle 0: only rectangles and hourglasses turn.  So a drag in mode
    "rotating" on a selected circle raises in every state the editor can
    reach, AttributeError or KeyError, and leaves every shape as it is. *)
Theorem circle_and_text_never_turn
    (img : option (Z * Z)) (m : R -> R -> string -> Z -> option BBox)
    (evs : list Event) :
  let a := run evs (initial img m) in
  (forall id s, deref a id = Some s ->
                match Shape.body s with
                | Circ c => CircleShape.angle c = None
                | Txt t => TextShape.angle t = 0
                | _ => True
                end)
  /\ forall id s c cx cy,
       mode a = Rotating -> selected_shape a = Some id ->
       deref a id = Some s -> Shape.body s = Circ c ->
       exists e a',
         on_canvas_drag cx cy a = Raised e a'
         /\ (e = AttributeError "angle" \/ e = KeyError "init_shape_angle")
         /\ heap a' = heap a.
Proof.
  cbn zeta.
  assert (C0 : calm (initial img m)).
  { destruct img as [[w h] |]; (split; [| intros H; now destruct H]);
      intros [| id] s Hd; discriminate Hd. }
  destruct (calm_run evs _ C0) as [P Q].
  set (a := run evs (initial img m)) in *.
  split; [exact P |].
  intros id s c cx cy Hm Hs Hd Hb.
  pose proof (P id s Hd) as Hn. rewrite Hb in Hn. cbn in Hn.
  unfold on_canvas_drag. rewrite Hs, Hd, Hm. unfold drag_rotate. rewrite Hb.
  cbv zeta. cbn [bearing attr_x attr_y attr_angle bind]. rewrite Hn.
  destruct (d_init_rotate_angle (drag_data a)) as [ira |] eqn:Ei.
  - rewrite Ei. destruct (d_init_shape_angle (drag_data a)) as [isa |] eqn:Es.
    + exfalso. assert (Hk : Some isa <> None) by discriminate.
      pose proof (Q Hk id s Hs Hd) as Hc. rewrite Hb in Hc. discriminate.
    + eexists. eexists. split; [reflexivity |]. split; [now right | reflexivity].
  - eexists. eexists. split; [reflexivity |]. split; [now left | reflexivity].
Qed.
